(** * dng-caption-tool: caption generation and reverse geocoding

    A shallow embedding of [dng_caption/caption.py] (class
    [CaptionGenerator]) and of [dng_caption/gps.py] (class [GPSExtractor],
    method [reverse_geocode]), with the properties of their specification.

    Python [str] values are Rocq strings; a character stands for a code
    point below 256.  The file system, the process environment and the
    remote services are oracles gathered in a record; every call of an
    oracle is logged in a chronological trace, and Python exceptions are
    the left summand of a result. *)

From Stdlib Require Import ZArith QArith Qround Qabs Lqa Lia Ascii String.
From stdpp Require Import gmap strings list.

Local Open Scope string_scope.
Local Open Scope Z_scope.

(** ** Python primitives *)

Module Py.

(** The exceptions the two modules raise, catch or let through.  geopy's
    subclasses of [GeocoderServiceError] other than [GeocoderTimedOut] are
    modelled by [GeocoderServiceError] itself; [LibraryError] is any other
    exception of a library (Pillow, the API clients, geopy). *)
Inductive exn : Type :=
| ValueError (msg : string)
| IndexError
| AttributeError
| KeyError (key : string)
| GeocoderTimedOut
| GeocoderServiceError
| LibraryError (name : string).

Definition nl : string := String (ascii_of_nat 10) EmptyString.

(** Truth value of a [str] and of an [Optional[str]]. *)
Definition truthy (s : string) : bool :=
  match s with EmptyString => false | String _ _ => true end.

Definition truthy_opt (o : option string) : bool :=
  match o with None => false | Some s => truthy s end.

(** [a or b] on [Optional[str]] operands. *)
Definition or_ (a b : option string) : option string :=
  if truthy_opt a then a else b.

(** [str.isspace] on one character (code points below 256). *)
Definition isspace (c : ascii) : bool :=
  let n := Z.of_N (N_of_ascii c) in
  ((9 <=? n) && (n <=? 13)) || ((28 <=? n) && (n <=? 32))
  || (n =? 133) || (n =? 160).

Fixpoint lstrip (s : string) : string :=
  match s with
  | EmptyString => EmptyString
  | String c s' => if isspace c then lstrip s' else s
  end.

Fixpoint rstrip (s : string) : string :=
  match s with
  | EmptyString => EmptyString
  | String c s' =>
      match rstrip s' with
      | EmptyString => if isspace c then EmptyString else String c EmptyString
      | r => String c r
      end
  end.

(** [str.strip()] with no argument. *)
Definition strip (s : string) : string := rstrip (lstrip s).

(** [str.lower] on one character (code points below 256). *)
Definition lower_char (c : ascii) : ascii :=
  let n := Z.of_N (N_of_ascii c) in
  if ((65 <=? n) && (n <=? 90))
     || ((192 <=? n) && (n <=? 222) && negb (n =? 215))
  then ascii_of_N (Z.to_N (n + 32)) else c.

Fixpoint lower (s : string) : string :=
  match s with
  | EmptyString => EmptyString
  | String c s' => String (lower_char c) (lower s')
  end.

(** [repr] of a [str] made of printable characters other than the quote
    and the backslash, which is what the catalog keys are. *)
Definition repr_str (s : string) : string := "'" +:+ s +:+ "'".

Fixpoint join (sep : string) (l : list string) : string :=
  match l with
  | [] => EmptyString
  | [s] => s
  | s :: rest => s +:+ sep +:+ join sep rest
  end.

(** [str] of a list of such strings. *)
Definition repr_list (l : list string) : string :=
  "[" +:+ join ", " (map repr_str l) +:+ "]".

(** A [dict] whose iteration order is observed: keys in insertion order. *)
Definition dict (V : Type) : Type := list (string * V).

Fixpoint dict_get {V} (d : dict V) (k : string) : option V :=
  match d with
  | [] => None
  | (k', v) :: rest => if decide (k = k') then Some v else dict_get rest k
  end.

(** [k in d]. *)
Definition dict_in {V} (k : string) (d : dict V) : bool :=
  match dict_get d k with Some _ => true | None => false end.

(** [list(d.keys())]. *)
Definition dict_keys {V} (d : dict V) : list string := map fst d.

(** [range(n)]. *)
Definition range (n : Z) : list Z := seqZ 0 n.

End Py.

(** ** Computations with a trace and exceptions *)

Module Eff.
Section Monad.
Context {E : Type}.

Definition M (A : Type) : Type := list E -> (Py.exn + A) * list E.

Definition ret {A} (a : A) : M A := fun tr => (inr a, tr).

Definition raise {A} (e : Py.exn) : M A := fun tr => (inl e, tr).

Definition bind {A B} (m : M A) (k : A -> M B) : M B :=
  fun tr =>
    match m tr with
    | (inl e, tr') => (inl e, tr')
    | (inr a, tr') => k a tr'
    end.

(** A call of an oracle: the call is logged, then its outcome is the
    outcome of the computation. *)
Definition call {A} (ev : E) (outcome : Py.exn + A) : M A :=
  fun tr => (outcome, (tr ++ [ev])%list).

(** A step that leaves the trace alone. *)
Definition lift {A} (r : Py.exn + A) : M A := fun tr => (r, tr).

(** [try: m except ...]: the outcome of [m] is handed to the handler. *)
Definition try {A B} (m : M A) (k : Py.exn + A -> M B) : M B :=
  fun tr => let '(r, tr') := m tr in k r tr'.

End Monad.
End Eff.

Notation "x <- m ;; k" := (Eff.bind m (fun x => k))
  (at level 100, m at next level, right associativity).
Notation "m ;;; k" := (Eff.bind m (fun _ => k))
  (at level 100, right associativity).

(** ** Pillow: the part of [PIL.Image] that [_prepare_image] calls *)

Module PIL.

Record Image : Type := mkImage { mode : string; width : Z; height : Z }.

(** [img.convert(m)]: same size, new mode. *)
Definition convert (img : Image) (m : string) : Image :=
  {| mode := m; width := width img; height := height img |}.

(** [round_aspect] of [Image.thumbnail]:
    [max(min(math.floor(number), math.ceil(number), key=key), 1)];
    [min] keeps its first argument on a tie.  Python floats are read as
    exact rationals. *)
Definition round_aspect (number : Q) (key : Z -> Q) : Z :=
  let lo := Qfloor number in
  let hi := Qceiling number in
  Z.max (if Qle_bool (key lo) (key hi) then lo else hi) 1.

(** [preserve_aspect_ratio] of [Image.thumbnail] (Pillow 9.1 and later,
    the releases that have [Image.Resampling]); [None] when the image
    already fits. *)
Definition preserve_aspect_ratio (img : Image) (size : Z * Z)
  : option (Z * Z) :=
  let '(x, y) := size in
  if (width img <=? x) && (height img <=? y) then None
  else
    let aspect := (inject_Z (width img) / inject_Z (height img))%Q in
    if Qle_bool aspect (inject_Z x / inject_Z y)%Q then
      Some (round_aspect (inject_Z y * aspect)%Q
              (fun n => Qabs (aspect - inject_Z n / inject_Z y)%Q), y)
    else
      Some (x, round_aspect (inject_Z x / aspect)%Q
                 (fun n => if n =? 0 then 0%Q
                           else Qabs (aspect - inject_Z x / inject_Z n)%Q)).

(** [img.thumbnail(size, resample)]: the image is resized to the size
    [preserve_aspect_ratio] gives, and left alone when it gives none. *)
Definition thumbnail (img : Image) (size : Z * Z) : Image :=
  match preserve_aspect_ratio img size with
  | None => img
  | Some (x, y) => {| mode := mode img; width := x; height := y |}
  end.

End PIL.

(** ** caption.py: class [CaptionGenerator] *)

Module Caption.
Import Py.

Record ModelInfo : Type :=
  mkModel { name : string; cost : Q; description : string }.

Definition CLAUDE_MODELS : dict ModelInfo :=
  [ ("haiku",  mkModel "claude-3-haiku-20240307" (1 # 1000) "Fast and affordable");
    ("sonnet", mkModel "claude-3-5-sonnet-20241022" (3 # 1000) "Best balance");
    ("opus",   mkModel "claude-opus-4-5-20251101" (15 # 1000) "Highest quality") ].

Definition OPENAI_MODELS : dict ModelInfo :=
  [ ("gpt-4o",      mkModel "gpt-4o" (5 # 1000) "Latest GPT-4 with vision");
    ("gpt-4o-mini", mkModel "gpt-4o-mini" (15 # 100000) "Fast and affordable GPT-4");
    ("gpt-4-turbo", mkModel "gpt-4-turbo" (1 # 100) "Previous GPT-4 Turbo") ].

Definition descriptive_text : string :=
  "Write a 2-3 sentence professional caption for this image.".

Definition social_text : string :=
  "Generate an engaging, but straightforward caption for Instagram using the image and metadata. Follow these guidelines:"
  +:+ nl +:+ "- First line should be descriptive of what the subject is if known"
  +:+ nl +:+ "- Use a masculine voice and avoid excessively flowery language"
  +:+ nl +:+ "- Use any location data if available"
  +:+ nl +:+ "- Append the caption with up to 8 hashtags that are likely to drive traffic and engagement"
  +:+ nl +:+ "- Keep the tone engaging but direct".

Definition STYLES : gmap string string :=
  list_to_map
    [ ("descriptive", descriptive_text);
      ("social", social_text);
      ("minimal", "Write a brief one-sentence caption.");
      ("artistic", "Write a poetic, evocative caption.");
      ("documentary", "Write a factual, journalistic caption.");
      ("travel", "Write a travel photography caption emphasizing the location.") ].

(** The request both remote APIs receive. *)
Inductive Block : Type :=
| ImageBlock (source_type media_type data : string)
| ImageUrlBlock (url : string)
| TextBlock (text : string).

Record Message : Type := mkMessage { role : string; content : list Block }.

Record Request : Type :=
  mkRequest { model : string; max_tokens : Z; messages : list Message }.

(** A response, as far as [generate] reads it: the content blocks of a
    Claude message, or the choices of a chat completion; [None] is a
    block that has no [text], or a choice whose message content is
    [None]. *)
Definition Response : Type := list (option string).

Inductive Client : Type :=
| Anthropic (api_key : string)
| OpenAI (api_key : string).

(** What the generator reads from outside. *)
Record World : Type := mkWorld {
  environ : gmap string string;
  Image_open : string -> exn + PIL.Image;
  jpeg_base64 : PIL.Image -> string;
  messages_create : string -> Request -> exn + Response;
  chat_completions_create : string -> Request -> exn + Response }.

Inductive event : Type :=
| EvImageOpen (path : string)
| EvImageSave (img : PIL.Image) (format : string) (quality : Z)
| EvMessagesCreate (req : Request)
| EvChatCompletionsCreate (req : Request).

Definition is_request (ev : event) : bool :=
  match ev with
  | EvMessagesCreate _ | EvChatCompletionsCreate _ => true
  | _ => false
  end.

Definition request_of (ev : event) : option Request :=
  match ev with
  | EvMessagesCreate r | EvChatCompletionsCreate r => Some r
  | _ => None
  end.

Definition is_image_event (ev : event) : bool :=
  match ev with
  | EvImageOpen _ | EvImageSave _ _ _ => true
  | _ => false
  end.

Abbreviation M := (@Eff.M event).

Record CaptionGenerator : Type := mkGenerator {
  provider : string;
  api_key : string;
  client : Client;
  models : dict ModelInfo }.

Definition __init__ (w : World) (api_key : option string)
    (provider : string) : exn + CaptionGenerator :=
  let provider' := lower provider in
  if decide (provider' = "claude") then
    match or_ api_key (environ w !! "ANTHROPIC_API_KEY") with
    | Some key =>
        if truthy key
        then inr (mkGenerator provider' key (Anthropic key) CLAUDE_MODELS)
        else inl (ValueError "Anthropic API key required (set ANTHROPIC_API_KEY)")
    | None => inl (ValueError "Anthropic API key required (set ANTHROPIC_API_KEY)")
    end
  else if decide (provider' = "openai") then
    match or_ api_key (environ w !! "OPENAI_API_KEY") with
    | Some key =>
        if truthy key
        then inr (mkGenerator provider' key (OpenAI key) OPENAI_MODELS)
        else inl (ValueError "OpenAI API key required (set OPENAI_API_KEY)")
    | None => inl (ValueError "OpenAI API key required (set OPENAI_API_KEY)")
    end
  else
    inl (ValueError ("Invalid provider: " +:+ provider
                     +:+ ". Must be 'claude' or 'openai'")).

Definition _prepare_image (w : World) (self : CaptionGenerator)
    (image_path : string) : M string :=
  img <- Eff.call (EvImageOpen image_path) (Image_open w image_path) ;;
  let img := if decide (PIL.mode img = "RGB") then img
             else PIL.convert img "RGB" in
  let img := PIL.thumbnail img (1600, 1600) in
  Eff.call (EvImageSave img "JPEG" 85) (inr (jpeg_base64 w img)).

(** [d[k]['name']]. *)
Definition model_name (d : dict ModelInfo) (k : string) : M string :=
  match dict_get d k with
  | Some info => Eff.ret (name info)
  | None => Eff.raise (KeyError k)
  end.

(** [self.client.messages.create(...)]: only an Anthropic client has
    [messages]. *)
Definition client_messages_create (w : World) (c : Client)
    (req : Request) : M Response :=
  match c with
  | Anthropic key => Eff.call (EvMessagesCreate req) (messages_create w key req)
  | OpenAI _ => Eff.raise AttributeError
  end.

(** [self.client.chat.completions.create(...)]: only an OpenAI client
    has [chat]. *)
Definition client_chat_completions_create (w : World) (c : Client)
    (req : Request) : M Response :=
  match c with
  | OpenAI key =>
      Eff.call (EvChatCompletionsCreate req) (chat_completions_create w key req)
  | Anthropic _ => Eff.raise AttributeError
  end.

(** [r[0].text] and [r[0].message.content], followed by [.strip()]. *)
Definition first_text_stripped (r : Response) : exn + string :=
  match r with
  | [] => inl IndexError
  | None :: _ => inl AttributeError
  | Some text :: _ => inr (strip text)
  end.

Definition _generate_claude (w : World) (self : CaptionGenerator)
    (image_path style : string) (model : option string)
    (location_context : option string) : M string :=
  let model :=
    match model with
    | None => if decide (style = "social") then "opus" else "haiku"
    | Some m => m
    end in
  if negb (dict_in model CLAUDE_MODELS) then
    Eff.raise (ValueError ("Invalid Claude model: " +:+ model
                           +:+ ". Choose from "
                           +:+ repr_list (dict_keys CLAUDE_MODELS)))
  else
    image_base64 <- _prepare_image w self image_path ;;
    let prompt := default (STYLES !!! "descriptive") (STYLES !! style) in
    let prompt :=
      match location_context with
      | Some loc => if truthy loc then prompt +:+ nl +:+ nl +:+ loc else prompt
      | None => prompt
      end in
    remote <- model_name CLAUDE_MODELS model ;;
    response <- client_messages_create w (client self)
      (mkRequest remote 300
         [ mkMessage "user"
             [ ImageBlock "base64" "image/jpeg" image_base64;
               TextBlock prompt ] ]) ;;
    Eff.lift (first_text_stripped response).

Definition _generate_openai (w : World) (self : CaptionGenerator)
    (image_path style : string) (model : option string)
    (location_context : option string) : M string :=
  let model :=
    match model with
    | None => if decide (style = "social") then "gpt-4o" else "gpt-4o-mini"
    | Some m => m
    end in
  if negb (dict_in model OPENAI_MODELS) then
    Eff.raise (ValueError ("Invalid OpenAI model: " +:+ model
                           +:+ ". Choose from "
                           +:+ repr_list (dict_keys OPENAI_MODELS)))
  else
    image_base64 <- _prepare_image w self image_path ;;
    let prompt := default (STYLES !!! "descriptive") (STYLES !! style) in
    let prompt :=
      match location_context with
      | Some loc => if truthy loc then prompt +:+ nl +:+ nl +:+ loc else prompt
      | None => prompt
      end in
    remote <- model_name OPENAI_MODELS model ;;
    response <- client_chat_completions_create w (client self)
      (mkRequest remote 300
         [ mkMessage "user"
             [ ImageUrlBlock ("data:image/jpeg;base64," +:+ image_base64);
               TextBlock prompt ] ]) ;;
    Eff.lift (first_text_stripped response).

Definition generate (w : World) (self : CaptionGenerator)
    (image_path style : string) (model : option string)
    (location_context : option string) : M string :=
  if decide (provider self = "claude")
  then _generate_claude w self image_path style model location_context
  else _generate_openai w self image_path style model location_context.

End Caption.

(** ** gps.py: class [GPSExtractor], reverse geocoding *)

Module GPS.
Import Py.

(** A geopy [Location]: [raw_address] is [raw.get('address')], when
    [raw] has that key. *)
Record Location : Type := mkLocation {
  raw_address : option (gmap string string);
  address : string }.

(** The dictionary [_parse_location] returns. *)
Record LocationInfo : Type := mkInfo {
  formatted : string;
  city : option string;
  state : option string;
  country : option string;
  full_address : string }.

Inductive event : Type :=
| EvReverse (query : string) (timeout : Z) (language : string)
| EvSleep (seconds : Z).

Definition is_reverse (ev : event) : bool :=
  match ev with EvReverse _ _ _ => true | EvSleep _ => false end.

Definition is_sleep (ev : event) : bool :=
  match ev with EvSleep _ => true | EvReverse _ _ _ => false end.

Abbreviation M := (@Eff.M event).

Section Coordinates.
(** Python floats stay abstract: only their [str] is used. *)
Context {float : Type}.

(** The geocoding service: the outcome of its n-th call (from 0). *)
Record World : Type := mkWorld {
  str_float : float -> string;
  reverse : nat -> string -> Z -> string -> exn + option Location }.

Definition calls (tr : list event) : nat :=
  length (List.filter is_reverse tr).

(** [self.geolocator.reverse(query, timeout=.., language=..)]. *)
Definition geolocator_reverse (w : World) (query : string) (timeout : Z)
    (language : string) : M (option Location) :=
  fun tr =>
    Eff.call (EvReverse query timeout language)
      (reverse w (calls tr) query timeout language) tr.

(** [time.sleep(seconds)]. *)
Definition sleep (seconds : Z) : M unit := Eff.call (EvSleep seconds) (inr tt).

Definition _parse_location (location : Location) : LocationInfo :=
  let address_ := default ∅ (raw_address location) in
  let city := or_ (or_ (or_ (address_ !! "city") (address_ !! "town"))
                     (address_ !! "village")) (address_ !! "hamlet") in
  let parts := [] in
  let parts := match city with
               | Some c => if truthy c then (parts ++ [c])%list else parts
               | None => parts
               end in
  let parts := match address_ !! "state" with
               | Some s => if truthy s then (parts ++ [s])%list else parts
               | None => parts
               end in
  let parts := match address_ !! "country" with
               | Some c => if truthy c then (parts ++ [c])%list else parts
               | None => parts
               end in
  {| formatted := match parts with
                  | [] => address location
                  | _ => join ", " parts
                  end;
     city := city;
     state := address_ !! "state";
     country := address_ !! "country";
     full_address := address location |}.

(** The clause [except (GeocoderTimedOut, GeocoderServiceError)]. *)
Definition caught (e : exn) : bool :=
  match e with
  | GeocoderTimedOut | GeocoderServiceError => true
  | _ => false
  end.

(** The body of [for attempt in range(retries)], and what follows the
    loop. *)
Fixpoint attempts (w : World) (latitude longitude : float) (retries : Z)
    (todo : list Z) : M (option LocationInfo) :=
  match todo with
  | [] => Eff.ret None
  | attempt :: todo' =>
      Eff.try
        (geolocator_reverse w
           (str_float w latitude +:+ ", " +:+ str_float w longitude) 5 "en")
        (fun r =>
           match r with
           | inr (Some location) => Eff.ret (Some (_parse_location location))
           | inr None => attempts w latitude longitude retries todo'
           | inl e =>
               if caught e then
                 (if attempt <? retries - 1 then sleep 1 else Eff.ret tt) ;;;
                 attempts w latitude longitude retries todo'
               else Eff.raise e
           end)
  end.

Definition reverse_geocode (w : World) (latitude longitude : float)
    (retries : Z) : M (option LocationInfo) :=
  attempts w latitude longitude retries (range retries).

End Coordinates.

Arguments World : clear implicits.

End GPS.

(** ** Reading a trace *)

Module Obs.
Import Py Caption.

(** The requests sent to a remote API, in order. *)
Definition requests (tr : list event) : list Request := omap request_of tr.

(** The text blocks of a request. *)
Definition block_text (b : Block) : option string :=
  match b with TextBlock t => Some t | _ => None end.

Definition prompts (req : Request) : list string :=
  concat (map (fun m => omap block_text (content m)) (messages req)).

(** The image [_prepare_image] saves when the decoded image is [img],
    and the prompt both provider methods compose. *)
Definition saved (img : PIL.Image) : PIL.Image :=
  PIL.thumbnail
    (if decide (PIL.mode img = "RGB") then img else PIL.convert img "RGB")
    (1600, 1600).

Definition composed (style : string) (loc : option string) : string :=
  let prompt := default (STYLES !!! "descriptive") (STYLES !! style) in
  match loc with
  | Some l => if truthy l then prompt +:+ nl +:+ nl +:+ l else prompt
  | None => prompt
  end.

Definition claude_request (w : World) (remote : string) (img : PIL.Image)
    (style : string) (loc : option string) : Request :=
  mkRequest remote 300
    [ mkMessage "user"
        [ ImageBlock "base64" "image/jpeg" (jpeg_base64 w (saved img));
          TextBlock (composed style loc) ] ].

Definition openai_request (w : World) (remote : string) (img : PIL.Image)
    (style : string) (loc : option string) : Request :=
  mkRequest remote 300
    [ mkMessage "user"
        [ ImageUrlBlock ("data:image/jpeg;base64,"
                         +:+ jpeg_base64 w (saved img));
          TextBlock (composed style loc) ] ].

(** The model key is absent, or it is a key of the generator's catalog. *)
Definition usable_model (g : CaptionGenerator) (m : option string) : Prop :=
  match m with
  | None => True
  | Some k => dict_in k (models g) = true
  end.

(** A string made of whitespace only. *)
Fixpoint blank (s : string) : bool :=
  match s with
  | EmptyString => true
  | String c s' => isspace c && blank s'
  end.

Definition first_char (s : string) : option ascii :=
  match s with EmptyString => None | String c _ => Some c end.

Fixpoint last_char (s : string) : option ascii :=
  match s with
  | EmptyString => None
  | String c EmptyString => Some c
  | String _ s' => last_char s'
  end.

(** [t] is [s] without its leading and trailing whitespace. *)
Definition trimmed_of (s t : string) : Prop :=
  (exists pre post,
      s = pre +:+ t +:+ post /\ blank pre = true /\ blank post = true)
  /\ (forall c, first_char t = Some c -> isspace c = false)
  /\ (forall c, last_char t = Some c -> isspace c = false).

(** What [n] failed attempts of [reverse_geocode] leave in the trace:
    [n] calls of the service with one sleep of a second between two
    calls. *)
Fixpoint retry_trace (query : string) (n : nat) : list GPS.event :=
  match n with
  | O => []
  | S O => [GPS.EvReverse query 5 "en"]
  | S n' => GPS.EvReverse query 5 "en" :: GPS.EvSleep 1 :: retry_trace query n'
  end.

(** The query string of [reverse_geocode]. *)
Definition query {float} (w : GPS.World float) (latitude longitude : float)
  : string :=
  GPS.str_float w latitude +:+ ", " +:+ GPS.str_float w longitude.

End Obs.

(** ** A sample world *)

Module Sample.
Import Py Caption.

Definition photo : PIL.Image := PIL.mkImage "RGB" 4000 3000.

Definition scan : PIL.Image := PIL.mkImage "L" 1200 900.

(** Two files decode, the services answer with a caption that names the
    model they were asked for. *)
Definition world : World :=
  {| environ := {[ "OPENAI_API_KEY" := "sk-env" ]};
     Image_open := fun p =>
       if decide (p = "photo.jpg") then inr photo
       else if decide (p = "scan.png") then inr scan
       else inl (LibraryError "FileNotFoundError");
     jpeg_base64 := fun img =>
       if decide (PIL.width img = 1600) then "L2o=" else "L3M=";
     messages_create := fun _ req =>
       inr [Some ("  A harbour at dusk, by " +:+ model req +:+ "." +:+ nl)];
     chat_completions_create := fun _ req =>
       inr [Some (nl +:+ "A harbour at dusk, by " +:+ model req +:+ ". ")] |}.

Definition claude : CaptionGenerator :=
  mkGenerator "claude" "sk-ant" (Anthropic "sk-ant") CLAUDE_MODELS.

Definition openai : CaptionGenerator :=
  mkGenerator "openai" "sk-env" (OpenAI "sk-env") OPENAI_MODELS.

(** Geocoding services; coordinates are given by their decimal text. *)
Definition lisbon : GPS.Location :=
  GPS.mkLocation
    (Some {[ "city" := "Lisbon"; "country" := "Portugal" ]})
    "Lisbon, Portugal".

(** Always out of reach: a timeout, then service errors. *)
Definition down : GPS.World string :=
  GPS.mkWorld id
    (fun n _ _ _ =>
       match n with O => inl GeocoderTimedOut | _ => inl GeocoderServiceError end).

(** A timeout, then an answer. *)
Definition slow : GPS.World string :=
  GPS.mkWorld id
    (fun n _ _ _ =>
       match n with O => inl GeocoderTimedOut | _ => inr (Some lisbon) end).

(** geopy refuses a latitude outside [-90, 90] with a [ValueError]. *)
Definition strict : GPS.World string :=
  GPS.mkWorld id
    (fun _ q _ _ =>
       if decide (q = "123.0, 10.0")
       then inl (ValueError "Latitude must be in the [-90; 90] range.")
       else inr (Some lisbon)).

End Sample.

(** ** Further sample worlds *)

Module Cases.
Import Py Caption.

(** The remote APIs are out of reach. *)
Definition offline : World :=
  {| environ := environ Sample.world;
     Image_open := Image_open Sample.world;
     jpeg_base64 := jpeg_base64 Sample.world;
     messages_create := fun _ _ => inl (LibraryError "APIConnectionError");
     chat_completions_create := fun _ _ => inl (LibraryError "RateLimitError") |}.

(** The remote APIs answer with nothing to read. *)
Definition mute : World :=
  {| environ := environ Sample.world;
     Image_open := Image_open Sample.world;
     jpeg_base64 := jpeg_base64 Sample.world;
     messages_create := fun _ _ => inr [];
     chat_completions_create := fun _ _ => inr [None] |}.

(** The file [small.jpg] holds what [_prepare_image] saved for
    [photo.jpg]. *)
Definition archive : World :=
  {| environ := environ Sample.world;
     Image_open := fun p =>
       if decide (p = "small.jpg") then inr (PIL.mkImage "RGB" 1600 1200)
       else Image_open Sample.world p;
     jpeg_base64 := jpeg_base64 Sample.world;
     messages_create := messages_create Sample.world;
     chat_completions_create := chat_completions_create Sample.world |}.

End Cases.

(** ** gps.py: reading the position from the EXIF data *)

Module Exif.

(** The values [piexif.load] puts in the GPS directory: integers, byte
    strings, and tuples (a rational is a pair of integers). *)
#[warnings="-register-all"]
Inductive pyval : Type :=
| PInt (n : Z)
| PBytes (b : string)
| PTuple (items : list pyval).

(** What can go wrong inside the [try] of [extract_gps]; [Raised] is an
    exception of [Image.open] or of [piexif.load]. *)
Inductive error : Type :=
| TypeError
| ZeroDivisionError
| IndexError
| KeyError
| AttributeError
| UnicodeDecodeError
| Raised (e : Py.exn).

(** [piexif.GPSIFD]: the EXIF numbers of the GPS tags. *)
Definition GPSLatitudeRef : Z := 1.
Definition GPSLatitude : Z := 2.
Definition GPSLongitudeRef : Z := 3.
Definition GPSLongitude : Z := 4.
Definition GPSAltitude : Z := 6.

Inductive event : Type :=
| EvOpen (path : string)
| EvLoad (data : string).

Section Floats.
(** Python floats stay abstract, with the operations the code applies. *)
Context {float : Type}.

Record World : Type := mkWorld {
  (** [Image.open(path).info]: its ['exif'] entry, if it has one. *)
  open_info : string -> Py.exn + option string;
  piexif_load : string -> Py.exn + gmap string (gmap Z pyval);
  (** [bytes.decode('utf-8')] on bytes that are not all ASCII; [None] is
      a [UnicodeDecodeError]. *)
  decode_other : string -> option string;
  (** [a / b] on integers, [b] not zero, within the range of floats. *)
  int_div : Z -> Z -> float;
  fdiv : float -> float -> float;
  fadd : float -> float -> float;
  fneg : float -> float;
  f60 : float;
  f3600 : float }.

(** The dictionary [extract_gps] returns. *)
Record GpsData : Type := mkGps {
  latitude : float;
  longitude : float;
  altitude : option float }.

Definition bind {A B} (m : error + A) (k : A -> error + B) : error + B :=
  match m with inl e => inl e | inr a => k a end.

(** [v[i]]. *)
Definition getitem (v : pyval) (i : nat) : error + pyval :=
  match v with
  | PTuple items =>
      match items !! i with Some x => inr x | None => inl IndexError end
  | PBytes b =>
      match String.get i b with
      | Some c => inr (PInt (Z.of_N (N_of_ascii c)))
      | None => inl IndexError
      end
  | PInt _ => inl TypeError
  end.

(** [a / b]. *)
Definition truediv (w : World) (a b : pyval) : error + float :=
  match a, b with
  | PInt x, PInt y => if y =? 0 then inl ZeroDivisionError else inr (int_div w x y)
  | _, _ => inl TypeError
  end.

Fixpoint ascii_only (b : string) : bool :=
  match b with
  | EmptyString => true
  | String c b' => (Z.of_N (N_of_ascii c) <? 128) && ascii_only b'
  end.

(** [v.decode('utf-8')]. *)
Definition decode (w : World) (v : pyval) : error + string :=
  match v with
  | PBytes b =>
      if ascii_only b then inr b
      else match decode_other w b with
           | Some s => inr s
           | None => inl UnicodeDecodeError
           end
  | _ => inl AttributeError
  end.

(** [d[k]] on a directory of tags. *)
Definition tag (d : gmap Z pyval) (k : Z) : error + pyval :=
  match d !! k with Some v => inr v | None => inl KeyError end.

(** [v[i][0] / v[i][1]]. *)
Definition ratio (w : World) (value : pyval) (i : nat) : error + float :=
  bind (getitem value i) (fun r =>
  bind (getitem r 0) (fun num =>
  bind (getitem value i) (fun r' =>
  bind (getitem r' 1) (fun den =>
  truediv w num den)))).

Definition _convert_to_degrees (w : World) (value : pyval) (ref : string)
  : error + float :=
  bind (ratio w value 0) (fun degrees =>
  bind (ratio w value 1) (fun minutes =>
  bind (ratio w value 2) (fun seconds =>
  let decimal :=
    fadd w (fadd w degrees (fdiv w minutes (f60 w))) (fdiv w seconds (f3600 w)) in
  let decimal :=
    if decide (ref = "S") then fneg w decimal
    else if decide (ref = "W") then fneg w decimal
    else decimal in
  inr decimal))).

(** The body of [extract_gps] once the EXIF data is loaded. *)
Definition gps_of_exif (w : World) (exif_dict : gmap string (gmap Z pyval))
  : error + option GpsData :=
  match default ∅ (exif_dict !! "GPS") !! GPSLatitude with
  | None => inr None
  | Some _ =>
      match exif_dict !! "GPS" with
      | None => inl KeyError
      | Some gps =>
          bind (tag gps GPSLatitude) (fun lat_value =>
          bind (tag gps GPSLatitudeRef) (fun lat_ref =>
          bind (decode w lat_ref) (fun lat_ref =>
          bind (_convert_to_degrees w lat_value lat_ref) (fun lat =>
          bind (tag gps GPSLongitude) (fun lon_value =>
          bind (tag gps GPSLongitudeRef) (fun lon_ref =>
          bind (decode w lon_ref) (fun lon_ref =>
          bind (_convert_to_degrees w lon_value lon_ref) (fun lon =>
          match default ∅ (exif_dict !! "GPS") !! GPSAltitude with
          | None => inr (Some (mkGps lat lon None))
          | Some _ =>
              bind (tag gps GPSAltitude) (fun alt =>
              bind (getitem alt 0) (fun num =>
              bind (getitem alt 1) (fun den =>
              bind (truediv w num den) (fun a =>
              inr (Some (mkGps lat lon (Some a)))))))
          end))))))))
      end
  end.

(** The [try] block of [extract_gps]. *)
Definition extract_gps_body (w : World) (image_path : string)
  : list event -> (error + option GpsData) * list event :=
  fun tr =>
    match open_info w image_path with
    | inl e => (inl (Raised e), (tr ++ [EvOpen image_path])%list)
    | inr None => (inr None, (tr ++ [EvOpen image_path])%list)
    | inr (Some data) =>
        (match piexif_load w data with
         | inl e => inl (Raised e)
         | inr exif_dict => gps_of_exif w exif_dict
         end,
         (tr ++ [EvOpen image_path; EvLoad data])%list)
    end.

(** [extract_gps]: the block, with [except Exception: return None]. *)
Definition extract_gps (w : World) (image_path : string)
  : list event -> option GpsData * list event :=
  fun tr =>
    let '(r, tr') := extract_gps_body w image_path tr in
    (match r with inl _ => None | inr result => result end, tr').

End Floats.

Arguments World : clear implicits.
Arguments GpsData : clear implicits.

End Exif.

(** ** caption.py, the earlier version kept beside cli.py *)

Module Legacy.
Import Py.

Definition MODELS : dict Caption.ModelInfo :=
  [ ("haiku",  Caption.mkModel "claude-3-haiku-20240307" (1 # 1000) "Fast and affordable");
    ("sonnet", Caption.mkModel "claude-3-5-sonnet-20241022" (3 # 1000) "Best balance");
    ("opus",   Caption.mkModel "claude-3-opus-20240229" (15 # 1000) "Highest quality") ].

Definition STYLES : gmap string string :=
  list_to_map
    [ ("descriptive", "Write a 2-3 sentence professional caption for this image.");
      ("social", "Write an engaging social media caption with relevant hashtags.");
      ("minimal", "Write a brief one-sentence caption.");
      ("artistic", "Write a poetic, evocative caption.");
      ("documentary", "Write a factual, journalistic caption.");
      ("travel", "Write a travel photography caption emphasizing the location.") ].

Record CaptionGenerator : Type := mkGenerator { api_key : string }.

Definition __init__ (w : Caption.World) (api_key : option string)
  : exn + CaptionGenerator :=
  match or_ api_key (Caption.environ w !! "ANTHROPIC_API_KEY") with
  | Some key =>
      if truthy key then inr (mkGenerator key)
      else inl (ValueError "API key required")
  | None => inl (ValueError "API key required")
  end.

Definition _prepare_image (w : Caption.World) (self : CaptionGenerator)
    (image_path : string) : Caption.M string :=
  img <- Eff.call (Caption.EvImageOpen image_path)
           (Caption.Image_open w image_path) ;;
  let img := if decide (PIL.mode img = "RGB") then img
             else PIL.convert img "RGB" in
  let img := PIL.thumbnail img (1600, 1600) in
  Eff.call (Caption.EvImageSave img "JPEG" 85)
    (inr (Caption.jpeg_base64 w img)).

(** [generate]; its [model] parameter defaults to ['haiku']. *)
Definition generate (w : Caption.World) (self : CaptionGenerator)
    (image_path style model : string) (location_context : option string)
  : Caption.M string :=
  image_base64 <- _prepare_image w self image_path ;;
  let prompt := default (STYLES !!! "descriptive") (STYLES !! style) in
  let prompt :=
    match location_context with
    | Some loc => if truthy loc then prompt +:+ nl +:+ nl +:+ loc else prompt
    | None => prompt
    end in
  remote <- Caption.model_name MODELS model ;;
  response <- Eff.call
    (Caption.EvMessagesCreate
       (Caption.mkRequest remote 300
          [ Caption.mkMessage "user"
              [ Caption.ImageBlock "base64" "image/jpeg" image_base64;
                Caption.TextBlock prompt ] ]))
    (Caption.messages_create w (api_key self)
       (Caption.mkRequest remote 300
          [ Caption.mkMessage "user"
              [ Caption.ImageBlock "base64" "image/jpeg" image_base64;
                Caption.TextBlock prompt ] ])) ;;
  Eff.lift (Caption.first_text_stripped response).



End Legacy.

(** ** cli.py: [main], from the parsed arguments on *)

Module Cli.

(** The namespace [parse_args] returns. *)
Record Args : Type := mkArgs {
  images : list string;
  provider : string;
  model : option string;
  style : string;
  no_gps : bool;
  embed : bool }.

(** What [main] does: what its three components do, and its own prints
    and calls.  A print event holds the values put in the line. *)
Inductive event : Type :=
| Cap (ev : Caption.event)
| Geo (ev : GPS.event)
| Exf (ev : Exif.event)
| EvPrintNotFound (path : string)
| EvPrintDone (name preview : string)
| EvPrintFailed (name : string) (e : Py.exn)
| EvEmbed (path caption : string).

Abbreviation M := (@Eff.M event).

Definition geo_of (ev : event) : option GPS.event :=
  match ev with Geo e => Some e | _ => None end.

(** [s[:n]]. *)
Fixpoint prefix (n : nat) (s : string) : string :=
  match n, s with
  | S n', String c s' => String c (prefix n' s')
  | _, _ => EmptyString
  end.

(** A generator, as far as [main] uses it: its method [generate], called
    with the path, the style, the model and the location sentence.
    [main] is written for a class whose constructor takes [provider];
    what it gets is the class of the module [caption] next to it, so the
    class is left open here and the properties of [main] hold for the
    one and for the other. *)
Definition Generator : Type :=
  string -> string -> option string -> option string -> Caption.M string.

Section Floats.
Context {float : Type}.

(** The worlds of the components, the file system as [Path] sees it, and
    [XMPEmbedder.embed], whose module is not part of the sources.
    [make_generator] is the call [CaptionGenerator(provider=...)] on the
    class that [main] imports: it raises, or gives a generator. *)
Record World : Type := mkWorld {
  make_generator : string -> Py.exn + Generator;
  gps_world : GPS.World float;
  exif_world : @Exif.World float;
  path_exists : string -> bool;
  path_name : string -> string;
  path_str : string -> string;
  embedder_embed : string -> string -> Py.exn + unit }.

(** A step of the generator: it does not read the trace. *)
Definition of_caption {A} (m : Caption.M A) : M A :=
  fun tr => let '(r, evs) := m [] in (r, (tr ++ map Cap evs)%list).

(** A step of the geocoder, which goes on from its own past calls. *)
Definition of_geocoder {A} (m : GPS.M A) : M A :=
  fun tr =>
    let past := omap geo_of tr in
    let '(r, evs) := m past in
    (r, (tr ++ map Geo (drop (length past) evs))%list).

(** [extract_gps]; it raises nothing. *)
Definition of_extract {A}
    (m : list Exif.event -> A * list Exif.event) : M A :=
  fun tr => let '(r, evs) := m [] in (inr r, (tr ++ map Exf evs)%list).

Definition print (line : event) : M unit := Eff.call line (inr tt).

(** The lines of the [try] block that set [location_context]. *)
Definition locate (w : World) (args : Args) (image_path : string)
  : M (option string) :=
  if no_gps args then Eff.ret None
  else
    gps_data <- of_extract (Exif.extract_gps (exif_world w) image_path) ;;
    match gps_data with
    | None => Eff.ret None
    | Some d =>
        location <- of_geocoder
          (GPS.reverse_geocode (gps_world w)
             (Exif.latitude d) (Exif.longitude d) 2) ;;
        match location with
        | None => Eff.ret None
        | Some l => Eff.ret (Some ("Location: " +:+ GPS.formatted l))
        end
    end.

(** The body of [for image_path in args.images]. *)
Definition process (w : World) (generator : Generator)
    (args : Args) (image_path : string) : M unit :=
  if negb (path_exists w image_path) then
    print (EvPrintNotFound (path_str w image_path))
  else
    Eff.try
      (location_context <- locate w args image_path ;;
       caption <- of_caption
         (generator image_path (style args) (model args) location_context) ;;
       print (EvPrintDone (path_name w image_path) (prefix 50 caption)) ;;;
       if embed args
       then Eff.call (EvEmbed image_path caption)
              (embedder_embed w image_path caption)
       else Eff.ret tt)
      (fun r =>
         match r with
         | inl e => print (EvPrintFailed (path_name w image_path) e)
         | inr _ => Eff.ret tt
         end).

Fixpoint process_all (w : World) (generator : Generator)
    (args : Args) (todo : list string) : M unit :=
  match todo with
  | [] => Eff.ret tt
  | image_path :: todo' =>
      process w generator args image_path ;;;
      process_all w generator args todo'
  end.

Definition main (w : World) (args : Args) : M Z :=
  generator <- Eff.lift (make_generator w (provider args)) ;;
  process_all w generator args (images args) ;;;
  Eff.ret 0.

End Floats.

Arguments World : clear implicits.

End Cli.

(** ** Reading a position *)

Module Position.
Section Floats.
Context {float : Type} (w : @Exif.World float).

(** Degrees, minutes and seconds, each a quotient of two integers, as
    decimal degrees. *)
Definition dms (d1 d2 m1 m2 s1 s2 : Z) : float :=
  Exif.fadd w
    (Exif.fadd w (Exif.int_div w d1 d2)
       (Exif.fdiv w (Exif.int_div w m1 m2) (Exif.f60 w)))
    (Exif.fdiv w (Exif.int_div w s1 s2) (Exif.f3600 w)).

(** The sign a reference letter gives. *)
Definition signed (ref : string) (x : float) : float :=
  if decide (ref = "S") then Exif.fneg w x
  else if decide (ref = "W") then Exif.fneg w x
  else x.

(** Three rationals, as [piexif] gives them. *)
Definition rationals (d1 d2 m1 m2 s1 s2 : Z) : Exif.pyval :=
  Exif.PTuple
    [ Exif.PTuple [Exif.PInt d1; Exif.PInt d2];
      Exif.PTuple [Exif.PInt m1; Exif.PInt m2];
      Exif.PTuple [Exif.PInt s1; Exif.PInt s2] ].

End Floats.
End Position.

(** ** Sample files and services *)

Module Runs.
Import Py.

(** A service that finds nothing. *)
Definition nowhere : GPS.World string :=
  GPS.mkWorld id (fun _ _ _ _ => inr None).

(** Floats as exact rationals, for the samples. *)
Definition lisbon_tags : gmap Z Exif.pyval :=
  {[ 1 := Exif.PBytes "N";
     2 := Position.rationals 38 1 43 1 2000 100;
     3 := Exif.PBytes "W";
     4 := Position.rationals 9 1 8 1 0 1 ]}.

(** [a.jpg] has a full position, [b.jpg] one with an altitude over zero,
    [c.jpg] a latitude without longitude, [d.jpg] EXIF data without
    position, [e.jpg] no EXIF data; nothing else opens. *)
Definition files : @Exif.World Q :=
  {| Exif.open_info := fun p =>
       if decide (p = "a.jpg") then inr (Some "A")
       else if decide (p = "b.jpg") then inr (Some "B")
       else if decide (p = "c.jpg") then inr (Some "C")
       else if decide (p = "d.jpg") then inr (Some "D")
       else if decide (p = "e.jpg") then inr None
       else inl (LibraryError "FileNotFoundError");
     Exif.piexif_load := fun data =>
       if decide (data = "A") then inr {[ "GPS" := lisbon_tags ]}
       else if decide (data = "B")
       then inr {[ "GPS" := <[ 6 := Exif.PTuple [Exif.PInt 120; Exif.PInt 0] ]>
                               lisbon_tags ]}
       else if decide (data = "C")
       then inr {[ "GPS" := delete 4 (delete 3 lisbon_tags) ]}
       else if decide (data = "D") then inr {[ "GPS" := ∅ ]}
       else inl (LibraryError "InvalidImageDataError");
     Exif.decode_other := fun _ => None;
     Exif.int_div := fun a b => (inject_Z a / inject_Z b)%Q;
     Exif.fdiv := Qdiv;
     Exif.fadd := Qplus;
     Exif.fneg := Qopp;
     Exif.f60 := 60%Q;
     Exif.f3600 := 3600%Q |}.

End Runs.

(** ** Reading the trace of [main] *)

Module Report.

(** The lines [main] prints. *)
Definition is_print (ev : Cli.event) : bool :=
  match ev with
  | Cli.EvPrintNotFound _ | Cli.EvPrintDone _ _ | Cli.EvPrintFailed _ _ => true
  | _ => false
  end.

Definition lines (tr : list Cli.event) : list Cli.event :=
  List.filter is_print tr.

(** What the generator did, what was done to find a position, and the
    calls of the embedder. *)
Definition of_generator (ev : Cli.event) : bool :=
  match ev with Cli.Cap _ => true | _ => false end.

Definition of_position (ev : Cli.event) : bool :=
  match ev with Cli.Geo _ | Cli.Exf _ => true | _ => false end.

Definition is_embed (ev : Cli.event) : bool :=
  match ev with Cli.EvEmbed _ _ => true | _ => false end.

(** The lines one image can give rise to. *)
Definition report_for {float} (w : Cli.World float) (args : Cli.Args)
    (path : string) (chunk : list Cli.event) : Prop :=
  Cli.path_exists w path = false
  /\ chunk = [Cli.EvPrintNotFound (Cli.path_str w path)]
  \/ Cli.path_exists w path = true
     /\ ((exists preview,
            chunk = [Cli.EvPrintDone (Cli.path_name w path) preview])
         \/ (exists e, chunk = [Cli.EvPrintFailed (Cli.path_name w path) e])
         \/ Cli.embed args = true
            /\ exists preview e,
                chunk = [Cli.EvPrintDone (Cli.path_name w path) preview;
                         Cli.EvPrintFailed (Cli.path_name w path) e]).

End Report.

(** ** A sample run of the command line *)

Module Desk.
Import Py.

(** The generator's view of the files of [Runs.files]. *)
Definition studio : Caption.World :=
  {| Caption.environ := Caption.environ Sample.world;
     Caption.Image_open := fun p =>
       if decide (p = "a.jpg") then inr Sample.photo
       else if decide (p = "b.jpg") then inr Sample.photo
       else if decide (p = "e.jpg") then inr Sample.scan
       else inl (LibraryError "UnidentifiedImageError");
     Caption.jpeg_base64 := Caption.jpeg_base64 Sample.world;
     Caption.messages_create := Caption.messages_create Sample.world;
     Caption.chat_completions_create :=
       Caption.chat_completions_create Sample.world |}.

Definition coordinate (x : Q) : string :=
  if Qle_bool 0 x then "38.72" else "-9.13".

(** A timeout, then an answer. *)
Definition geocoder : GPS.World Q :=
  GPS.mkWorld coordinate
    (fun n _ _ _ =>
       match n with O => inl GeocoderTimedOut | _ => inr (Some Sample.lisbon) end).

(** A service that refuses the coordinates. *)
Definition refusing : GPS.World Q :=
  GPS.mkWorld coordinate
    (fun _ _ _ _ => inl (ValueError "Must be a coordinate pair or Point"))%string.

(** The class with the two providers, built as [main] builds it. *)
Definition current (prov : string) : exn + Cli.Generator :=
  match Caption.__init__ studio None prov with
  | inl e => inl e
  | inr g => inr (Caption.generate studio g)
  end.


Definition openai : Cli.Generator := Caption.generate studio Sample.openai.

(** A timeout, then a refusal of the coordinates. *)
Definition late : GPS.World Q :=
  GPS.mkWorld coordinate
    (fun n _ _ _ =>
       match n with
       | O => inl GeocoderTimedOut
       | _ => inl (ValueError "Must be a coordinate pair or Point")
       end)%string.

Definition desk_of (class : string -> exn + Cli.Generator)
    (geo : GPS.World Q) : Cli.World Q :=
  {| Cli.make_generator := class;
     Cli.gps_world := geo;
     Cli.exif_world := Runs.files;
     Cli.path_exists := fun p => if decide (p = "gone.jpg") then false else true;
     Cli.path_name := id;
     Cli.path_str := id;
     Cli.embedder_embed := fun p _ =>
       if decide (p = "e.jpg") then inl (LibraryError "PermissionError")
       else inr tt |}.

Definition desk_with (geo : GPS.World Q) : Cli.World Q := desk_of current geo.

Definition desk : Cli.World Q := desk_with geocoder.


Definition args : Cli.Args :=
  Cli.mkArgs ["a.jpg"; "gone.jpg"; "e.jpg"] "openai" None "travel" false true.

(** The same, with [--no-gps] and without [--embed]. *)
Definition quiet : Cli.Args :=
  Cli.mkArgs ["a.jpg"; "gone.jpg"; "e.jpg"] "openai" None "travel" true false.

End Desk.

(** ** Computations that only append *)

Module Traces.

(** A computation that only appends to the trace, whatever it holds. *)
Definition appends {E A} (m : @Eff.M E A) : Prop :=
  forall tr, m tr = (fst (m []), (tr ++ snd (m []))%list).

End Traces.

(** ** Samples for the later attempts and the other denominators *)

Module Edge.
Import Py.

(** A timeout, then a refusal of the coordinates. *)
Definition late : GPS.World string :=
  GPS.mkWorld id
    (fun n _ _ _ =>
       match n with
       | O => inl GeocoderTimedOut
       | _ => inl (ValueError "Must be a coordinate pair or Point")
       end).

(** Nothing found, then a refusal of the coordinates. *)
Definition lost : GPS.World string :=
  GPS.mkWorld id
    (fun n _ _ _ =>
       match n with
       | O => inr None
       | _ => inl (ValueError "Must be a coordinate pair or Point")
       end).

(** [g.jpg]: a longitude whose seconds have a zero denominator. *)
Definition files : @Exif.World Q :=
  {| Exif.open_info := fun p =>
       if decide (p = "g.jpg") then inr (Some "G")
       else inl (LibraryError "FileNotFoundError");
     Exif.piexif_load := fun _ =>
       inr {[ "GPS" := <[ 4 := Position.rationals 9 1 8 1 0 0 ]>
                         Runs.lisbon_tags ]};
     Exif.decode_other := fun _ => None;
     Exif.int_div := fun a b => (inject_Z a / inject_Z b)%Q;
     Exif.fdiv := Qdiv;
     Exif.fadd := Qplus;
     Exif.fneg := Qopp;
     Exif.f60 := 60%Q;
     Exif.f3600 := 3600%Q |}.

End Edge.

(** * Properties *)

Import Py Caption.

(** ** The constructor *)

(** A generator that [__init__] built is bound to one provider, with the
    catalog and the client of that provider. *)
Lemma init_bound w key prov g :
  __init__ w key prov = inr g ->
  (provider g = "claude" /\ models g = CLAUDE_MODELS
   /\ client g = Anthropic (api_key g) /\ lower prov = "claude")
  \/ (provider g = "openai" /\ models g = OPENAI_MODELS
      /\ client g = OpenAI (api_key g) /\ lower prov = "openai").
Proof.
  unfold __init__. intros H.
  destruct (decide (lower prov = "claude")) as [Hc | Hc].
  - left. destruct (or_ key _) as [k |]; [| discriminate].
    destruct (truthy k); [| discriminate].
    injection H as <-. rewrite Hc. auto.
  - destruct (decide (lower prov = "openai")) as [Ho | Ho]; [| discriminate].
    right. destruct (or_ key _) as [k |]; [| discriminate].
    destruct (truthy k); [| discriminate].
    injection H as <-. rewrite Ho. auto.
Qed.

Lemma generate_claude w g path style m loc :
  provider g = "claude" ->
  generate w g path style m loc = _generate_claude w g path style m loc.
Proof. intros H. unfold generate. rewrite H. reflexivity. Qed.

Lemma generate_openai w g path style m loc :
  provider g = "openai" ->
  generate w g path style m loc = _generate_openai w g path style m loc.
Proof. intros H. unfold generate. rewrite H. reflexivity. Qed.

(** ** Model resolution *)

(** C2. An explicit model key that is not in the catalog of the active
    provider makes [generate] raise a [ValueError] whose message names the
    key and the keys of that catalog, whatever the style and the image;
    the trace is left as it was, so no request is sent. *)
Theorem unknown_model_rejected w key prov g path style m loc tr :
  __init__ w key prov = inr g ->
  dict_in m (models g) = false ->
  (provider g = "claude"
   /\ generate w g path style (Some m) loc tr
      = (inl (ValueError ("Invalid Claude model: " +:+ m
                +:+ ". Choose from ['haiku', 'sonnet', 'opus']")), tr)
   \/ provider g = "openai"
      /\ generate w g path style (Some m) loc tr
         = (inl (ValueError ("Invalid OpenAI model: " +:+ m
                   +:+ ". Choose from ['gpt-4o', 'gpt-4o-mini', 'gpt-4-turbo']")), tr))
  /\ Obs.requests (snd (generate w g path style (Some m) loc tr))
     = Obs.requests tr.
Proof.
  intros Hinit Hm.
  destruct (init_bound _ _ _ _ Hinit) as [(Hp & Hmod & _) | (Hp & Hmod & _)];
    rewrite Hmod in Hm.
  - assert (generate w g path style (Some m) loc tr
            = (inl (ValueError ("Invalid Claude model: " +:+ m
                +:+ ". Choose from ['haiku', 'sonnet', 'opus']")), tr)) as E.
    { rewrite generate_claude by assumption. unfold _generate_claude.
      rewrite Hm. reflexivity. }
    split; [left; auto | rewrite E; reflexivity].
  - assert (generate w g path style (Some m) loc tr
            = (inl (ValueError ("Invalid OpenAI model: " +:+ m
                +:+ ". Choose from ['gpt-4o', 'gpt-4o-mini', 'gpt-4-turbo']")), tr)) as E.
    { rewrite generate_openai by assumption. unfold _generate_openai.
      rewrite Hm. reflexivity. }
    split; [right; auto | rewrite E; reflexivity].
Qed.

(** ** A call that reaches the remote API *)

Lemma prepare_image_run w g path img tr :
  Image_open w path = inr img ->
  _prepare_image w g path tr
  = (inr (jpeg_base64 w (Obs.saved img)),
     (tr ++ [EvImageOpen path; EvImageSave (Obs.saved img) "JPEG" 85])%list).
Proof.
  intros Himg. unfold _prepare_image, Eff.bind, Eff.call. rewrite Himg.
  unfold Obs.saved. rewrite <- app_assoc. reflexivity.
Qed.

Lemma prepare_image_fails w g path e tr :
  Image_open w path = inl e ->
  _prepare_image w g path tr = (inl e, (tr ++ [EvImageOpen path])%list).
Proof.
  intros Himg. unfold _prepare_image, Eff.bind, Eff.call. rewrite Himg.
  reflexivity.
Qed.

Lemma generate_claude_run w g path style k info loc img tr :
  client g = Anthropic (api_key g) ->
  dict_get CLAUDE_MODELS k = Some info ->
  Image_open w path = inr img ->
  _generate_claude w g path style (Some k) loc tr
  = (match messages_create w (api_key g)
             (Obs.claude_request w (name info) img style loc) with
     | inl e => inl e
     | inr r => first_text_stripped r
     end,
     (tr ++ [EvImageOpen path; EvImageSave (Obs.saved img) "JPEG" 85;
             EvMessagesCreate
               (Obs.claude_request w (name info) img style loc)])%list).
Proof.
  intros Hc Hk Himg. unfold _generate_claude, dict_in. rewrite Hk. cbn [negb].
  unfold Eff.bind at 1. rewrite (prepare_image_run _ _ _ _ _ Himg).
  unfold model_name. rewrite Hk. unfold Eff.bind at 1, Eff.ret.
  rewrite Hc. unfold client_messages_create, Eff.bind, Eff.call, Eff.lift.
  fold (Obs.composed style loc). fold (Obs.claude_request w (name info) img style loc).
  rewrite <- app_assoc.
  destruct (messages_create _ _ _); reflexivity.
Qed.

Lemma generate_openai_run w g path style k info loc img tr :
  client g = OpenAI (api_key g) ->
  dict_get OPENAI_MODELS k = Some info ->
  Image_open w path = inr img ->
  _generate_openai w g path style (Some k) loc tr
  = (match chat_completions_create w (api_key g)
             (Obs.openai_request w (name info) img style loc) with
     | inl e => inl e
     | inr r => first_text_stripped r
     end,
     (tr ++ [EvImageOpen path; EvImageSave (Obs.saved img) "JPEG" 85;
             EvChatCompletionsCreate
               (Obs.openai_request w (name info) img style loc)])%list).
Proof.
  intros Hc Hk Himg. unfold _generate_openai, dict_in. rewrite Hk. cbn [negb].
  unfold Eff.bind at 1. rewrite (prepare_image_run _ _ _ _ _ Himg).
  unfold model_name. rewrite Hk. unfold Eff.bind at 1, Eff.ret.
  rewrite Hc. unfold client_chat_completions_create, Eff.bind, Eff.call, Eff.lift.
  fold (Obs.composed style loc). fold (Obs.openai_request w (name info) img style loc).
  rewrite <- app_assoc.
  destruct (chat_completions_create _ _ _); reflexivity.
Qed.

Lemma dict_in_get {V} k (d : dict V) :
  dict_in k d = true -> exists v, dict_get d k = Some v.
Proof. unfold dict_in. destruct (dict_get d k); [eauto | discriminate]. Qed.

Lemma claude_default_key w g path style loc :
  _generate_claude w g path style None loc
  = _generate_claude w g path style
      (Some (if decide (style = "social") then "opus" else "haiku")) loc.
Proof. reflexivity. Qed.

Lemma openai_default_key w g path style loc :
  _generate_openai w g path style None loc
  = _generate_openai w g path style
      (Some (if decide (style = "social") then "gpt-4o" else "gpt-4o-mini")) loc.
Proof. reflexivity. Qed.

(** With a usable model key and an image that decodes, [generate] opens
    the image, saves it, sends one request and returns what it reads in
    the answer. *)
Lemma generate_reaches_api w key prov g path style m loc img tr :
  __init__ w key prov = inr g ->
  Obs.usable_model g m ->
  Image_open w path = inr img ->
  exists ev req outcome,
    generate w g path style m loc tr
    = (match outcome with inl e => inl e | inr r => first_text_stripped r end,
       (tr ++ [EvImageOpen path; EvImageSave (Obs.saved img) "JPEG" 85; ev])%list)
    /\ request_of ev = Some req
    /\ max_tokens req = 300
    /\ Obs.prompts req = [Obs.composed style loc]
    /\ (provider g = "claude" /\ ev = EvMessagesCreate req
        /\ outcome = messages_create w (api_key g) req
        \/ provider g = "openai" /\ ev = EvChatCompletionsCreate req
           /\ outcome = chat_completions_create w (api_key g) req).
Proof.
  intros Hinit Hm Himg.
  destruct (init_bound _ _ _ _ Hinit)
    as [(Hp & Hmod & Hcl & _) | (Hp & Hmod & Hcl & _)].
  - rewrite generate_claude by exact Hp.
    assert (exists k info, dict_get CLAUDE_MODELS k = Some info
              /\ _generate_claude w g path style m loc
                 = _generate_claude w g path style (Some k) loc)
      as (k & info & Hk & ->).
    { destruct m as [k |].
      - cbn in Hm. rewrite Hmod in Hm.
        destruct (dict_in_get _ _ Hm) as [info Hk]. eauto.
      - rewrite claude_default_key.
        destruct (decide (style = "social")); [exists "opus" | exists "haiku"];
          eexists; split; reflexivity. }
    rewrite (generate_claude_run _ _ _ _ _ _ _ _ _ Hcl Hk Himg).
    eexists _, _, _. split; [reflexivity |].
    repeat split. left. auto.
  - rewrite generate_openai by exact Hp.
    assert (exists k info, dict_get OPENAI_MODELS k = Some info
              /\ _generate_openai w g path style m loc
                 = _generate_openai w g path style (Some k) loc)
      as (k & info & Hk & ->).
    { destruct m as [k |].
      - cbn in Hm. rewrite Hmod in Hm.
        destruct (dict_in_get _ _ Hm) as [info Hk]. eauto.
      - rewrite openai_default_key.
        destruct (decide (style = "social"));
          [exists "gpt-4o" | exists "gpt-4o-mini"];
          eexists; split; reflexivity. }
    rewrite (generate_openai_run _ _ _ _ _ _ _ _ _ Hcl Hk Himg).
    eexists _, _, _. split; [reflexivity |].
    repeat split. right. auto.
Qed.

Example sample_claude : __init__ Sample.world (Some "sk-ant") "Claude" = inr Sample.claude.
Proof. reflexivity. Qed.

Example sample_openai : __init__ Sample.world None "OPENAI" = inr Sample.openai.
Proof. reflexivity. Qed.

Example sample_run :
  generate Sample.world Sample.claude "photo.jpg" "social" None None []
  = (inr "A harbour at dusk, by claude-opus-4-5-20251101.",
     [EvImageOpen "photo.jpg";
      EvImageSave (PIL.mkImage "RGB" 1600 1200) "JPEG" 85;
      EvMessagesCreate
        (mkRequest "claude-opus-4-5-20251101" 300
           [mkMessage "user"
              [ImageBlock "base64" "image/jpeg" "L2o=";
               TextBlock social_text]])]).
Proof. vm_compute. reflexivity. Qed.

Lemma unknown_model_rejected_witness :
  __init__ Sample.world None "OPENAI" = inr Sample.openai
  /\ dict_in "opus" (models Sample.openai) = false
  /\ Obs.requests
       (snd (generate Sample.world Sample.openai "photo.jpg" "travel"
               (Some "opus") None []))
     = Obs.requests [].
Proof.
  split; [reflexivity |]. split; [reflexivity |].
  apply (unknown_model_rejected Sample.world None "OPENAI" Sample.openai
           "photo.jpg" "travel" "opus" None []); reflexivity.
Defined.

(** ** Prompt composition *)

Lemma requests_after_run tr path img ev req :
  request_of ev = Some req ->
  Obs.requests (tr ++ [EvImageOpen path; EvImageSave img "JPEG" 85; ev])
  = (Obs.requests tr ++ [req])%list.
Proof.
  intros H. unfold Obs.requests. rewrite omap_app. cbn. rewrite H. reflexivity.
Qed.

Lemma descriptive_default : STYLES !!! "descriptive" = descriptive_text.
Proof. reflexivity. Qed.

(** C3. For a style of the table, the request [generate] sends carries as
    its only text the template of that style when there is no location
    sentence (or an empty one), and the template, a blank line and the
    sentence when there is one; this holds for the generators of both
    providers. *)
Theorem prompt_is_template_then_location
    w key prov g path style template m loc img tr :
  __init__ w key prov = inr g ->
  Obs.usable_model g m ->
  Image_open w path = inr img ->
  STYLES !! style = Some template ->
  exists req,
    Obs.requests (snd (generate w g path style m loc tr))
    = (Obs.requests tr ++ [req])%list
    /\ (loc = None -> Obs.prompts req = [template])
    /\ (loc = Some EmptyString -> Obs.prompts req = [template])
    /\ (forall l, loc = Some l -> l <> EmptyString ->
        Obs.prompts req = [template +:+ nl +:+ nl +:+ l]).
Proof.
  intros Hinit Hm Himg Hs.
  destruct (generate_reaches_api w key prov g path style m loc img tr Hinit Hm Himg)
    as (ev & req & outcome & E & Hev & _ & Hp & _).
  exists req. rewrite E. cbn [snd].
  split; [apply requests_after_run, Hev |].
  rewrite Hp. unfold Obs.composed. rewrite Hs. cbn [default].
  repeat split.
  - intros ->. reflexivity.
  - intros ->. reflexivity.
  - intros l -> Hl. destruct l; [contradiction | reflexivity].
Qed.

Lemma prompt_is_template_then_location_witness :
  __init__ Sample.world None "OPENAI" = inr Sample.openai
  /\ STYLES !! "minimal" = Some "Write a brief one-sentence caption."
  /\ exists req,
      Obs.requests
        (snd (generate Sample.world Sample.openai "scan.png" "minimal"
                (Some "gpt-4-turbo") (Some "Location: Lisbon, Portugal") []))
      = [req]
      /\ Obs.prompts req
         = ["Write a brief one-sentence caption." +:+ nl +:+ nl
            +:+ "Location: Lisbon, Portugal"].
Proof.
  split; [reflexivity |]. split; [reflexivity |].
  destruct (prompt_is_template_then_location Sample.world None "OPENAI"
              Sample.openai "scan.png" "minimal"
              "Write a brief one-sentence caption." (Some "gpt-4-turbo")
              (Some "Location: Lisbon, Portugal") Sample.scan [])
    as (req & Hr & _ & _ & Hl); try reflexivity.
  exists req. split; [exact Hr |].
  apply (Hl "Location: Lisbon, Portugal"); [reflexivity | discriminate].
Defined.

(** C4. For a style that is not in the table, [generate] behaves as for
    the style ['descriptive']: the lookup raises nothing, and the request
    sent carries the ['descriptive'] template (followed by the location
    sentence, if any), for the generators of both providers. *)
Theorem unknown_style_is_descriptive w key prov g path style m loc tr :
  __init__ w key prov = inr g ->
  STYLES !! style = None ->
  generate w g path style m loc tr = generate w g path "descriptive" m loc tr
  /\ Obs.composed style None = descriptive_text
  /\ (forall img, Obs.usable_model g m -> Image_open w path = inr img ->
      exists req,
        Obs.requests (snd (generate w g path style m loc tr))
        = (Obs.requests tr ++ [req])%list
        /\ Obs.prompts req
           = [match loc with
              | Some l => if truthy l then descriptive_text +:+ nl +:+ nl +:+ l
                          else descriptive_text
              | None => descriptive_text
              end]).
Proof.
  intros Hinit Hs.
  assert (style <> "social") as Hns.
  { intros ->. discriminate Hs. }
  assert (forall l, Obs.composed style l = Obs.composed "descriptive" l) as Hc.
  { intros l. unfold Obs.composed. rewrite Hs. reflexivity. }
  split; [| split].
  - destruct (init_bound _ _ _ _ Hinit) as [(Hp & _) | (Hp & _)].
    + rewrite !generate_claude by exact Hp. unfold _generate_claude.
      destruct (decide (style = "social")); [contradiction |].
      destruct (decide ("descriptive" = "social")); [discriminate |].
      rewrite Hs. reflexivity.
    + rewrite !generate_openai by exact Hp. unfold _generate_openai.
      destruct (decide (style = "social")); [contradiction |].
      destruct (decide ("descriptive" = "social")); [discriminate |].
      rewrite Hs. reflexivity.
  - rewrite Hc. reflexivity.
  - intros img Hm Himg.
    destruct (generate_reaches_api w key prov g path style m loc img tr
                Hinit Hm Himg)
      as (ev & req & outcome & E & Hev & _ & Hp & _).
    exists req. rewrite E. cbn [snd].
    split; [apply requests_after_run, Hev | rewrite Hp, Hc; reflexivity].
Qed.

Lemma unknown_style_is_descriptive_witness :
  __init__ Sample.world (Some "sk-ant") "Claude" = inr Sample.claude
  /\ STYLES !! "noir" = None
  /\ generate Sample.world Sample.claude "photo.jpg" "noir" None None []
     = generate Sample.world Sample.claude "photo.jpg" "descriptive" None None [].
Proof.
  split; [reflexivity |]. split; [reflexivity |].
  apply (unknown_style_is_descriptive Sample.world (Some "sk-ant") "Claude"
           Sample.claude "photo.jpg" "noir" None None []); reflexivity.
Defined.

(** ** Order of validation and image preparation *)

Lemma generate_resolved w key prov g path style m loc :
  __init__ w key prov = inr g ->
  Obs.usable_model g m ->
  exists k info,
    provider g = "claude" /\ dict_get CLAUDE_MODELS k = Some info
    /\ generate w g path style m loc
       = _generate_claude w g path style (Some k) loc
    \/ provider g = "openai" /\ dict_get OPENAI_MODELS k = Some info
       /\ generate w g path style m loc
          = _generate_openai w g path style (Some k) loc.
Proof.
  intros Hinit Hm.
  destruct (init_bound _ _ _ _ Hinit) as [(Hp & Hmod & _) | (Hp & Hmod & _)].
  - rewrite generate_claude by exact Hp. destruct m as [k |].
    + cbn in Hm. rewrite Hmod in Hm. destruct (dict_in_get _ _ Hm) as [info Hk].
      exists k, info. left. auto.
    + rewrite claude_default_key.
      destruct (decide (style = "social")); [exists "opus" | exists "haiku"];
        eexists; left; repeat split; reflexivity || exact Hp.
  - rewrite generate_openai by exact Hp. destruct m as [k |].
    + cbn in Hm. rewrite Hmod in Hm. destruct (dict_in_get _ _ Hm) as [info Hk].
      exists k, info. right. auto.
    + rewrite openai_default_key.
      destruct (decide (style = "social"));
        [exists "gpt-4o" | exists "gpt-4o-mini"];
        eexists; right; repeat split; reflexivity || exact Hp.
Qed.

(** An image that does not decode stops a call with a usable model key
    right after the attempt to open it. *)
Lemma generate_image_fails w key prov g path style m loc e tr :
  __init__ w key prov = inr g ->
  Obs.usable_model g m ->
  Image_open w path = inl e ->
  generate w g path style m loc tr = (inl e, (tr ++ [EvImageOpen path])%list).
Proof.
  intros Hinit Hm Himg.
  destruct (generate_resolved w key prov g path style m loc Hinit Hm)
    as (k & info & [(_ & Hk & ->) | (_ & Hk & ->)]).
  - unfold _generate_claude, dict_in. rewrite Hk. cbn [negb].
    unfold Eff.bind at 1. rewrite (prepare_image_fails _ _ _ _ _ Himg).
    reflexivity.
  - unfold _generate_openai, dict_in. rewrite Hk. cbn [negb].
    unfold Eff.bind at 1. rewrite (prepare_image_fails _ _ _ _ _ Himg).
    reflexivity.
Qed.

(** C5, as the specification states it, fails: a claude generator given
    the key ['gpt-4o'] raises the [ValueError] of the catalog check with an
    empty trace, the image was never opened; and with a file that does not
    decode, the error is still that of the catalog check. *)
Lemma validation_after_preparation_counterexample :
  dict_in "gpt-4o" (models Sample.claude) = false
  /\ generate Sample.world Sample.claude "photo.jpg" "descriptive"
       (Some "gpt-4o") None []
     = (inl (ValueError
          "Invalid Claude model: gpt-4o. Choose from ['haiku', 'sonnet', 'opus']"),
        [])
  /\ ~ (exists ev,
          In ev (snd (generate Sample.world Sample.claude "photo.jpg"
                        "descriptive" (Some "gpt-4o") None []))
          /\ is_image_event ev = true)
  /\ Image_open Sample.world "missing.jpg" = inl (LibraryError "FileNotFoundError")
  /\ fst (generate Sample.world Sample.claude "missing.jpg" "descriptive"
            (Some "gpt-4o") None [])
     <> inl (LibraryError "FileNotFoundError").
Proof.
  split; [reflexivity |]. split; [reflexivity |]. split; [| split].
  - intros (ev & Hin & _). exact Hin.
  - reflexivity.
  - discriminate.
Qed.

(** C5, amended. The catalog check comes first: an explicit key that is
    not in the catalog stops the call before the image is opened (the
    trace is left as it was, whether or not the file decodes), and with a
    usable key the first thing a call does is to open the image. *)
Theorem validation_precedes_preparation w key prov g path style loc tr :
  __init__ w key prov = inr g ->
  (forall m, dict_in m (models g) = false ->
     exists msg,
       generate w g path style (Some m) loc tr = (inl (ValueError msg), tr))
  /\ (forall m, Obs.usable_model g m ->
        exists r tr',
          generate w g path style m loc tr
          = (r, (tr ++ EvImageOpen path :: tr')%list)).
Proof.
  intros Hinit. split.
  - intros m Hm.
    destruct (init_bound _ _ _ _ Hinit) as [(Hp & Hmod & _) | (Hp & Hmod & _)];
      rewrite Hmod in Hm.
    + rewrite generate_claude by exact Hp. unfold _generate_claude.
      rewrite Hm. eexists. reflexivity.
    + rewrite generate_openai by exact Hp. unfold _generate_openai.
      rewrite Hm. eexists. reflexivity.
  - intros m Hm. destruct (Image_open w path) as [e | img] eqn:Himg.
    + rewrite (generate_image_fails w key prov g path style m loc e tr
                 Hinit Hm Himg).
      eexists _, []. reflexivity.
    + destruct (generate_reaches_api w key prov g path style m loc img tr
                  Hinit Hm Himg) as (ev & req & outcome & E & _).
      rewrite E. eexists _, _. reflexivity.
Qed.

Lemma validation_precedes_preparation_witness :
  __init__ Sample.world (Some "sk-ant") "Claude" = inr Sample.claude
  /\ (forall m, dict_in m (models Sample.claude) = false ->
        exists msg,
          generate Sample.world Sample.claude "missing.jpg" "travel"
            (Some m) None []
          = (inl (ValueError msg), []))
  /\ (forall m, Obs.usable_model Sample.claude m ->
        exists r tr',
          generate Sample.world Sample.claude "missing.jpg" "travel" m None []
          = (r, ([] ++ EvImageOpen "missing.jpg" :: tr')%list)).
Proof.
  split; [reflexivity |].
  apply (validation_precedes_preparation Sample.world (Some "sk-ant") "Claude"
           Sample.claude "missing.jpg" "travel" None []).
  reflexivity.
Defined.

(** ** Trimming *)

Lemma lstrip_split s :
  exists pre, s = pre +:+ lstrip s /\ Obs.blank pre = true.
Proof.
  induction s as [| c s IH]; cbn [lstrip].
  - exists EmptyString. auto.
  - destruct (isspace c) eqn:Hc.
    + destruct IH as (pre & E & Hpre). exists (String c pre). split.
      * change (String c s = String c (pre +:+ lstrip s)). f_equal. exact E.
      * cbn. rewrite Hc. exact Hpre.
    + exists EmptyString. auto.
Qed.

Lemma lstrip_first s c :
  Obs.first_char (lstrip s) = Some c -> isspace c = false.
Proof.
  induction s as [| a s IH]; cbn [lstrip]; [discriminate |].
  destruct (isspace a) eqn:Ha; [exact IH |].
  cbn. intros [= <-]. exact Ha.
Qed.

Lemma rstrip_split s :
  exists post, s = rstrip s +:+ post /\ Obs.blank post = true.
Proof.
  induction s as [| c s IH]; cbn [rstrip].
  - exists EmptyString. auto.
  - destruct IH as (post & E & Hpost). destruct (rstrip s) as [| d r].
    + change (s = post) in E. subst post. destruct (isspace c) eqn:Hc.
      * exists (String c s). cbn. rewrite Hc. auto.
      * exists s. auto.
    + exists post. split; [| exact Hpost].
      change (String c s = String c (String d r +:+ post)). f_equal. exact E.
Qed.

Lemma rstrip_last s c :
  Obs.last_char (rstrip s) = Some c -> isspace c = false.
Proof.
  induction s as [| a s IH]; cbn [rstrip]; [discriminate |].
  destruct (rstrip s) as [| d r].
  - destruct (isspace a) eqn:Ha; [discriminate |].
    cbn. intros [= <-]. exact Ha.
  - exact IH.
Qed.

Lemma rstrip_first s c :
  Obs.first_char (rstrip s) = Some c -> Obs.first_char s = Some c.
Proof.
  destruct s as [| a s]; cbn [rstrip]; [discriminate |].
  destruct (rstrip s); [destruct (isspace a); [discriminate |] |]; exact id.
Qed.

(** [strip] removes the whitespace around a string, and nothing else. *)
Lemma strip_trimmed s : Obs.trimmed_of s (strip s).
Proof.
  unfold Obs.trimmed_of, strip.
  destruct (lstrip_split s) as (pre & E1 & Hpre).
  destruct (rstrip_split (lstrip s)) as (post & E2 & Hpost).
  split; [| split].
  - exists pre, post. rewrite <- E2. auto.
  - intros c Hc. apply (lstrip_first s), rstrip_first, Hc.
  - intros c. apply rstrip_last.
Qed.

(** ** Request and response *)

(** C9. On both provider paths a call that gets as far as the remote API
    sends exactly one request, the request carries [max_tokens = 300], and
    when the answer has a text in first position the call returns that
    text with the whitespace around it removed: the first content block
    for claude, the content of the first choice for openai. *)
Theorem one_request_trimmed_text w key prov g path style m loc img tr :
  __init__ w key prov = inr g ->
  Obs.usable_model g m ->
  Image_open w path = inr img ->
  exists req,
    Obs.requests (snd (generate w g path style m loc tr))
    = (Obs.requests tr ++ [req])%list
    /\ max_tokens req = 300
    /\ (provider g = "claude" \/ provider g = "openai")
    /\ (provider g = "claude" -> forall text rest,
        messages_create w (api_key g) req = inr (Some text :: rest) ->
        fst (generate w g path style m loc tr) = inr (strip text)
        /\ Obs.trimmed_of text (strip text))
    /\ (provider g = "openai" -> forall text rest,
        chat_completions_create w (api_key g) req = inr (Some text :: rest) ->
        fst (generate w g path style m loc tr) = inr (strip text)
        /\ Obs.trimmed_of text (strip text)).
Proof.
  intros Hinit Hm Himg.
  destruct (generate_reaches_api w key prov g path style m loc img tr
              Hinit Hm Himg)
    as (ev & req & outcome & E & Hev & Hmax & _ & Hprov).
  exists req. rewrite E. cbn [fst snd].
  split; [apply requests_after_run, Hev |]. split; [exact Hmax |].
  destruct Hprov as [(Hp & _ & ->) | (Hp & _ & ->)].
  - split; [auto |]. split.
    + intros _ text rest ->. split; [reflexivity | apply strip_trimmed].
    + intros Hp'. rewrite Hp in Hp'. discriminate.
  - split; [auto |]. split.
    + intros Hp'. rewrite Hp in Hp'. discriminate.
    + intros _ text rest ->. split; [reflexivity | apply strip_trimmed].
Qed.

Lemma one_request_trimmed_text_witness :
  __init__ Sample.world None "OPENAI" = inr Sample.openai
  /\ Image_open Sample.world "scan.png" = inr Sample.scan
  /\ exists req,
      Obs.requests
        (snd (generate Sample.world Sample.openai "scan.png" "artistic" None
                None []))
      = [req]
      /\ max_tokens req = 300
      /\ fst (generate Sample.world Sample.openai "scan.png" "artistic" None
                None [])
         = inr "A harbour at dusk, by gpt-4o-mini.".
Proof.
  split; [reflexivity |]. split; [reflexivity |].
  destruct (one_request_trimmed_text Sample.world None "OPENAI" Sample.openai
              "scan.png" "artistic" None None Sample.scan [])
    as (req & Hr & Hmax & _ & _ & Ho); [reflexivity | exact I | reflexivity |].
  exists req. split; [exact Hr |]. split; [exact Hmax |].
  assert (req = Obs.openai_request Sample.world "gpt-4o-mini" Sample.scan
                  "artistic" None) as ->.
  { vm_compute in Hr. injection Hr as <-. reflexivity. }
  destruct (Ho eq_refl
              (nl +:+ "A harbour at dusk, by gpt-4o-mini. ") [] eq_refl)
    as [-> _].
  reflexivity.
Defined.

(** ** Provider names *)

(** C10. The constructor compares the lowercased provider name: with a
    credential at hand, every name that lowercases to ['claude'] (resp.
    ['openai']) yields a generator bound to that provider, its catalog and
    its client; and the invalid-provider error is raised exactly for the
    names that lowercase to neither. *)
Theorem provider_name_case_insensitive w key prov :
  (lower prov = "claude" -> forall k,
     or_ key (environ w !! "ANTHROPIC_API_KEY") = Some k -> truthy k = true ->
     __init__ w key prov
     = inr (mkGenerator "claude" k (Anthropic k) CLAUDE_MODELS))
  /\ (lower prov = "openai" -> forall k,
        or_ key (environ w !! "OPENAI_API_KEY") = Some k -> truthy k = true ->
        __init__ w key prov
        = inr (mkGenerator "openai" k (OpenAI k) OPENAI_MODELS))
  /\ (__init__ w key prov
      = inl (ValueError ("Invalid provider: " +:+ prov
                         +:+ ". Must be 'claude' or 'openai'"))
      <-> lower prov <> "claude" /\ lower prov <> "openai").
Proof.
  unfold __init__. split; [| split].
  - intros -> k -> ->. reflexivity.
  - intros -> k -> ->. reflexivity.
  - destruct (decide (lower prov = "claude")) as [Hc | Hc].
    + split; [| intros [? _]; contradiction].
      destruct (or_ key _) as [k |]; [destruct (truthy k) |]; discriminate.
    + destruct (decide (lower prov = "openai")) as [Ho | Ho].
      * split; [| intros [_ ?]; contradiction].
        destruct (or_ key _) as [k |]; [destruct (truthy k) |]; discriminate.
      * split; auto.
Qed.

Lemma provider_name_case_insensitive_witness :
  lower "OPENAI" = "openai"
  /\ or_ None (environ Sample.world !! "OPENAI_API_KEY") = Some "sk-env"
  /\ __init__ Sample.world None "OPENAI"
     = inr (mkGenerator "openai" "sk-env" (OpenAI "sk-env") OPENAI_MODELS).
Proof.
  split; [reflexivity |]. split; [reflexivity |].
  apply (proj1 (proj2 (provider_name_case_insensitive Sample.world None "OPENAI")));
    reflexivity.
Defined.

Example provider_variants :
  lower "Claude" = "claude" /\ lower "cLaUdE" = "claude"
  /\ lower "OpenAI" = "openai" /\ lower "gemini" = "gemini"
  /\ __init__ Sample.world (Some "k") "Gemini"
     = inl (ValueError "Invalid provider: Gemini. Must be 'claude' or 'openai'").
Proof. repeat split. Qed.

(** ** Image preparation *)

Section Rounding.
Local Open Scope Q_scope.

Lemma inject_Z_succ z : inject_Z (z + 1) == inject_Z z + 1.
Proof. rewrite inject_Z_plus. reflexivity. Qed.

Lemma inject_Z_pred z : inject_Z (z - 1) == inject_Z z - 1.
Proof. unfold Z.sub. rewrite inject_Z_plus. reflexivity. Qed.

Lemma Z_lt_of_Q (x y : Z) (a b : Q) :
a == inject_Z x -> b == inject_Z y -> a < b -> (x < y)%Z.
Proof. intros Ha Hb H. rewrite Zlt_Qlt, <- Ha, <- Hb. exact H. Qed.

Lemma Z_le_of_Q (x y : Z) (a b : Q) :
a == inject_Z x -> b == inject_Z y -> a <= b -> (x <= y)%Z.
Proof. intros Ha Hb H. rewrite Zle_Qle, <- Ha, <- Hb. exact H. Qed.

Lemma floor_ceiling_near q :
0 < q ->
(0 <= Qfloor q)%Z /\ (1 <= Qceiling q)%Z
/\ inject_Z (Qfloor q) <= q /\ q < inject_Z (Qfloor q) + 1
/\ inject_Z (Qceiling q) - 1 < q /\ q <= inject_Z (Qceiling q).
Proof.
intros Hq.
pose proof (Qfloor_le q) as Hlo. pose proof (Qlt_floor q) as Hlo'.
pose proof (Qle_ceiling q) as Hhi. pose proof (Qceiling_lt q) as Hhi'.
rewrite inject_Z_succ in Hlo'. rewrite inject_Z_pred in Hhi'.
repeat split; try assumption.
- apply Z.lt_succ_r.
  apply (Z_lt_of_Q _ _ 0 (inject_Z (Qfloor q) + 1));
    [reflexivity | symmetry; apply inject_Z_succ |].
  generalize dependent (inject_Z (Qfloor q)). intros. lra.
- apply (Z.lt_pred_le 1).
  apply (Z_lt_of_Q _ _ 0 (inject_Z (Qceiling q))); [reflexivity | reflexivity |].
  generalize dependent (inject_Z (Qceiling q)). intros. lra.
Qed.

Lemma round_aspect_near q key :
0 < q ->
let r := PIL.round_aspect q key in
(1 <= r)%Z /\ inject_Z r - 1 < q /\ q < inject_Z r + 1
/\ (forall B : Z, q <= inject_Z B -> (r <= B)%Z).
Proof.
intros Hq r.
destruct (floor_ceiling_near q Hq) as (Hlo0 & Hhi1 & Hlo & Hlo' & Hhi' & Hhi).
assert (forall B : Z, q <= inject_Z B -> (Qceiling q <= B)%Z) as HB.
{ intros B HqB. apply Z.lt_pred_le.
  apply (Z_lt_of_Q _ _ (inject_Z (Qceiling q) - 1) (inject_Z B));
    [symmetry; apply inject_Z_pred | reflexivity |].
  generalize dependent (inject_Z (Qceiling q)). generalize dependent (inject_Z B).
  intros. lra. }
assert (Qfloor q <= Qceiling q)%Z as Hle.
{ apply (Z_le_of_Q _ _ (inject_Z (Qfloor q)) (inject_Z (Qceiling q)));
    [reflexivity | reflexivity |].
  generalize dependent (inject_Z (Qceiling q)).
  generalize dependent (inject_Z (Qfloor q)). intros. lra. }
assert (r = Qceiling q \/ r = Qfloor q /\ (1 <= Qfloor q)%Z
        \/ r = 1%Z /\ Qfloor q = 0%Z) as Hr.
{ unfold r, PIL.round_aspect. destruct (Qle_bool _ _); lia. }
destruct Hr as [-> | [[-> H1] | [-> H0]]].
- repeat split; [lia | lra | lra | exact HB].
- repeat split; [lia | lra | lra |]. intros B HqB. specialize (HB B HqB). lia.
- rewrite H0 in Hlo'. change (inject_Z 0) with 0 in Hlo'. change (inject_Z 1) with 1.
  repeat split; [lia | lra | lra |]. intros B HqB. specialize (HB B HqB). lia.
Qed.

Lemma Q_of_Z_lt (x y : Z) : (x < y)%Z -> inject_Z x < inject_Z y.
Proof. rewrite <- Zlt_Qlt. exact id. Qed.

Lemma Q_of_Z_le (x y : Z) : (x <= y)%Z -> inject_Z x <= inject_Z y.
Proof. rewrite <- Zle_Qle. exact id. Qed.

Lemma scaled_near (r n d : Z) (q : Q) :
q * inject_Z d == 1600 * inject_Z n -> 0 < inject_Z d ->
inject_Z r - 1 < q -> q < inject_Z r + 1 ->
((r - 1) * d < 1600 * n < (r + 1) * d)%Z.
Proof.
intros E Hd H1 H2. split.
- apply (Z_lt_of_Q _ _ ((inject_Z r - 1) * inject_Z d) (1600 * inject_Z n)).
  + rewrite inject_Z_mult, inject_Z_pred. reflexivity.
  + rewrite inject_Z_mult. reflexivity.
  + generalize dependent (inject_Z r). generalize dependent (inject_Z d).
    generalize dependent (inject_Z n). intros. nra.
- apply (Z_lt_of_Q _ _ (1600 * inject_Z n) ((inject_Z r + 1) * inject_Z d)).
  + rewrite inject_Z_mult. reflexivity.
  + rewrite inject_Z_mult, inject_Z_succ. reflexivity.
  + generalize dependent (inject_Z r). generalize dependent (inject_Z d).
    generalize dependent (inject_Z n). intros. nra.
Qed.

Lemma round_scaled (n d : Z) (q : Q) key :
(0 < n)%Z -> (0 < d)%Z -> (n <= d)%Z -> (1600 < d)%Z ->
q * inject_Z d == 1600 * inject_Z n ->
let r := PIL.round_aspect q key in
(1 <= r <= n)%Z /\ (r <= 1600)%Z
/\ ((r - 1) * d < 1600 * n < (r + 1) * d)%Z.
Proof.
intros Hn Hd Hnd Hbig E r.
pose proof (Q_of_Z_lt _ _ Hn) as Hn'. pose proof (Q_of_Z_lt _ _ Hd) as Hd'.
pose proof (Q_of_Z_le _ _ Hnd) as Hnd'. pose proof (Q_of_Z_lt _ _ Hbig) as Hbig'.
change (inject_Z 0) with 0 in Hn', Hd'. change (inject_Z 1600) with 1600 in Hbig'.
assert (0 < q) as Hq.
{ generalize dependent (inject_Z n). generalize dependent (inject_Z d).
  intros. nra. }
destruct (round_aspect_near q key Hq) as (H1 & Hlo & Hhi & HB).
fold r in H1, Hlo, Hhi, HB.
split; [split; [exact H1 |] | split].
- apply HB. generalize dependent (inject_Z n). generalize dependent (inject_Z d).
  intros. nra.
- apply HB. change (inject_Z 1600) with 1600.
  generalize dependent (inject_Z n). generalize dependent (inject_Z d).
  intros. nra.
- apply (scaled_near r n d q E Hd' Hlo Hhi).
Qed.

Lemma unit_ratio : inject_Z 1600 / inject_Z 1600 == 1.
Proof. reflexivity. Qed.

Lemma thumbnail_1600 img :
(0 < PIL.width img)%Z -> (0 < PIL.height img)%Z ->
let out := PIL.thumbnail img (1600, 1600)%Z in
let w := PIL.width img in let h := PIL.height img in
let w' := PIL.width out in let h' := PIL.height out in
PIL.mode out = PIL.mode img
/\ (1 <= w' <= w)%Z /\ (1 <= h' <= h)%Z /\ (w' <= 1600)%Z /\ (h' <= 1600)%Z
/\ ((w <= 1600)%Z -> (h <= 1600)%Z -> w' = w /\ h' = h)
/\ ((1600 < w)%Z \/ (1600 < h)%Z ->
    ((h <= w)%Z ->
     w' = 1600%Z /\ ((h' - 1) * w < 1600 * h < (h' + 1) * w)%Z)
    /\ ((w <= h)%Z ->
        h' = 1600%Z /\ ((w' - 1) * h < 1600 * w < (w' + 1) * h)%Z)).
Proof.
destruct img as [md w h]. cbn [PIL.width PIL.height]. intros Hw Hh.
unfold PIL.thumbnail, PIL.preserve_aspect_ratio. cbn [PIL.width PIL.height PIL.mode].
destruct ((w <=? 1600)%Z && (h <=? 1600)%Z) eqn:Hfit.
- apply andb_true_iff in Hfit. destruct Hfit as [Hw' Hh'].
  apply Z.leb_le in Hw', Hh'. cbn. repeat split; lia.
- apply andb_false_iff in Hfit.
  assert (1600 < w \/ 1600 < h)%Z as Hbig.
  { destruct Hfit as [H | H]; apply Z.leb_gt in H; auto. }
  clear Hfit.
  pose proof (Q_of_Z_lt _ _ Hw) as Hw'. pose proof (Q_of_Z_lt _ _ Hh) as Hh'.
  change (inject_Z 0) with 0 in Hw', Hh'.
  destruct (Qle_bool _ _) eqn:Hbranch.
  + apply Qle_bool_iff in Hbranch. rewrite unit_ratio in Hbranch.
    assert (w <= h)%Z as Hle.
    { apply (Z_le_of_Q _ _ (inject_Z w) (inject_Z h)); [reflexivity | reflexivity |].
      apply (Qmult_le_r _ _ (/ inject_Z h)); [apply Qinv_lt_0_compat, Hh' |].
      rewrite Qmult_inv_r by lra. exact Hbranch. }
    match goal with |- context [PIL.round_aspect ?q ?k] =>
      destruct (round_scaled w h q k) as ((Hr1 & Hr2) & Hr3 & Hr4); try lia;
      [field; lra |]
    end.
    match goal with |- context [PIL.round_aspect ?q ?k] =>
      set (r := PIL.round_aspect q k) in *
    end.
    cbn [PIL.width PIL.height PIL.mode].
    repeat split; try lia; intros; try lia;
      assert (w = h) as -> by lia; nia.
  + assert (~ inject_Z w / inject_Z h <= 1) as Hn.
    { intros H. rewrite <- unit_ratio in H. apply Qle_bool_iff in H.
      congruence. }
    assert (h < w)%Z as Hlt.
    { apply (Z_lt_of_Q _ _ (inject_Z h) (inject_Z w)); [reflexivity | reflexivity |].
      apply Qnot_le_lt. intros H. apply Hn.
      apply Qle_shift_div_r; [exact Hh' | lra]. }
    match goal with |- context [PIL.round_aspect ?q ?k] =>
      destruct (round_scaled h w q k) as ((Hr1 & Hr2) & Hr3 & Hr4); try lia;
      [field; split; lra |]
    end.
    match goal with |- context [PIL.round_aspect ?q ?k] =>
      set (r := PIL.round_aspect q k) in *
    end.
    cbn [PIL.width PIL.height PIL.mode].
    repeat split; try lia; intros; try lia;
      assert (w = h) as -> by lia; nia.
Qed.

End Rounding.

(** C6. [_prepare_image] saves an image that is never larger than the
    decoded one and never larger than 1600 on either side: an image
    within 1600 on both sides keeps its size, and a larger one has its
    longer side at exactly 1600 and its shorter side within one pixel of
    the proportional value 1600 * shorter / longer. *)
Theorem prepared_image_within_1600 w g path img tr :
  Image_open w path = inr img ->
  0 < PIL.width img -> 0 < PIL.height img ->
  exists out,
    _prepare_image w g path tr
    = (inr (jpeg_base64 w out),
       (tr ++ [EvImageOpen path; EvImageSave out "JPEG" 85])%list)
    /\ PIL.mode out = "RGB"
    /\ 1 <= PIL.width out <= PIL.width img
    /\ 1 <= PIL.height out <= PIL.height img
    /\ PIL.width out <= 1600 /\ PIL.height out <= 1600
    /\ (PIL.width img <= 1600 -> PIL.height img <= 1600 ->
        PIL.width out = PIL.width img /\ PIL.height out = PIL.height img)
    /\ (1600 < PIL.width img \/ 1600 < PIL.height img ->
        (PIL.height img <= PIL.width img ->
         PIL.width out = 1600
         /\ (PIL.height out - 1) * PIL.width img < 1600 * PIL.height img
            < (PIL.height out + 1) * PIL.width img)
        /\ (PIL.width img <= PIL.height img ->
            PIL.height out = 1600
            /\ (PIL.width out - 1) * PIL.height img < 1600 * PIL.width img
               < (PIL.width out + 1) * PIL.height img)).
Proof.
  intros Himg Hw Hh. exists (Obs.saved img).
  split; [apply prepare_image_run, Himg |].
  unfold Obs.saved.
  destruct (decide (PIL.mode img = "RGB")) as [Hmode | Hmode].
  - destruct (thumbnail_1600 img Hw Hh) as (Hm & H). rewrite Hm. auto.
  - destruct (thumbnail_1600 (PIL.convert img "RGB") Hw Hh) as (Hm & H).
    rewrite Hm. auto.
Qed.

Lemma prepared_image_within_1600_witness :
  Image_open Sample.world "photo.jpg" = inr Sample.photo
  /\ exists out,
      _prepare_image Sample.world Sample.claude "photo.jpg" []
      = (inr (jpeg_base64 Sample.world out),
         [EvImageOpen "photo.jpg"; EvImageSave out "JPEG" 85])
      /\ PIL.width out = 1600
      /\ (PIL.height out - 1) * 4000 < 1600 * 3000 < (PIL.height out + 1) * 4000.
Proof.
  split; [reflexivity |].
  destruct (prepared_image_within_1600 Sample.world Sample.claude "photo.jpg"
              Sample.photo [])
    as (out & Hrun & _ & _ & _ & _ & _ & _ & Hbig);
    [reflexivity | reflexivity | reflexivity |].
  exists out. split; [exact Hrun |].
  apply Hbig; [left; reflexivity | discriminate].
Defined.

Example thumbnail_sizes :
  PIL.thumbnail (PIL.mkImage "RGB" 4000 3000) (1600, 1600)
  = PIL.mkImage "RGB" 1600 1200
  /\ PIL.thumbnail (PIL.mkImage "RGB" 3000 4000) (1600, 1600)
     = PIL.mkImage "RGB" 1200 1600
  /\ PIL.thumbnail (PIL.mkImage "RGB" 1601 1600) (1600, 1600)
     = PIL.mkImage "RGB" 1600 1599
  /\ PIL.thumbnail (PIL.mkImage "RGB" 100000 1) (1600, 1600)
     = PIL.mkImage "RGB" 1600 1
  /\ PIL.thumbnail (PIL.mkImage "RGB" 1600 900) (1600, 1600)
     = PIL.mkImage "RGB" 1600 900.
Proof. repeat split. Qed.

(** ** Reverse geocoding *)

Example geocode_slow :
  GPS.reverse_geocode Sample.slow "38.72" "-9.14" 2 []
  = (inr (Some (GPS.mkInfo "Lisbon, Portugal" (Some "Lisbon") None
                  (Some "Portugal") "Lisbon, Portugal")),
     [GPS.EvReverse "38.72, -9.14" 5 "en"; GPS.EvSleep 1;
      GPS.EvReverse "38.72, -9.14" 5 "en"]).
Proof. vm_compute. reflexivity. Qed.

Example geocode_down :
  GPS.reverse_geocode Sample.down "38.72" "-9.14" 3 []
  = (inr None,
     [GPS.EvReverse "38.72, -9.14" 5 "en"; GPS.EvSleep 1;
      GPS.EvReverse "38.72, -9.14" 5 "en"; GPS.EvSleep 1;
      GPS.EvReverse "38.72, -9.14" 5 "en"]).
Proof. vm_compute. reflexivity. Qed.

Section Geocoding.
Context {float : Type} (w : GPS.World float) (latitude longitude : float).

Local Abbreviation q := (Obs.query w latitude longitude).

Lemma calls_after_reverse tr t l :
  GPS.calls (tr ++ [GPS.EvReverse q t l]) = S (GPS.calls tr).
Proof.
  unfold GPS.calls. rewrite List.filter_app, length_app. cbn. lia.
Qed.

Lemma calls_after_sleep tr n :
  GPS.calls (tr ++ [GPS.EvSleep n]) = GPS.calls tr.
Proof.
  unfold GPS.calls. rewrite List.filter_app, length_app. cbn. lia.
Qed.

(** One turn of the loop, by the outcome of the call. *)
Lemma attempts_step retries attempt todo tr :
  GPS.attempts w latitude longitude retries (attempt :: todo) tr
  = match GPS.reverse w (GPS.calls tr) q 5 "en" with
    | inr (Some location) =>
        (inr (Some (GPS._parse_location location)),
         (tr ++ [GPS.EvReverse q 5 "en"])%list)
    | inr None =>
        GPS.attempts w latitude longitude retries todo
          (tr ++ [GPS.EvReverse q 5 "en"])%list
    | inl e =>
        if GPS.caught e then
          GPS.attempts w latitude longitude retries todo
            (if attempt <? retries - 1
             then ((tr ++ [GPS.EvReverse q 5 "en"]) ++ [GPS.EvSleep 1])%list
             else (tr ++ [GPS.EvReverse q 5 "en"])%list)
        else (inl e, (tr ++ [GPS.EvReverse q 5 "en"])%list)
    end.
Proof.
  cbn [GPS.attempts]. unfold Eff.try, GPS.geolocator_reverse, Eff.call.
  fold (Obs.query w latitude longitude).
  destruct (GPS.reverse w (GPS.calls tr) q 5 "en") as [e | [location |]];
    try reflexivity.
  destruct (GPS.caught e); [| reflexivity].
  unfold Eff.bind. destruct (attempt <? retries - 1); reflexivity.
Qed.

(** When the service only ever fails with the two caught exceptions, the
    loop ends without raising. *)
Lemma attempts_absorb retries todo :
  (forall i e, GPS.reverse w i q 5 "en" = inl e -> GPS.caught e = true) ->
  forall tr, exists r tr',
    GPS.attempts w latitude longitude retries todo tr = (inr r, tr').
Proof.
  intros Hw. induction todo as [| attempt todo IH]; intros tr.
  - eexists _, _. reflexivity.
  - rewrite attempts_step.
    destruct (GPS.reverse w (GPS.calls tr) q 5 "en") as [e | [location |]] eqn:E.
    + rewrite (Hw _ _ E). apply IH.
    + eexists _, _. reflexivity.
    + apply IH.
Qed.

(** [n] attempts that all fail with a caught exception, the last of them
    being attempt [retries - 1]. *)
Lemma attempts_persistent retries n :
  forall a tr,
    a + Z.of_nat n = retries ->
    (forall i, (i < n)%nat ->
       exists e, GPS.reverse w (GPS.calls tr + i) q 5 "en" = inl e
                 /\ GPS.caught e = true) ->
    GPS.attempts w latitude longitude retries (seqZ a (Z.of_nat n)) tr
    = (inr None, (tr ++ Obs.retry_trace q n)%list).
Proof.
  induction n as [| n IH]; intros a tr Ha Hfail.
  - cbn. rewrite app_nil_r. reflexivity.
  - rewrite seqZ_cons by lia. rewrite attempts_step.
    destruct (Hfail O ltac:(lia)) as (e & He & Hc).
    rewrite Nat.add_0_r in He. rewrite He, Hc.
    replace (Z.pred (Z.of_nat (S n))) with (Z.of_nat n) by lia.
    destruct n as [| n].
    + assert ((a <? retries - 1) = false) as -> by (apply Z.ltb_ge; lia).
      reflexivity.
    + assert ((a <? retries - 1) = true) as -> by (apply Z.ltb_lt; lia).
      rewrite IH.
      * rewrite <- !app_assoc. reflexivity.
      * lia.
      * intros i Hi. destruct (Hfail (S i) ltac:(lia)) as (e' & He' & Hc').
        exists e'. split; [| exact Hc'].
        rewrite calls_after_sleep, calls_after_reverse.
        replace (S (GPS.calls tr) + i)%nat with (GPS.calls tr + S i)%nat by lia.
        exact He'.
Qed.

End Geocoding.

(** C7, as the specification states it, fails: with a latitude that geopy
    refuses, the [ValueError] of the first attempt reaches the caller of
    [reverse_geocode]; no [None] is returned. *)
Lemma geocoding_never_raises_counterexample :
  GPS.reverse_geocode Sample.strict "123.0" "10.0" 2 []
  = (inl (ValueError "Latitude must be in the [-90; 90] range."),
     [GPS.EvReverse "123.0, 10.0" 5 "en"])
  /\ ~ (exists r tr',
          GPS.reverse_geocode Sample.strict "123.0" "10.0" 2 [] = (inr r, tr')).
Proof.
  assert (GPS.reverse_geocode Sample.strict "123.0" "10.0" 2 []
          = (inl (ValueError "Latitude must be in the [-90; 90] range."),
             [GPS.EvReverse "123.0, 10.0" 5 "en"])) as E
    by (vm_compute; reflexivity).
  split; [exact E |]. rewrite E. intros (r & tr' & H). discriminate H.
Qed.

(** C8. With [retries = 2] and two attempts that fail with a timeout or a
    service error, [reverse_geocode] calls the service exactly twice,
    sleeps exactly once, for one second, between the two calls, and
    returns [None]. *)
Theorem two_attempts_one_sleep
    {float} (w : GPS.World float) latitude longitude tr e1 e2 :
  GPS.reverse w (GPS.calls tr) (Obs.query w latitude longitude) 5 "en" = inl e1 ->
  GPS.caught e1 = true ->
  GPS.reverse w (S (GPS.calls tr)) (Obs.query w latitude longitude) 5 "en"
  = inl e2 ->
  GPS.caught e2 = true ->
  GPS.reverse_geocode w latitude longitude 2 tr
  = (inr None,
     (tr ++ [GPS.EvReverse (Obs.query w latitude longitude) 5 "en";
             GPS.EvSleep 1;
             GPS.EvReverse (Obs.query w latitude longitude) 5 "en"])%list).
Proof.
  intros H1 Hc1 H2 Hc2. unfold GPS.reverse_geocode, range.
  change (seqZ 0 2) with (seqZ 0 (Z.of_nat 2)).
  apply (attempts_persistent w latitude longitude 2 2 0 tr); [reflexivity |].
  intros [| [| i]] Hi.
  - exists e1. rewrite Nat.add_0_r. auto.
  - exists e2. rewrite Nat.add_1_r. auto.
  - lia.
Qed.

Lemma two_attempts_one_sleep_witness :
  GPS.reverse_geocode Sample.down "38.72" "-9.14" 2 []
  = (inr None,
     [GPS.EvReverse "38.72, -9.14" 5 "en"; GPS.EvSleep 1;
      GPS.EvReverse "38.72, -9.14" 5 "en"]).
Proof.
  apply (two_attempts_one_sleep Sample.down "38.72" "-9.14" []
           GeocoderTimedOut GeocoderServiceError); reflexivity.
Defined.

(** * Further properties of the generator *)

(** ** Credentials *)

(** X1. The credential a generator keeps is never empty; an explicit
    non-empty key is the one kept, whatever the environment holds, and
    otherwise the key is read from the variable of the chosen provider. *)
Theorem credential_resolution w key prov g :
  __init__ w key prov = inr g ->
  truthy (api_key g) = true
  /\ (forall k, key = Some k -> truthy k = true -> api_key g = k)
  /\ (truthy_opt key = false -> provider g = "claude" ->
      environ w !! "ANTHROPIC_API_KEY" = Some (api_key g))
  /\ (truthy_opt key = false -> provider g = "openai" ->
      environ w !! "OPENAI_API_KEY" = Some (api_key g)).
Proof.
  unfold __init__, or_. intros H.
  destruct (decide (lower prov = "claude")) as [Hc | Hc].
  - destruct (truthy_opt key) eqn:Hk.
    + destruct key as [k |]; [| discriminate]. cbn in Hk. rewrite Hk in H.
      injection H as <-. cbn. repeat split; try discriminate; try assumption.
      intros k' [= ->] _. reflexivity.
    + destruct (environ w !! "ANTHROPIC_API_KEY") as [k |] eqn:He; [| discriminate].
      destruct (truthy k) eqn:Ht; [| discriminate].
      injection H as <-. cbn. repeat split; try assumption.
      * intros k' -> Hk'. cbn in Hk. congruence.
      * intros _ Hp. rewrite Hc in Hp. discriminate.
  - destruct (decide (lower prov = "openai")) as [Ho | Ho]; [| discriminate].
    destruct (truthy_opt key) eqn:Hk.
    + destruct key as [k |]; [| discriminate]. cbn in Hk. rewrite Hk in H.
      injection H as <-. cbn. repeat split; try discriminate; try assumption.
      intros k' [= ->] _. reflexivity.
    + destruct (environ w !! "OPENAI_API_KEY") as [k |] eqn:He; [| discriminate].
      destruct (truthy k) eqn:Ht; [| discriminate].
      injection H as <-. cbn. repeat split; try assumption.
      * intros k' -> Hk'. cbn in Hk. congruence.
      * intros _ Hp. rewrite Ho in Hp. discriminate.
Qed.

Lemma credential_resolution_witness :
  __init__ Sample.world None "OPENAI" = inr Sample.openai
  /\ environ Sample.world !! "OPENAI_API_KEY" = Some (api_key Sample.openai).
Proof.
  split; [reflexivity |].
  destruct (credential_resolution Sample.world None "OPENAI" Sample.openai eq_refl)
    as (_ & _ & _ & Hopenai).
  apply Hopenai; reflexivity.
Defined.

(** X2. Without a usable explicit key, a recognised provider whose own
    environment variable is unset or empty is refused with the message
    that names that variable; the variable of the other provider is not
    consulted. *)
Theorem missing_credential_refused w key prov :
  truthy_opt key = false ->
  (lower prov = "claude" ->
   truthy_opt (environ w !! "ANTHROPIC_API_KEY") = false ->
   __init__ w key prov
   = inl (ValueError "Anthropic API key required (set ANTHROPIC_API_KEY)"))
  /\ (lower prov = "openai" ->
      truthy_opt (environ w !! "OPENAI_API_KEY") = false ->
      __init__ w key prov
      = inl (ValueError "OpenAI API key required (set OPENAI_API_KEY)")).
Proof.
  intros Hk. unfold __init__, or_. rewrite Hk. split.
  - intros -> He. cbn [decide].
    destruct (decide ("claude" = "claude")); [| contradiction].
    destruct (environ w !! "ANTHROPIC_API_KEY") as [k |]; [| reflexivity].
    cbn in He. rewrite He. reflexivity.
  - intros -> He.
    destruct (decide ("openai" = "claude")); [discriminate |].
    destruct (decide ("openai" = "openai")); [| contradiction].
    destruct (environ w !! "OPENAI_API_KEY") as [k |]; [| reflexivity].
    cbn in He. rewrite He. reflexivity.
Qed.

Lemma missing_credential_refused_witness :
  environ Sample.world !! "OPENAI_API_KEY" = Some "sk-env"
  /\ __init__ Sample.world (Some EmptyString) "Claude"
     = inl (ValueError "Anthropic API key required (set ANTHROPIC_API_KEY)").
Proof.
  split; [reflexivity |].
  apply (proj1 (missing_credential_refused Sample.world (Some EmptyString)
                  "Claude" eq_refl)); reflexivity.
Defined.

(** ** Catalogs *)

Lemma unusable_model_raises w key prov g path style m loc tr :
  __init__ w key prov = inr g ->
  dict_in m (models g) = false ->
  exists msg,
    generate w g path style (Some m) loc tr = (inl (ValueError msg), tr).
Proof.
  intros Hinit Hm.
  destruct (init_bound _ _ _ _ Hinit) as [(Hp & Hmod & _) | (Hp & Hmod & _)];
    rewrite Hmod in Hm.
  - rewrite generate_claude by exact Hp. unfold _generate_claude.
    rewrite Hm. eexists. reflexivity.
  - rewrite generate_openai by exact Hp. unfold _generate_openai.
    rewrite Hm. eexists. reflexivity.
Qed.

Lemma claude_keys k :
  dict_in k CLAUDE_MODELS = true -> k = "haiku" \/ k = "sonnet" \/ k = "opus".
Proof.
  unfold dict_in, CLAUDE_MODELS. cbn [dict_get].
  destruct (decide (k = "haiku")); [auto |].
  destruct (decide (k = "sonnet")); [auto |].
  destruct (decide (k = "opus")); [auto | discriminate].
Qed.

Lemma openai_keys k :
  dict_in k OPENAI_MODELS = true ->
  k = "gpt-4o" \/ k = "gpt-4o-mini" \/ k = "gpt-4-turbo".
Proof.
  unfold dict_in, OPENAI_MODELS. cbn [dict_get].
  destruct (decide (k = "gpt-4o")); [auto |].
  destruct (decide (k = "gpt-4o-mini")); [auto |].
  destruct (decide (k = "gpt-4-turbo")); [auto | discriminate].
Qed.

(** X3. The two catalogs share no key, so a model key of one provider is
    refused by a generator of the other provider: the call raises a
    [ValueError] and nothing is opened or sent. *)
Theorem model_keys_not_interchangeable w key prov g path style k loc tr :
  __init__ w key prov = inr g ->
  (dict_in k CLAUDE_MODELS = true -> dict_in k OPENAI_MODELS = false)
  /\ (provider g = "openai" -> dict_in k CLAUDE_MODELS = true ->
      exists msg,
        generate w g path style (Some k) loc tr = (inl (ValueError msg), tr))
  /\ (provider g = "claude" -> dict_in k OPENAI_MODELS = true ->
      exists msg,
        generate w g path style (Some k) loc tr = (inl (ValueError msg), tr)).
Proof.
  intros Hinit.
  assert (dict_in k CLAUDE_MODELS = true -> dict_in k OPENAI_MODELS = false)
    as Hco.
  { intros H. destruct (claude_keys k H) as [-> | [-> | ->]]; reflexivity. }
  assert (dict_in k OPENAI_MODELS = true -> dict_in k CLAUDE_MODELS = false)
    as Hoc.
  { intros H. destruct (openai_keys k H) as [-> | [-> | ->]]; reflexivity. }
  split; [exact Hco |].
  destruct (init_bound _ _ _ _ Hinit) as [(Hp & Hmod & _) | (Hp & Hmod & _)].
  - split; intros Hp' Hk.
    + rewrite Hp in Hp'. discriminate.
    + apply (unusable_model_raises w key prov); [exact Hinit |].
      rewrite Hmod. apply Hoc, Hk.
  - split; intros Hp' Hk.
    + apply (unusable_model_raises w key prov); [exact Hinit |].
      rewrite Hmod. apply Hco, Hk.
    + rewrite Hp in Hp'. discriminate.
Qed.

Lemma model_keys_not_interchangeable_witness :
  __init__ Sample.world None "OPENAI" = inr Sample.openai
  /\ dict_in "sonnet" CLAUDE_MODELS = true
  /\ exists msg,
      generate Sample.world Sample.openai "photo.jpg" "travel" (Some "sonnet")
        None []
      = (inl (ValueError msg), []).
Proof.
  split; [reflexivity |]. split; [reflexivity |].
  destruct (model_keys_not_interchangeable Sample.world None "OPENAI"
              Sample.openai "photo.jpg" "travel" "sonnet" None [] eq_refl)
    as (_ & Hopenai & _).
  apply Hopenai; reflexivity.
Defined.

(** ** What a call sends *)

(** The shape of a run that reaches the remote API, with the request
    spelled out. *)
Lemma generate_sends w key prov g path style m loc img tr :
  __init__ w key prov = inr g ->
  Obs.usable_model g m ->
  Image_open w path = inr img ->
  exists k info,
    dict_get (models g) k = Some info
    /\ (m = Some k
        \/ m = None
           /\ (provider g = "claude"
               /\ k = (if decide (style = "social") then "opus" else "haiku")
               \/ provider g = "openai"
                  /\ k = (if decide (style = "social") then "gpt-4o"
                          else "gpt-4o-mini")))
    /\ (provider g = "claude"
        /\ generate w g path style m loc tr
           = (match messages_create w (api_key g)
                      (Obs.claude_request w (name info) img style loc) with
              | inl e => inl e
              | inr r => first_text_stripped r
              end,
              (tr ++ [EvImageOpen path; EvImageSave (Obs.saved img) "JPEG" 85;
                      EvMessagesCreate
                        (Obs.claude_request w (name info) img style loc)])%list)
        \/ provider g = "openai"
           /\ generate w g path style m loc tr
              = (match chat_completions_create w (api_key g)
                         (Obs.openai_request w (name info) img style loc) with
                 | inl e => inl e
                 | inr r => first_text_stripped r
                 end,
                 (tr ++ [EvImageOpen path; EvImageSave (Obs.saved img) "JPEG" 85;
                         EvChatCompletionsCreate
                           (Obs.openai_request w (name info) img style loc)])%list)).
Proof.
  intros Hinit Hm Himg.
  destruct (init_bound _ _ _ _ Hinit)
    as [(Hp & Hmod & Hcl & _) | (Hp & Hmod & Hcl & _)]; rewrite Hmod.
  - rewrite generate_claude by exact Hp.
    assert (exists k info, dict_get CLAUDE_MODELS k = Some info
              /\ (m = Some k
                  \/ m = None
                     /\ k = (if decide (style = "social") then "opus" else "haiku"))
              /\ _generate_claude w g path style m loc
                 = _generate_claude w g path style (Some k) loc)
      as (k & info & Hk & Hor & ->).
    { destruct m as [k |].
      - cbn in Hm. rewrite Hmod in Hm.
        destruct (dict_in_get _ _ Hm) as [info Hk]. eauto 6.
      - rewrite claude_default_key.
        destruct (decide (style = "social")); [exists "opus" | exists "haiku"];
          eexists; repeat split; try reflexivity; right; auto. }
    exists k, info. split; [exact Hk |]. split.
    + destruct Hor as [-> | [-> ->]]; [left; reflexivity | right]. auto.
    + left. split; [exact Hp |].
      apply (generate_claude_run _ _ _ _ _ _ _ _ _ Hcl Hk Himg).
  - rewrite generate_openai by exact Hp.
    assert (exists k info, dict_get OPENAI_MODELS k = Some info
              /\ (m = Some k
                  \/ m = None
                     /\ k = (if decide (style = "social") then "gpt-4o"
                             else "gpt-4o-mini"))
              /\ _generate_openai w g path style m loc
                 = _generate_openai w g path style (Some k) loc)
      as (k & info & Hk & Hor & ->).
    { destruct m as [k |].
      - cbn in Hm. rewrite Hmod in Hm.
        destruct (dict_in_get _ _ Hm) as [info Hk]. eauto 6.
      - rewrite openai_default_key.
        destruct (decide (style = "social"));
          [exists "gpt-4o" | exists "gpt-4o-mini"];
          eexists; repeat split; try reflexivity; right; auto. }
    exists k, info. split; [exact Hk |]. split.
    + destruct Hor as [-> | [-> ->]]; [left; reflexivity | right]. auto.
    + right. split; [exact Hp |].
      apply (generate_openai_run _ _ _ _ _ _ _ _ _ Hcl Hk Himg).
Qed.

(** X4. The request names the remote identifier that the catalog gives
    for the model key: the [name] of the entry for an explicit key, and
    for the defaults the identifiers of opus and haiku (claude), of
    gpt-4o and gpt-4o-mini (openai). *)
Theorem request_names_catalog_entry w key prov g path style m loc img tr :
  __init__ w key prov = inr g ->
  Obs.usable_model g m ->
  Image_open w path = inr img ->
  exists req,
    Obs.requests (snd (generate w g path style m loc tr))
    = (Obs.requests tr ++ [req])%list
    /\ (forall k info, m = Some k -> dict_get (models g) k = Some info ->
        model req = name info)
    /\ (m = None -> provider g = "claude" ->
        model req = if decide (style = "social")
                    then "claude-opus-4-5-20251101"
                    else "claude-3-haiku-20240307")
    /\ (m = None -> provider g = "openai" ->
        model req = if decide (style = "social") then "gpt-4o"
                    else "gpt-4o-mini").
Proof.
  intros Hinit Hm Himg.
  destruct (init_bound _ _ _ _ Hinit) as [(Hpc & Hmod & _) | (Hpo & Hmod & _)];
    destruct (generate_sends w key prov g path style m loc img tr Hinit Hm Himg)
      as (k0 & info0 & Hk0 & Hor & [(Hp & E) | (Hp & E)]);
    try (rewrite Hp in *; discriminate).
  - exists (Obs.claude_request w (name info0) img style loc).
    rewrite E. cbn [snd]. split; [apply requests_after_run; reflexivity |].
    cbn [Obs.claude_request model]. repeat split.
    + intros k info -> Hk. destruct Hor as [[= <-] | [? _]]; congruence.
    + intros -> _. destruct Hor as [? | [_ [[_ ->] | [Hp' _]]]];
        [discriminate | | rewrite Hp in Hp'; discriminate].
      rewrite Hmod in Hk0.
      destruct (decide (style = "social")); injection Hk0 as <-; reflexivity.
    + intros _ Hp'. rewrite Hp in Hp'. discriminate.
  - exists (Obs.openai_request w (name info0) img style loc).
    rewrite E. cbn [snd]. split; [apply requests_after_run; reflexivity |].
    cbn [Obs.openai_request model]. repeat split.
    + intros k info -> Hk. destruct Hor as [[= <-] | [? _]]; congruence.
    + intros _ Hp'. rewrite Hp in Hp'. discriminate.
    + intros -> _. destruct Hor as [? | [_ [[Hp' _] | [_ ->]]]];
        [discriminate | rewrite Hp in Hp'; discriminate |].
      rewrite Hmod in Hk0.
      destruct (decide (style = "social")); injection Hk0 as <-; reflexivity.
Qed.

Lemma request_names_catalog_entry_witness :
  __init__ Sample.world (Some "sk-ant") "Claude" = inr Sample.claude
  /\ exists req,
      Obs.requests
        (snd (generate Sample.world Sample.claude "photo.jpg" "descriptive"
                None None []))
      = [req]
      /\ model req = "claude-3-haiku-20240307".
Proof.
  split; [reflexivity |].
  destruct (request_names_catalog_entry Sample.world (Some "sk-ant") "Claude"
              Sample.claude "photo.jpg" "descriptive" None None Sample.photo [])
    as (req & Hr & _ & Hdefault & _); [reflexivity | exact I | reflexivity |].
  exists req. split; [exact Hr |].
  apply (Hdefault eq_refl eq_refl).
Defined.

(** X5. When the image cannot be opened, a call with a usable model key
    raises the error of [Image.open] itself, right after the attempt, and
    no request is sent. *)
Theorem unreadable_image_sends_nothing w key prov g path style m loc e tr :
  __init__ w key prov = inr g ->
  Obs.usable_model g m ->
  Image_open w path = inl e ->
  generate w g path style m loc tr = (inl e, (tr ++ [EvImageOpen path])%list)
  /\ Obs.requests (snd (generate w g path style m loc tr)) = Obs.requests tr.
Proof.
  intros Hinit Hm Himg.
  rewrite (generate_image_fails w key prov g path style m loc e tr Hinit Hm Himg).
  split; [reflexivity |]. cbn [snd]. unfold Obs.requests.
  rewrite omap_app. cbn. apply app_nil_r.
Qed.

Lemma unreadable_image_sends_nothing_witness :
  __init__ Sample.world None "OPENAI" = inr Sample.openai
  /\ Image_open Sample.world "missing.jpg" = inl (LibraryError "FileNotFoundError")
  /\ generate Sample.world Sample.openai "missing.jpg" "social" None None []
     = (inl (LibraryError "FileNotFoundError"), [EvImageOpen "missing.jpg"]).
Proof.
  split; [reflexivity |]. split; [reflexivity |].
  apply (unreadable_image_sends_nothing Sample.world None "OPENAI" Sample.openai
           "missing.jpg" "social" None None (LibraryError "FileNotFoundError") []);
    [reflexivity | exact I | reflexivity].
Defined.

(** X6. An error raised by the remote API reaches the caller of
    [generate] unchanged, and the request is not sent again: the trace
    holds the one request. *)
Theorem remote_error_reaches_caller w key prov g path style m loc img tr :
  __init__ w key prov = inr g ->
  Obs.usable_model g m ->
  Image_open w path = inr img ->
  exists req,
    Obs.requests (snd (generate w g path style m loc tr))
    = (Obs.requests tr ++ [req])%list
    /\ (provider g = "claude" -> forall e,
        messages_create w (api_key g) req = inl e ->
        fst (generate w g path style m loc tr) = inl e)
    /\ (provider g = "openai" -> forall e,
        chat_completions_create w (api_key g) req = inl e ->
        fst (generate w g path style m loc tr) = inl e).
Proof.
  intros Hinit Hm Himg.
  destruct (generate_reaches_api w key prov g path style m loc img tr
              Hinit Hm Himg)
    as (ev & req & outcome & E & Hev & _ & _ & Hprov).
  exists req. rewrite E. cbn [fst snd].
  split; [apply requests_after_run, Hev |].
  destruct Hprov as [(Hp & _ & ->) | (Hp & _ & ->)]; split; intros Hp' e He;
    try (rewrite Hp in Hp'; discriminate); rewrite He; reflexivity.
Qed.

(** X7. An answer with nothing in it makes [generate] raise
    [IndexError], and an answer whose first block has no text (claude) or
    whose first choice has no content (openai) makes it raise
    [AttributeError]. *)
Theorem empty_answer_raises w key prov g path style m loc img tr :
  __init__ w key prov = inr g ->
  Obs.usable_model g m ->
  Image_open w path = inr img ->
  exists req,
    Obs.requests (snd (generate w g path style m loc tr))
    = (Obs.requests tr ++ [req])%list
    /\ (provider g = "claude" ->
        (messages_create w (api_key g) req = inr [] ->
         fst (generate w g path style m loc tr) = inl IndexError)
        /\ (forall rest, messages_create w (api_key g) req = inr (None :: rest) ->
            fst (generate w g path style m loc tr) = inl AttributeError))
    /\ (provider g = "openai" ->
        (chat_completions_create w (api_key g) req = inr [] ->
         fst (generate w g path style m loc tr) = inl IndexError)
        /\ (forall rest,
              chat_completions_create w (api_key g) req = inr (None :: rest) ->
              fst (generate w g path style m loc tr) = inl AttributeError)).
Proof.
  intros Hinit Hm Himg.
  destruct (generate_reaches_api w key prov g path style m loc img tr
              Hinit Hm Himg)
    as (ev & req & outcome & E & Hev & _ & _ & Hprov).
  exists req. rewrite E. cbn [fst snd].
  split; [apply requests_after_run, Hev |].
  destruct Hprov as [(Hp & _ & ->) | (Hp & _ & ->)]; split; intros Hp';
    try (rewrite Hp in Hp'; discriminate);
    (split; [intros -> | intros rest ->]); reflexivity.
Qed.

Lemma remote_error_reaches_caller_witness :
  __init__ Cases.offline (Some "sk-ant") "claude" = inr Sample.claude
  /\ fst (generate Cases.offline Sample.claude "photo.jpg" "minimal" None None [])
     = inl (LibraryError "APIConnectionError").
Proof.
  split; [reflexivity |].
  destruct (remote_error_reaches_caller Cases.offline (Some "sk-ant") "claude"
              Sample.claude "photo.jpg" "minimal" None None Sample.photo [])
    as (req & _ & Hclaude & _); [reflexivity | exact I | reflexivity |].
  apply Hclaude; reflexivity.
Defined.

Lemma empty_answer_raises_witness :
  __init__ Cases.mute (Some "sk-ant") "claude" = inr Sample.claude
  /\ fst (generate Cases.mute Sample.claude "photo.jpg" "minimal" None None [])
     = inl IndexError.
Proof.
  split; [reflexivity |].
  destruct (empty_answer_raises Cases.mute (Some "sk-ant") "claude"
              Sample.claude "photo.jpg" "minimal" None None Sample.photo [])
    as (req & _ & Hclaude & _); [reflexivity | exact I | reflexivity |].
  apply (proj1 (Hclaude eq_refl)). reflexivity.
Defined.

(** X8. Whatever its arguments, a call of [generate] only adds to the
    trace, and what it adds is nothing (model key refused), or the opening
    of the image (image unreadable), or the opening of the image, the
    saving of the prepared image and one request, in that order: never a
    second request, never a request before the image is prepared. *)
Theorem call_effects_in_order w key prov g path style m loc tr :
  __init__ w key prov = inr g ->
  exists tr',
    snd (generate w g path style m loc tr) = (tr ++ tr')%list
    /\ (tr' = []
        \/ tr' = [EvImageOpen path]
        \/ exists out req,
            request_of req <> None
            /\ tr' = [EvImageOpen path; EvImageSave out "JPEG" 85; req]).
Proof.
  intros Hinit.
  assert (Obs.usable_model g m
          \/ exists k, m = Some k /\ dict_in k (models g) = false) as [Hm | Hm].
  { destruct m as [k |]; [| left; exact I].
    unfold Obs.usable_model. destruct (dict_in k (models g)) eqn:Hk; eauto. }
  - destruct (Image_open w path) as [e | img] eqn:Himg.
    + rewrite (generate_image_fails w key prov g path style m loc e tr
                 Hinit Hm Himg).
      exists [EvImageOpen path]. auto.
    + destruct (generate_reaches_api w key prov g path style m loc img tr
                  Hinit Hm Himg)
        as (ev & req & outcome & E & Hev & _).
      rewrite E. eexists. split; [reflexivity |].
      right. right. exists (Obs.saved img), ev. split; [| reflexivity].
      rewrite Hev. discriminate.
  - destruct Hm as (k & -> & Hk).
    destruct (unusable_model_raises w key prov g path style k loc tr Hinit Hk)
      as (msg & E).
    rewrite E. exists []. split; [symmetry; apply app_nil_r | auto].
Qed.

Lemma call_effects_in_order_witness :
  __init__ Sample.world None "OPENAI" = inr Sample.openai
  /\ exists tr',
      snd (generate Sample.world Sample.openai "scan.png" "travel" None None [])
      = tr'
      /\ (tr' = []
          \/ tr' = [EvImageOpen "scan.png"]
          \/ exists out req,
              request_of req <> None
              /\ tr' = [EvImageOpen "scan.png"; EvImageSave out "JPEG" 85; req]).
Proof.
  split; [reflexivity |].
  apply (call_effects_in_order Sample.world None "OPENAI" Sample.openai
           "scan.png" "travel" None None []).
  reflexivity.
Defined.

(** X9. The request carries one user message made of an image block and
    a text block, in that order, and the image it carries is the encoding
    of the very image that was saved: as base64 data of type image/jpeg
    for claude, as a data URI for openai. *)
Theorem request_carries_saved_image w key prov g path style m loc img tr :
  __init__ w key prov = inr g ->
  Obs.usable_model g m ->
  Image_open w path = inr img ->
  exists out remote text ev,
    snd (generate w g path style m loc tr)
    = (tr ++ [EvImageOpen path; EvImageSave out "JPEG" 85; ev])%list
    /\ (provider g = "claude" ->
        ev = EvMessagesCreate
               (mkRequest remote 300
                  [mkMessage "user"
                     [ImageBlock "base64" "image/jpeg" (jpeg_base64 w out);
                      TextBlock text]]))
    /\ (provider g = "openai" ->
        ev = EvChatCompletionsCreate
               (mkRequest remote 300
                  [mkMessage "user"
                     [ImageUrlBlock ("data:image/jpeg;base64,"
                                     +:+ jpeg_base64 w out);
                      TextBlock text]])).
Proof.
  intros Hinit Hm Himg.
  destruct (generate_sends w key prov g path style m loc img tr Hinit Hm Himg)
    as (k & info & _ & _ & [(Hp & E) | (Hp & E)]); rewrite E; cbn [snd];
    eexists (Obs.saved img), (name info), (Obs.composed style loc), _;
    (split; [reflexivity |]); split; intros Hp';
    try (rewrite Hp in Hp'; discriminate); reflexivity.
Qed.

Lemma request_carries_saved_image_witness :
  __init__ Sample.world None "OPENAI" = inr Sample.openai
  /\ exists out remote text ev,
      snd (generate Sample.world Sample.openai "photo.jpg" "minimal" None None [])
      = [EvImageOpen "photo.jpg"; EvImageSave out "JPEG" 85; ev]
      /\ ev = EvChatCompletionsCreate
                (mkRequest remote 300
                   [mkMessage "user"
                      [ImageUrlBlock ("data:image/jpeg;base64,"
                                      +:+ jpeg_base64 Sample.world out);
                       TextBlock text]]).
Proof.
  split; [reflexivity |].
  destruct (request_carries_saved_image Sample.world None "OPENAI" Sample.openai
              "photo.jpg" "minimal" None None Sample.photo [])
    as (out & remote & text & ev & Hrun & _ & Hopenai);
    [reflexivity | exact I | reflexivity |].
  exists out, remote, text, ev. split; [exact Hrun | apply Hopenai; reflexivity].
Defined.

(** ** Preparing a prepared image *)

Lemma thumbnail_of_fitting img :
  PIL.width img <= 1600 -> PIL.height img <= 1600 ->
  PIL.thumbnail img (1600, 1600) = img.
Proof.
  intros Hw Hh. unfold PIL.thumbnail, PIL.preserve_aspect_ratio.
  apply Z.leb_le in Hw, Hh. rewrite Hw, Hh. reflexivity.
Qed.

Lemma saved_of_saved img :
  0 < PIL.width img -> 0 < PIL.height img ->
  Obs.saved (Obs.saved img) = Obs.saved img.
Proof.
  intros Hw Hh.
  assert (PIL.mode (Obs.saved img) = "RGB"
          /\ PIL.width (Obs.saved img) <= 1600
          /\ PIL.height (Obs.saved img) <= 1600) as (Hm & Hw' & Hh').
  { unfold Obs.saved. destruct (decide (PIL.mode img = "RGB")) as [Hmode | Hmode].
    - destruct (thumbnail_1600 img Hw Hh) as (Hm & _ & _ & ? & ? & _).
      rewrite Hm. auto.
    - destruct (thumbnail_1600 (PIL.convert img "RGB") Hw Hh)
        as (Hm & _ & _ & ? & ? & _).
      rewrite Hm. auto. }
  unfold Obs.saved at 1. rewrite Hm.
  destruct (decide ("RGB" = "RGB")); [| contradiction].
  apply thumbnail_of_fitting; assumption.
Qed.

(** X10. Preparing again what [_prepare_image] saved changes nothing: if
    a file decodes to the image saved for another file, the image saved
    for it is that same image, with the same encoding. *)
Theorem prepared_image_is_stable w g path path' img tr tr' :
  Image_open w path = inr img ->
  0 < PIL.width img -> 0 < PIL.height img ->
  exists out,
    _prepare_image w g path tr
    = (inr (jpeg_base64 w out),
       (tr ++ [EvImageOpen path; EvImageSave out "JPEG" 85])%list)
    /\ (Image_open w path' = inr out ->
        _prepare_image w g path' tr'
        = (inr (jpeg_base64 w out),
           (tr' ++ [EvImageOpen path'; EvImageSave out "JPEG" 85])%list)).
Proof.
  intros Himg Hw Hh. exists (Obs.saved img).
  split; [apply prepare_image_run, Himg |].
  intros Himg'. rewrite (prepare_image_run _ _ _ _ _ Himg').
  rewrite (saved_of_saved img Hw Hh). reflexivity.
Qed.

Lemma prepared_image_is_stable_witness :
  Image_open Cases.archive "photo.jpg" = inr Sample.photo
  /\ exists out,
      _prepare_image Cases.archive Sample.claude "photo.jpg" []
      = (inr (jpeg_base64 Cases.archive out),
         [EvImageOpen "photo.jpg"; EvImageSave out "JPEG" 85])
      /\ (Image_open Cases.archive "small.jpg" = inr out ->
          _prepare_image Cases.archive Sample.claude "small.jpg" []
          = (inr (jpeg_base64 Cases.archive out),
             [EvImageOpen "small.jpg"; EvImageSave out "JPEG" 85])).
Proof.
  split; [reflexivity |].
  apply (prepared_image_is_stable Cases.archive Sample.claude "photo.jpg"
           "small.jpg" Sample.photo [] []); reflexivity.
Defined.

(** * Further properties of reverse geocoding *)

Section Retrying.
Context {float : Type} (w : GPS.World float) (latitude longitude : float).

Local Abbreviation q := (Obs.query w latitude longitude).

Lemma calls_cons_reverse t l tr :
  GPS.calls (GPS.EvReverse q t l :: tr) = S (GPS.calls tr).
Proof. reflexivity. Qed.

(** [k] caught failures, then an answer, with attempts to spare. *)
Lemma attempts_recover retries location k :
  forall n a tr,
    a + Z.of_nat n = retries -> (k < n)%nat ->
    (forall i, (i < k)%nat ->
       exists e, GPS.reverse w (GPS.calls tr + i) q 5 "en" = inl e
                 /\ GPS.caught e = true) ->
    GPS.reverse w (GPS.calls tr + k) q 5 "en" = inr (Some location) ->
    GPS.attempts w latitude longitude retries (seqZ a (Z.of_nat n)) tr
    = (inr (Some (GPS._parse_location location)),
       (tr ++ Obs.retry_trace q (S k))%list).
Proof.
  induction k as [| k IH]; intros n a tr Ha Hk Hfail Hok.
  - rewrite seqZ_cons by lia. rewrite attempts_step.
    rewrite Nat.add_0_r in Hok. rewrite Hok. reflexivity.
  - rewrite seqZ_cons by lia. rewrite attempts_step.
    destruct (Hfail O ltac:(lia)) as (e & He & Hc).
    rewrite Nat.add_0_r in He. rewrite He, Hc.
    assert ((a <? retries - 1) = true) as -> by (apply Z.ltb_lt; lia).
    destruct n as [| n]; [lia |].
    replace (Z.pred (Z.of_nat (S n))) with (Z.of_nat n) by lia.
    rewrite (IH n (Z.succ a)).
    + rewrite <- !app_assoc. reflexivity.
    + lia.
    + lia.
    + intros i Hi. destruct (Hfail (S i) ltac:(lia)) as (e' & He' & Hc').
      exists e'. split; [| exact Hc'].
      rewrite calls_after_sleep, calls_after_reverse.
      replace (S (GPS.calls tr) + i)%nat with (GPS.calls tr + S i)%nat by lia.
      exact He'.
    + rewrite calls_after_sleep, calls_after_reverse.
      replace (S (GPS.calls tr) + k)%nat with (GPS.calls tr + S k)%nat by lia.
      exact Hok.
Qed.

(** Answers without a location: every attempt is made, none is followed
    by a sleep. *)
Lemma attempts_not_found retries n :
  forall a tr,
    (forall i, (i < n)%nat ->
       GPS.reverse w (GPS.calls tr + i) q 5 "en" = inr None) ->
    GPS.attempts w latitude longitude retries (seqZ a (Z.of_nat n)) tr
    = (inr None, (tr ++ replicate n (GPS.EvReverse q 5 "en"))%list).
Proof.
  induction n as [| n IH]; intros a tr Hnone.
  - cbn. rewrite app_nil_r. reflexivity.
  - rewrite seqZ_cons by lia. rewrite attempts_step.
    pose proof (Hnone O ltac:(lia)) as H0. rewrite Nat.add_0_r in H0.
    rewrite H0. replace (Z.pred (Z.of_nat (S n))) with (Z.of_nat n) by lia.
    rewrite IH.
    + rewrite <- app_assoc. reflexivity.
    + intros i Hi. rewrite calls_after_reverse.
      replace (S (GPS.calls tr) + i)%nat with (GPS.calls tr + S i)%nat by lia.
      apply Hnone. lia.
Qed.

(** What any run of the loop adds to the trace. *)
Lemma attempts_effects retries n :
  forall a tr,
    a + Z.of_nat n = retries ->
    exists tr',
      snd (GPS.attempts w latitude longitude retries (seqZ a (Z.of_nat n)) tr)
      = (tr ++ tr')%list
      /\ (GPS.calls tr' <= n)%nat
      /\ (length (List.filter GPS.is_sleep tr') <= n - 1)%nat
      /\ Forall (fun ev => ev = GPS.EvReverse q 5 "en" \/ ev = GPS.EvSleep 1) tr'
      /\ (n = O /\ tr' = []
          \/ exists pre, tr' = (pre ++ [GPS.EvReverse q 5 "en"])%list).
Proof.
  induction n as [| n IH]; intros a tr Ha.
  - exists []. cbn. rewrite app_nil_r. repeat split; auto.
  - rewrite seqZ_cons by lia. rewrite attempts_step.
    replace (Z.pred (Z.of_nat (S n))) with (Z.of_nat n) by lia.
    assert (exists tr',
               ([GPS.EvReverse q 5 "en"] : list GPS.event) = tr'
               /\ (GPS.calls tr' <= S n)%nat
               /\ (length (List.filter GPS.is_sleep tr') <= S n - 1)%nat
               /\ Forall (fun ev => ev = GPS.EvReverse q 5 "en"
                                    \/ ev = GPS.EvSleep 1) tr'
               /\ (S n = O /\ tr' = []
                   \/ exists pre, tr' = (pre ++ [GPS.EvReverse q 5 "en"])%list))
      as Hone.
    { eexists. split; [reflexivity |]. split; [| split; [| split]].
      - cbn. lia.
      - cbn. lia.
      - constructor; [left; reflexivity | constructor].
      - right. exists []. reflexivity. }
    destruct (GPS.reverse w (GPS.calls tr) q 5 "en") as [e | [location |]].
    + destruct (GPS.caught e).
      * destruct (a <? retries - 1) eqn:Hlast.
        -- apply Z.ltb_lt in Hlast.
           destruct (IH (Z.succ a)
                       ((tr ++ [GPS.EvReverse q 5 "en"]) ++ [GPS.EvSleep 1])%list
                       ltac:(lia))
             as (tr' & E & Hc & Hs & Hall & Hend).
           exists (GPS.EvReverse q 5 "en" :: GPS.EvSleep 1 :: tr').
           rewrite E, <- !app_assoc. split; [reflexivity |].
           split; [| split; [| split]].
           ++ rewrite calls_cons_reverse. change (S (GPS.calls tr') <= S n)%nat.
              lia.
           ++ change (S (length (List.filter GPS.is_sleep tr')) <= S n - 1)%nat.
              lia.
           ++ constructor; [left; reflexivity |].
              constructor; [right; reflexivity | exact Hall].
           ++ right. destruct Hend as [[Hn _] | (pre & ->)]; [lia |].
              exists (GPS.EvReverse q 5 "en" :: GPS.EvSleep 1 :: pre). reflexivity.
        -- apply Z.ltb_ge in Hlast. assert (n = O) as -> by lia.
           destruct Hone as (tr' & <- & H). exists [GPS.EvReverse q 5 "en"].
           split; [reflexivity | exact H].
      * destruct Hone as (tr' & <- & H). exists [GPS.EvReverse q 5 "en"].
        split; [reflexivity | exact H].
    + destruct Hone as (tr' & <- & H). exists [GPS.EvReverse q 5 "en"].
      split; [reflexivity | exact H].
    + destruct (IH (Z.succ a) (tr ++ [GPS.EvReverse q 5 "en"])%list ltac:(lia))
        as (tr' & E & Hc & Hs & Hall & Hend).
      exists (GPS.EvReverse q 5 "en" :: tr').
      rewrite E, <- !app_assoc. split; [reflexivity |].
      split; [| split; [| split]].
      * rewrite calls_cons_reverse. lia.
      * change (length (List.filter GPS.is_sleep tr') <= S n - 1)%nat. lia.
      * constructor; [left; reflexivity | exact Hall].
      * right. destruct Hend as [[_ ->] | (pre & ->)].
        -- exists []. reflexivity.
        -- exists (GPS.EvReverse q 5 "en" :: pre). reflexivity.
Qed.

End Retrying.

Lemma range_of_nat retries :
  range retries = seqZ 0 (Z.of_nat (Z.to_nat retries)).
Proof. unfold range, seqZ. rewrite Nat2Z.id. reflexivity. Qed.

(** X11. Whatever the service does, [reverse_geocode] only adds to the
    trace, calls the service at most [retries] times and sleeps at most
    [retries - 1] times; each call asks for the same coordinates with a
    timeout of 5 and the language ['en'], each sleep lasts one second,
    and the last thing it does is a call of the service, never a sleep. *)
Theorem geocoding_effort_bounded
    {float} (w : GPS.World float) latitude longitude retries tr :
  exists tr',
    snd (GPS.reverse_geocode w latitude longitude retries tr) = (tr ++ tr')%list
    /\ (GPS.calls tr' <= Z.to_nat retries)%nat
    /\ (length (List.filter GPS.is_sleep tr') <= Z.to_nat retries - 1)%nat
    /\ Forall (fun ev =>
                 ev = GPS.EvReverse (Obs.query w latitude longitude) 5 "en"
                 \/ ev = GPS.EvSleep 1) tr'
    /\ (tr' = []
        \/ exists pre,
            tr' = (pre ++ [GPS.EvReverse (Obs.query w latitude longitude)
                             5 "en"])%list).
Proof.
  unfold GPS.reverse_geocode. rewrite range_of_nat.
  destruct (Z.le_gt_cases 0 retries) as [Hr | Hr].
  - destruct (attempts_effects w latitude longitude retries (Z.to_nat retries)
                0 tr ltac:(lia))
      as (tr' & E & Hc & Hs & Hall & Hend).
    exists tr'. repeat split; try assumption.
    destruct Hend as [[_ ->] | Hpre]; auto.
  - replace (Z.to_nat retries) with O by lia.
    exists []. cbn. rewrite app_nil_r. repeat split; auto.
Qed.

(** X12. When the first [k] attempts fail with a timeout or a service
    error and the next one, still within [retries], gets a location,
    [reverse_geocode] returns the parsed location after [k + 1] calls and
    [k] sleeps, and makes no further call. *)
Theorem geocoding_recovers
    {float} (w : GPS.World float) latitude longitude retries k location tr :
  Z.of_nat k < retries ->
  (forall i, (i < k)%nat ->
     exists e,
       GPS.reverse w (GPS.calls tr + i) (Obs.query w latitude longitude) 5 "en"
       = inl e
       /\ GPS.caught e = true) ->
  GPS.reverse w (GPS.calls tr + k) (Obs.query w latitude longitude) 5 "en"
  = inr (Some location) ->
  GPS.reverse_geocode w latitude longitude retries tr
  = (inr (Some (GPS._parse_location location)),
     (tr ++ Obs.retry_trace (Obs.query w latitude longitude) (S k))%list).
Proof.
  intros Hk Hfail Hok. unfold GPS.reverse_geocode. rewrite range_of_nat.
  apply (attempts_recover w latitude longitude retries location k
           (Z.to_nat retries) 0 tr); try assumption; lia.
Qed.

Lemma geocoding_recovers_witness :
  GPS.reverse_geocode Sample.slow "38.72" "-9.14" 3 []
  = (inr (Some (GPS._parse_location Sample.lisbon)),
     [GPS.EvReverse "38.72, -9.14" 5 "en"; GPS.EvSleep 1;
      GPS.EvReverse "38.72, -9.14" 5 "en"]).
Proof.
  apply (geocoding_recovers Sample.slow "38.72" "-9.14" 3 1 Sample.lisbon []).
  - reflexivity.
  - intros [| i] Hi; [| lia]. exists GeocoderTimedOut. split; reflexivity.
  - reflexivity.
Defined.

(** X13. An answer without a location is not final: while the service
    finds nothing, [reverse_geocode] asks again, [retries] times in all
    and without sleeping in between, and then returns [None]. *)
Theorem not_found_is_retried_without_sleep
    {float} (w : GPS.World float) latitude longitude retries tr :
  (forall i, (i < Z.to_nat retries)%nat ->
     GPS.reverse w (GPS.calls tr + i) (Obs.query w latitude longitude) 5 "en"
     = inr None) ->
  GPS.reverse_geocode w latitude longitude retries tr
  = (inr None,
     (tr ++ replicate (Z.to_nat retries)
              (GPS.EvReverse (Obs.query w latitude longitude) 5 "en"))%list).
Proof.
  intros Hnone. unfold GPS.reverse_geocode. rewrite range_of_nat.
  apply attempts_not_found, Hnone.
Qed.

(** X14. With [retries] at zero or below, [reverse_geocode] returns
    [None] at once: the service is not called. *)
Theorem no_attempt_without_retries
    {float} (w : GPS.World float) latitude longitude retries tr :
  retries <= 0 ->
  GPS.reverse_geocode w latitude longitude retries tr = (inr None, tr).
Proof.
  intros Hr. unfold GPS.reverse_geocode. rewrite range_of_nat.
  replace (Z.to_nat retries) with O by lia. reflexivity.
Qed.

Lemma no_attempt_without_retries_witness :
  GPS.reverse_geocode Sample.slow "38.72" "-9.14" 0 [] = (inr None, []).
Proof.
  apply (no_attempt_without_retries Sample.slow "38.72" "-9.14" 0 []). lia.
Defined.

Lemma not_found_is_retried_without_sleep_witness :
  GPS.reverse_geocode Runs.nowhere "38.72" "-9.14" 3 []
  = (inr None,
     [GPS.EvReverse "38.72, -9.14" 5 "en"; GPS.EvReverse "38.72, -9.14" 5 "en";
      GPS.EvReverse "38.72, -9.14" 5 "en"]).
Proof.
  apply (not_found_is_retried_without_sleep Runs.nowhere "38.72" "-9.14" 3 []).
  intros i _. reflexivity.
Defined.

(** ** Parsing a location *)

(** X15. The formatted name of a location is never empty when its full
    address is not: it is the full address itself when the location
    names no city, state or country, and the full address is always kept
    beside it. *)
Theorem formatted_falls_back_to_address location :
  GPS.full_address (GPS._parse_location location) = GPS.address location
  /\ (truthy_opt (GPS.city (GPS._parse_location location)) = false ->
      truthy_opt (GPS.state (GPS._parse_location location)) = false ->
      truthy_opt (GPS.country (GPS._parse_location location)) = false ->
      GPS.formatted (GPS._parse_location location) = GPS.address location)
  /\ (truthy (GPS.address location) = true ->
      truthy (GPS.formatted (GPS._parse_location location)) = true).
Proof.
  unfold GPS._parse_location. cbn [GPS.full_address GPS.formatted GPS.city
                                   GPS.state GPS.country].
  set (a := default ∅ (GPS.raw_address location)).
  generalize (or_ (or_ (or_ (a !! "city") (a !! "town")) (a !! "village"))
                (a !! "hamlet")).
  generalize (a !! "state"). generalize (a !! "country").
  intros k s c. split; [reflexivity |].
  destruct c as [[| c1 c] |], s as [[| s1 s] |], k as [[| k1 k] |];
    cbn; split; intros; try reflexivity; try assumption; discriminate.
Qed.

Lemma formatted_falls_back_to_address_witness :
  GPS.formatted (GPS._parse_location (GPS.mkLocation None "Atlantic Ocean"))
  = "Atlantic Ocean".
Proof.
  apply (proj1 (proj2 (formatted_falls_back_to_address
                         (GPS.mkLocation None "Atlantic Ocean"))));
    reflexivity.
Defined.

(** X16. The city of a parsed location is the first of the entries
    ['city'], ['town'], ['village'], ['hamlet'] of the address that is
    present and not empty; when none is, the city is whatever the
    ['hamlet'] entry holds, which is nothing or an empty name. *)
Theorem city_is_first_named_place location (a : gmap string string) :
  GPS.raw_address location = Some a ->
  (truthy_opt (a !! "city") = true ->
   GPS.city (GPS._parse_location location) = a !! "city")
  /\ (truthy_opt (a !! "city") = false -> truthy_opt (a !! "town") = true ->
      GPS.city (GPS._parse_location location) = a !! "town")
  /\ (truthy_opt (a !! "city") = false -> truthy_opt (a !! "town") = false ->
      truthy_opt (a !! "village") = true ->
      GPS.city (GPS._parse_location location) = a !! "village")
  /\ (truthy_opt (a !! "city") = false -> truthy_opt (a !! "town") = false ->
      truthy_opt (a !! "village") = false ->
      GPS.city (GPS._parse_location location) = a !! "hamlet").
Proof.
  intros Ha. unfold GPS._parse_location. cbn [GPS.city]. rewrite Ha.
  change (default ∅ (Some a)) with a. unfold or_.
  destruct (a !! "city") as [[| c1 c] |], (a !! "town") as [[| t1 t] |],
    (a !! "village") as [[| v1 v] |];
    cbn; repeat split; intros; try reflexivity; discriminate.
Qed.

Lemma city_is_first_named_place_witness :
  ({[ "village" := "Monsanto"; "country" := "Portugal" ]} : gmap string string)
    !! "village" = Some "Monsanto"
  /\ GPS.city
       (GPS._parse_location
          (GPS.mkLocation
             (Some {[ "village" := "Monsanto"; "country" := "Portugal" ]})
             "Monsanto, Portugal"))
     = ({[ "village" := "Monsanto"; "country" := "Portugal" ]}
          : gmap string string) !! "village".
Proof.
  split; [vm_compute; reflexivity |].
  apply (proj1 (proj2 (proj2 (city_is_first_named_place
           (GPS.mkLocation
              (Some {[ "village" := "Monsanto"; "country" := "Portugal" ]})
              "Monsanto, Portugal")
           {[ "village" := "Monsanto"; "country" := "Portugal" ]} eq_refl))));
    vm_compute; reflexivity.
Defined.

(** * Properties of the position read from a file *)

Section Reading.
Context {float : Type} (w : @Exif.World float).

Ltac through_binds :=
  repeat match goal with
         | |- context [Exif.bind ?m _] =>
             destruct m eqn:?; cbn [Exif.bind]; try reflexivity
         end.

Lemma extract_of_loaded path data d tr :
  Exif.open_info w path = inr (Some data) ->
  Exif.piexif_load w data = inr d ->
  Exif.extract_gps w path tr
  = (match Exif.gps_of_exif w d with inl _ => None | inr r => r end,
     (tr ++ [Exif.EvOpen path; Exif.EvLoad data])%list).
Proof.
  intros Ho Hl. unfold Exif.extract_gps, Exif.extract_gps_body.
  rewrite Ho, Hl. reflexivity.
Qed.

(** X17. A file that cannot be opened, a file without EXIF data and EXIF
    data that [piexif] cannot load all give [None]; without EXIF data
    [piexif.load] is not called. *)
Theorem unreadable_exif_gives_none path tr :
  (forall e, Exif.open_info w path = inl e ->
     Exif.extract_gps w path tr = (None, (tr ++ [Exif.EvOpen path])%list))
  /\ (Exif.open_info w path = inr None ->
      Exif.extract_gps w path tr = (None, (tr ++ [Exif.EvOpen path])%list))
  /\ (forall data e,
        Exif.open_info w path = inr (Some data) ->
        Exif.piexif_load w data = inl e ->
        Exif.extract_gps w path tr
        = (None, (tr ++ [Exif.EvOpen path; Exif.EvLoad data])%list)).
Proof.
  unfold Exif.extract_gps, Exif.extract_gps_body. repeat split.
  - intros e ->. reflexivity.
  - intros ->. reflexivity.
  - intros data e -> ->. reflexivity.
Qed.

(** X18. A position needs the four tags latitude, latitude reference,
    longitude and longitude reference: when the GPS directory lacks one
    of them, or when there is no GPS directory, the result is [None]. *)
Theorem position_needs_four_tags path data d tr :
  Exif.open_info w path = inr (Some data) ->
  Exif.piexif_load w data = inr d ->
  (d !! "GPS" = None
   \/ exists gps,
       d !! "GPS" = Some gps
       /\ (gps !! Exif.GPSLatitude = None \/ gps !! Exif.GPSLatitudeRef = None
           \/ gps !! Exif.GPSLongitude = None
           \/ gps !! Exif.GPSLongitudeRef = None)) ->
  fst (Exif.extract_gps w path tr) = None.
Proof.
  intros Ho Hl Hmiss. rewrite (extract_of_loaded path data d tr Ho Hl).
  cbn [fst]. unfold Exif.gps_of_exif.
  destruct Hmiss as [-> | (gps & -> & Hmiss)]; [reflexivity |].
  change (default ∅ (Some gps)) with gps.
  destruct (gps !! Exif.GPSLatitude) eqn:Hlat; [| reflexivity].
  unfold Exif.tag. destruct Hmiss as [Hm | [Hm | [Hm | Hm]]];
    try congruence; rewrite Hm; rewrite ?Hlat; through_binds.
Qed.

Lemma convert_rationals d1 d2 m1 m2 s1 s2 ref :
  d2 <> 0 -> m2 <> 0 -> s2 <> 0 ->
  Exif._convert_to_degrees w (Position.rationals d1 d2 m1 m2 s1 s2) ref
  = inr (Position.signed w ref (Position.dms w d1 d2 m1 m2 s1 s2)).
Proof.
  intros Hd Hm Hs. unfold Exif._convert_to_degrees, Exif.ratio, Position.rationals.
  cbn [Exif.getitem lookup list_lookup Exif.bind Exif.truediv].
  apply Z.eqb_neq in Hd, Hm, Hs. rewrite Hd, Hm, Hs. cbn [Exif.bind].
  reflexivity.
Qed.

(** X20. With the four tags well formed (three rationals with non-zero
    denominators, references in ASCII), the result holds the decimal
    degrees [d + m / 60 + s / 3600] of each coordinate, negated exactly
    when its reference is ['S'] or ['W'], and the altitude as the
    quotient of its rational when the altitude tag is present. *)
Theorem position_from_tags path data d gps tr
    d1 d2 m1 m2 s1 s2 r e1 e2 n1 n2 t1 t2 r' :
  Exif.open_info w path = inr (Some data) ->
  Exif.piexif_load w data = inr d ->
  d !! "GPS" = Some gps ->
  gps !! Exif.GPSLatitude = Some (Position.rationals d1 d2 m1 m2 s1 s2) ->
  gps !! Exif.GPSLatitudeRef = Some (Exif.PBytes r) ->
  gps !! Exif.GPSLongitude = Some (Position.rationals e1 e2 n1 n2 t1 t2) ->
  gps !! Exif.GPSLongitudeRef = Some (Exif.PBytes r') ->
  Exif.ascii_only r = true -> Exif.ascii_only r' = true ->
  d2 <> 0 -> m2 <> 0 -> s2 <> 0 -> e2 <> 0 -> n2 <> 0 -> t2 <> 0 ->
  (gps !! Exif.GPSAltitude = None ->
   fst (Exif.extract_gps w path tr)
   = Some (Exif.mkGps
             (Position.signed w r (Position.dms w d1 d2 m1 m2 s1 s2))
             (Position.signed w r' (Position.dms w e1 e2 n1 n2 t1 t2))
             None))
  /\ (forall a1 a2,
        gps !! Exif.GPSAltitude = Some (Exif.PTuple [Exif.PInt a1; Exif.PInt a2]) ->
        a2 <> 0 ->
        fst (Exif.extract_gps w path tr)
        = Some (Exif.mkGps
                  (Position.signed w r (Position.dms w d1 d2 m1 m2 s1 s2))
                  (Position.signed w r' (Position.dms w e1 e2 n1 n2 t1 t2))
                  (Some (Exif.int_div w a1 a2)))).
Proof.
  intros Ho Hl Hgps Hlat Hlatr Hlon Hlonr Hr Hr' Hd2 Hm2 Hs2 He2 Hn2 Ht2.
  rewrite (extract_of_loaded path data d tr Ho Hl). cbn [fst].
  unfold Exif.gps_of_exif. rewrite Hgps.
  change (default ∅ (Some gps)) with gps. rewrite Hlat.
  unfold Exif.tag. rewrite Hlat, Hlatr, Hlon, Hlonr. cbn [Exif.bind].
  unfold Exif.decode. rewrite Hr, Hr'. cbn [Exif.bind].
  rewrite !convert_rationals by assumption. cbn [Exif.bind].
  split.
  - intros ->. reflexivity.
  - intros a1 a2 -> Ha2. cbn [Exif.bind Exif.getitem lookup list_lookup Exif.truediv].
    apply Z.eqb_neq in Ha2. rewrite Ha2. reflexivity.
Qed.

End Reading.

Lemma unreadable_exif_gives_none_witness :
  Exif.open_info Runs.files "e.jpg" = inr None
  /\ Exif.extract_gps Runs.files "e.jpg" [] = (None, [Exif.EvOpen "e.jpg"]).
Proof.
  split; [reflexivity |].
  apply (proj1 (proj2 (unreadable_exif_gives_none Runs.files "e.jpg" []))).
  reflexivity.
Defined.

Lemma position_needs_four_tags_witness :
  Exif.open_info Runs.files "c.jpg" = inr (Some "C")
  /\ fst (Exif.extract_gps Runs.files "c.jpg" []) = None.
Proof.
  split; [reflexivity |].
  apply (position_needs_four_tags Runs.files "c.jpg" "C"
           {[ "GPS" := delete 4 (delete 3 Runs.lisbon_tags) ]} []);
    [reflexivity | reflexivity |].
  right. exists (delete 4 (delete 3 Runs.lisbon_tags)).
  split; [reflexivity |]. right. right. left. vm_compute. reflexivity.
Defined.

Lemma position_from_tags_witness :
  Exif.open_info Runs.files "a.jpg" = inr (Some "A")
  /\ fst (Exif.extract_gps Runs.files "a.jpg" [])
     = Some (Exif.mkGps
               (Position.signed Runs.files "N"
                  (Position.dms Runs.files 38 1 43 1 2000 100))
               (Position.signed Runs.files "W"
                  (Position.dms Runs.files 9 1 8 1 0 1))
               None).
Proof.
  split; [reflexivity |].
  apply (proj1 (position_from_tags Runs.files "a.jpg" "A"
                  {[ "GPS" := Runs.lisbon_tags ]} Runs.lisbon_tags []
                  38 1 43 1 2000 100 "N" 9 1 8 1 0 1 "W"
                  eq_refl eq_refl eq_refl eq_refl eq_refl eq_refl eq_refl
                  eq_refl eq_refl
                  ltac:(discriminate) ltac:(discriminate) ltac:(discriminate)
                  ltac:(discriminate) ltac:(discriminate) ltac:(discriminate))).
  vm_compute. reflexivity.
Defined.

(** * Properties of the earlier generator *)

Lemma legacy_prepare_image_run w self path img tr :
  Image_open w path = inr img ->
  Legacy._prepare_image w self path tr
  = (inr (jpeg_base64 w (Obs.saved img)),
     (tr ++ [EvImageOpen path; EvImageSave (Obs.saved img) "JPEG" 85])%list).
Proof.
  intros Himg. unfold Legacy._prepare_image, Eff.bind, Eff.call. rewrite Himg.
  unfold Obs.saved. rewrite <- app_assoc. reflexivity.
Qed.

(** X21. The earlier [generate] has no check of the model key: an
    unknown key raises a [KeyError] only once the image has been opened
    and saved, and no request is sent; with an image that cannot be
    opened the error is that of the image, whatever the key. *)
Theorem legacy_key_found_unknown_after_preparation w self path style k loc tr :
  dict_get Legacy.MODELS k = None ->
  (forall img, Image_open w path = inr img ->
     Legacy.generate w self path style k loc tr
     = (inl (KeyError k),
        (tr ++ [EvImageOpen path; EvImageSave (Obs.saved img) "JPEG" 85])%list))
  /\ (forall e, Image_open w path = inl e ->
        Legacy.generate w self path style k loc tr
        = (inl e, (tr ++ [EvImageOpen path])%list)).
Proof.
  intros Hk. split.
  - intros img Himg. unfold Legacy.generate. unfold Eff.bind at 1.
    rewrite (legacy_prepare_image_run _ _ _ _ _ Himg).
    unfold model_name. rewrite Hk. reflexivity.
  - intros e Himg. unfold Legacy.generate. unfold Eff.bind at 1.
    unfold Legacy._prepare_image, Eff.bind, Eff.call. rewrite Himg. reflexivity.
Qed.

Lemma legacy_key_found_unknown_after_preparation_witness :
  dict_get Legacy.MODELS "gpt-4o" = None
  /\ Legacy.generate Sample.world (Legacy.mkGenerator "sk-ant") "photo.jpg"
       "descriptive" "gpt-4o" None []
     = (inl (KeyError "gpt-4o"),
        [EvImageOpen "photo.jpg"; EvImageSave (Obs.saved Sample.photo) "JPEG" 85]).
Proof.
  split; [reflexivity |].
  apply (proj1 (legacy_key_found_unknown_after_preparation Sample.world
                  (Legacy.mkGenerator "sk-ant") "photo.jpg" "descriptive"
                  "gpt-4o" None [] eq_refl)).
  reflexivity.
Defined.

Lemma styles_agree_but_social style :
  style <> "social" -> Legacy.STYLES !! style = STYLES !! style.
Proof.
  intros Hs. unfold Legacy.STYLES, STYLES, list_to_map. cbn [foldr fst snd].
  destruct (decide (style = "descriptive")) as [-> | H1]; [reflexivity |].
  rewrite !(lookup_insert_ne _ "descriptive") by congruence.
  rewrite !(lookup_insert_ne _ "social") by congruence.
  destruct (decide (style = "minimal")) as [-> | H2]; [reflexivity |].
  rewrite !(lookup_insert_ne _ "minimal") by congruence.
  destruct (decide (style = "artistic")) as [-> | H3]; [reflexivity |].
  rewrite !(lookup_insert_ne _ "artistic") by congruence.
  destruct (decide (style = "documentary")) as [-> | H4]; [reflexivity |].
  rewrite !(lookup_insert_ne _ "documentary") by congruence.
  destruct (decide (style = "travel")) as [-> | H5]; [reflexivity |].
  rewrite !(lookup_insert_ne _ "travel") by congruence.
  reflexivity.
Qed.

(** X22. For the keys ['haiku'] and ['sonnet'] and every style but
    ['social'], the claude path of the current generator does exactly
    what the earlier [generate] did with the same credential: same
    effects, same request, same result. *)
Theorem current_claude_path_extends_legacy w self g path style k loc tr :
  client g = Anthropic (Legacy.api_key self) ->
  k = "haiku" \/ k = "sonnet" ->
  style <> "social" ->
  _generate_claude w g path style (Some k) loc tr
  = Legacy.generate w self path style k loc tr.
Proof.
  intros Hc Hk Hs.
  unfold _generate_claude, Legacy.generate, client_messages_create.
  rewrite Hc, (styles_agree_but_social style Hs).
  assert (_prepare_image w g path = Legacy._prepare_image w self path) as ->
    by reflexivity.
  destruct Hk as [-> | ->]; reflexivity.
Qed.

Lemma current_claude_path_extends_legacy_witness :
  _generate_claude Sample.world Sample.claude "photo.jpg" "travel"
    (Some "sonnet") (Some "Location: Lisbon") []
  = Legacy.generate Sample.world (Legacy.mkGenerator "sk-ant") "photo.jpg"
      "travel" "sonnet" (Some "Location: Lisbon") [].
Proof.
  apply (current_claude_path_extends_legacy Sample.world
           (Legacy.mkGenerator "sk-ant") Sample.claude "photo.jpg" "travel"
           "sonnet" (Some "Location: Lisbon") []);
    [reflexivity | right; reflexivity | discriminate].
Defined.

(** * Properties of the command line *)

Section CommandLine.
Context {float : Type} (w : Cli.World float).

Lemma locate_run args path tr :
  Cli.locate w args path tr
  = if Cli.no_gps args then (inr None, tr)
    else
      let '(d, evs) := Exif.extract_gps (Cli.exif_world w) path [] in
      let tr1 := (tr ++ map Cli.Exf evs)%list in
      match d with
      | None => (inr None, tr1)
      | Some d =>
          let past := omap Cli.geo_of tr1 in
          let '(r, h) :=
            GPS.reverse_geocode (Cli.gps_world w)
              (Exif.latitude d) (Exif.longitude d) 2 past in
          let tr2 := (tr1 ++ map Cli.Geo (drop (length past) h))%list in
          match r with
          | inl e => (inl e, tr2)
          | inr None => (inr None, tr2)
          | inr (Some l) => (inr (Some ("Location: " +:+ GPS.formatted l)), tr2)
          end
      end.
Proof.
  unfold Cli.locate. destruct (Cli.no_gps args); [reflexivity |].
  unfold Eff.bind at 1. unfold Cli.of_extract.
  destruct (Exif.extract_gps (Cli.exif_world w) path []) as [[d |] evs];
    [| reflexivity].
  unfold Eff.bind, Cli.of_geocoder. cbv zeta.
  destruct (GPS.reverse_geocode _ _ _ _ _) as [[e | [l |]] h]; reflexivity.
Qed.

Lemma process_run g args path tr :
  Cli.process w g args path tr
  = if negb (Cli.path_exists w path)
    then (inr tt, (tr ++ [Cli.EvPrintNotFound (Cli.path_str w path)])%list)
    else
      let '(loc, tr1) := Cli.locate w args path tr in
      match loc with
      | inl e =>
          (inr tt, (tr1 ++ [Cli.EvPrintFailed (Cli.path_name w path) e])%list)
      | inr loc =>
          let '(r, evs) :=
            g path (Cli.style args) (Cli.model args) loc [] in
          let tr2 := (tr1 ++ map Cli.Cap evs)%list in
          match r with
          | inl e =>
              (inr tt, (tr2 ++ [Cli.EvPrintFailed (Cli.path_name w path) e])%list)
          | inr caption =>
              let tr3 :=
                (tr2 ++ [Cli.EvPrintDone (Cli.path_name w path)
                           (Cli.prefix 50 caption)])%list in
              if Cli.embed args then
                match Cli.embedder_embed w path caption with
                | inl e =>
                    (inr tt,
                     ((tr3 ++ [Cli.EvEmbed path caption])
                        ++ [Cli.EvPrintFailed (Cli.path_name w path) e])%list)
                | inr _ => (inr tt, (tr3 ++ [Cli.EvEmbed path caption])%list)
                end
              else (inr tt, tr3)
          end
      end.
Proof.
  unfold Cli.process. destruct (negb (Cli.path_exists w path)); [reflexivity |].
  unfold Eff.try. unfold Eff.bind at 1.
  destruct (Cli.locate w args path tr) as [[e | loc] tr1]; [reflexivity |].
  unfold Eff.bind at 1. unfold Cli.of_caption.
  destruct (g _ _ _ _ _) as [[e | caption] evs]; [reflexivity |].
  cbv zeta. unfold Eff.bind, Cli.print, Eff.call, Eff.ret.
  destruct (Cli.embed args); [| reflexivity].
  destruct (Cli.embedder_embed w path caption) as [e | []]; reflexivity.
Qed.

End CommandLine.

Section Reports.
Context {float : Type} (w : Cli.World float).

Lemma filter_none {A} (f g : A -> bool) l :
  (forall x, g x = true -> f x = false) ->
  Forall (fun x => g x = true) l -> List.filter f l = [].
Proof.
  intros Hfg Hl. induction Hl as [| x l Hx _ IH]; [reflexivity |].
  cbn. rewrite (Hfg x Hx). exact IH.
Qed.

Lemma all_of_generator evs :
  Forall (fun ev => Report.of_generator ev = true) (map Cli.Cap evs).
Proof. induction evs; constructor; auto. Qed.

Lemma all_of_position_exif evs :
  Forall (fun ev => Report.of_position ev = true) (map Cli.Exf evs).
Proof. induction evs; constructor; auto. Qed.

Lemma all_of_position_geo evs :
  Forall (fun ev => Report.of_position ev = true) (map Cli.Geo evs).
Proof. induction evs; constructor; auto. Qed.

(** Finding the position only adds events of that kind, and none with
    [--no-gps]. *)
Lemma locate_appends args path tr :
  exists r tr0,
    Cli.locate w args path tr = (r, (tr ++ tr0)%list)
    /\ Forall (fun ev => Report.of_position ev = true) tr0
    /\ (Cli.no_gps args = true -> tr0 = [] /\ r = inr None).
Proof.
  rewrite locate_run. destruct (Cli.no_gps args).
  - exists (inr None), []. rewrite app_nil_r. auto.
  - destruct (Exif.extract_gps (Cli.exif_world w) path []) as [[d |] evs].
    + cbv zeta.
      destruct (GPS.reverse_geocode _ _ _ _ _) as [r h].
      set (more := map Cli.Geo (drop _ h)).
      assert (Forall (fun ev => Report.of_position ev = true)
                (map Cli.Exf evs ++ more)) as Hall.
      { apply Forall_app. split;
          [apply all_of_position_exif | apply all_of_position_geo]. }
      destruct r as [e | [l |]]; eexists _, (map Cli.Exf evs ++ more)%list;
        rewrite app_assoc; (split; [reflexivity |]); split; auto; discriminate.
    + exists (inr None), (map Cli.Exf evs). split; [reflexivity |].
      split; [apply all_of_position_exif | discriminate].
Qed.

(** What [process] adds for one image: the search for a position, what
    the generator does, then the lines and the call of the embedder. *)
Lemma process_shape g args path tr :
  exists tr0 evs tail,
    Cli.process w g args path tr
    = (inr tt, (tr ++ tr0 ++ map Cli.Cap evs ++ tail)%list)
    /\ Forall (fun ev => Report.of_position ev = true) tr0
    /\ (Cli.no_gps args = true -> tr0 = [])
    /\ (Cli.path_exists w path = false /\ tr0 = [] /\ evs = []
        /\ tail = [Cli.EvPrintNotFound (Cli.path_str w path)]
        \/ Cli.path_exists w path = true
           /\ ((exists e,
                  evs = []
                  /\ fst (Cli.locate w args path tr) = inl e
                  /\ tail = [Cli.EvPrintFailed (Cli.path_name w path) e])
               \/ exists loc,
                   fst (Cli.locate w args path tr) = inr loc
                   /\ evs = snd (g path (Cli.style args) (Cli.model args) loc [])
                   /\ ((exists e,
                          fst (g path (Cli.style args) (Cli.model args) loc [])
                          = inl e
                          /\ tail = [Cli.EvPrintFailed (Cli.path_name w path) e])
                       \/ exists caption,
                           fst (g path (Cli.style args) (Cli.model args) loc [])
                           = inr caption
                           /\ (Cli.embed args = false
                               /\ tail = [Cli.EvPrintDone (Cli.path_name w path)
                                            (Cli.prefix 50 caption)]
                               \/ Cli.embed args = true
                                  /\ Cli.embedder_embed w path caption = inr tt
                                  /\ tail = [Cli.EvPrintDone (Cli.path_name w path)
                                               (Cli.prefix 50 caption);
                                             Cli.EvEmbed path caption]
                               \/ Cli.embed args = true
                                  /\ exists e,
                                      Cli.embedder_embed w path caption = inl e
                                      /\ tail
                                         = [Cli.EvPrintDone (Cli.path_name w path)
                                              (Cli.prefix 50 caption);
                                            Cli.EvEmbed path caption;
                                            Cli.EvPrintFailed
                                              (Cli.path_name w path) e])))).
Proof.
  rewrite process_run. destruct (Cli.path_exists w path) eqn:Hex; cbn [negb].
  - destruct (locate_appends args path tr) as (r & tr0 & -> & Hall & Hoff).
    cbn [fst].
    destruct r as [e | loc].
    + exists tr0, [], [Cli.EvPrintFailed (Cli.path_name w path) e].
      rewrite <- app_assoc. cbn [map app]. repeat split; auto.
      * intros H. apply (Hoff H).
      * right. split; [reflexivity |]. left. exists e. auto.
    + destruct (g path (Cli.style args) (Cli.model args) loc []) as [r evs] eqn:Hgen.
      cbv zeta.
      assert (forall tail,
                 (((tr ++ tr0) ++ map Cli.Cap evs) ++ tail
                  = tr ++ tr0 ++ map Cli.Cap evs ++ tail)%list) as Hassoc.
      { intros tail. rewrite <- !app_assoc. reflexivity. }
      destruct r as [e | caption].
      * exists tr0, evs, [Cli.EvPrintFailed (Cli.path_name w path) e].
        rewrite Hassoc. repeat split; auto.
        -- intros H. apply (Hoff H).
        -- right. split; [reflexivity |]. right. exists loc.
           split; [reflexivity |]. split; [rewrite Hgen; reflexivity |].
           rewrite Hgen. cbn [fst]. left. exists e. auto.
      * destruct (Cli.embed args) eqn:Hemb.
        -- destruct (Cli.embedder_embed w path caption) as [e | []] eqn:Hembed.
           ++ exists tr0, evs,
                [Cli.EvPrintDone (Cli.path_name w path) (Cli.prefix 50 caption);
                 Cli.EvEmbed path caption;
                 Cli.EvPrintFailed (Cli.path_name w path) e].
              split; [rewrite <- !app_assoc; reflexivity |].
              repeat split; auto.
              ** intros H. apply (Hoff H).
              ** right. split; [reflexivity |]. right. exists loc.
                 split; [reflexivity |]. split; [rewrite Hgen; reflexivity |].
                 rewrite Hgen. cbn [fst]. right. exists caption. split; [reflexivity |].
                 right. right. split; [reflexivity |]. exists e. auto.
           ++ exists tr0, evs,
                [Cli.EvPrintDone (Cli.path_name w path) (Cli.prefix 50 caption);
                 Cli.EvEmbed path caption].
              split; [rewrite <- !app_assoc; reflexivity |].
              repeat split; auto.
              ** intros H. apply (Hoff H).
              ** right. split; [reflexivity |]. right. exists loc.
                 split; [reflexivity |]. split; [rewrite Hgen; reflexivity |].
                 rewrite Hgen. cbn [fst]. right. exists caption. split; [reflexivity |].
                 right. left. auto.
        -- exists tr0, evs,
             [Cli.EvPrintDone (Cli.path_name w path) (Cli.prefix 50 caption)].
           rewrite Hassoc. repeat split; auto.
           ++ intros H. apply (Hoff H).
           ++ right. split; [reflexivity |]. right. exists loc.
              split; [reflexivity |]. split; [rewrite Hgen; reflexivity |].
              rewrite Hgen. cbn [fst]. right. exists caption. split; [reflexivity |].
              left. auto.
  - exists [], [], [Cli.EvPrintNotFound (Cli.path_str w path)].
    repeat split; auto.
Qed.

End Reports.

Section Runs.
Context {float : Type} (w : Cli.World float).

Lemma no_lines_in_position l :
  Forall (fun ev => Report.of_position ev = true) l -> Report.lines l = [].
Proof. apply filter_none. intros [] H; (discriminate H || reflexivity). Qed.

Lemma no_lines_in_generator evs : Report.lines (map Cli.Cap evs) = [].
Proof.
  apply (filter_none _ Report.of_generator); [| apply all_of_generator].
  intros [] H; (discriminate H || reflexivity).
Qed.

Lemma no_position_in_generator evs :
  List.filter Report.of_position (map Cli.Cap evs) = [].
Proof.
  apply (filter_none _ Report.of_generator); [| apply all_of_generator].
  intros [] H; (discriminate H || reflexivity).
Qed.

Lemma no_embed_in_generator evs :
  List.filter Report.is_embed (map Cli.Cap evs) = [].
Proof.
  apply (filter_none _ Report.of_generator); [| apply all_of_generator].
  intros [] H; (discriminate H || reflexivity).
Qed.

Lemma no_embed_in_position l :
  Forall (fun ev => Report.of_position ev = true) l ->
  List.filter Report.is_embed l = [].
Proof. apply filter_none. intros [] H; (discriminate H || reflexivity). Qed.

(** One image: the lines it gives, and what it leaves undone. *)
Lemma process_summary g args path tr :
  exists tr',
    Cli.process w g args path tr = (inr tt, (tr ++ tr')%list)
    /\ Report.report_for w args path (Report.lines tr')
    /\ (Cli.no_gps args = true -> List.filter Report.of_position tr' = [])
    /\ (Cli.embed args = false -> List.filter Report.is_embed tr' = []).
Proof.
  destruct (process_shape w g args path tr)
    as (tr0 & evs & tail & E & Hall & Hoff & Hcases).
  exists (tr0 ++ map Cli.Cap evs ++ tail)%list. split; [exact E |].
  unfold Report.lines. rewrite !List.filter_app.
  fold (Report.lines tr0). fold (Report.lines (map Cli.Cap evs)).
  rewrite (no_lines_in_position tr0 Hall), no_lines_in_generator.
  rewrite no_position_in_generator, no_embed_in_generator.
  rewrite (no_embed_in_position tr0 Hall). cbn [app].
  unfold Report.report_for.
  destruct Hcases as [(Hex & _ & _ & ->) | (Hex & Hcases)].
  - split; [left; split; [exact Hex | reflexivity] |].
    split; [intros H; rewrite (Hoff H) |]; reflexivity.
  - destruct Hcases as [(e & _ & _ & ->) | (loc & _ & _ & Hcases)].
    + split; [right; split; [exact Hex |]; right; left; exists e; reflexivity |].
      split; [intros H; rewrite (Hoff H) |]; reflexivity.
    + destruct Hcases as [(e & _ & ->) | (caption & _ & Hcases)].
      * split; [right; split; [exact Hex |]; right; left; exists e; reflexivity |].
        split; [intros H; rewrite (Hoff H) |]; reflexivity.
      * destruct Hcases as [(Hemb & ->) | [(Hemb & _ & ->) | (Hemb & e & _ & ->)]].
        -- split; [right; split; [exact Hex |]; left; eexists; reflexivity |].
           split; [intros H; rewrite (Hoff H) |]; reflexivity.
        -- split; [right; split; [exact Hex |]; left; eexists; reflexivity |].
           split; [intros H; rewrite (Hoff H); reflexivity | congruence].
        -- split; [right; split; [exact Hex |]; right; right;
                   split; [exact Hemb |]; eexists _, e; reflexivity |].
           split; [intros H; rewrite (Hoff H); reflexivity | congruence].
Qed.

(** All the images. *)
Lemma process_all_summary g args todo :
  forall tr, exists tr' chunks,
    Cli.process_all w g args todo tr = (inr tt, (tr ++ tr')%list)
    /\ Report.lines tr' = concat chunks
    /\ Forall2 (Report.report_for w args) todo chunks
    /\ (Cli.no_gps args = true -> List.filter Report.of_position tr' = [])
    /\ (Cli.embed args = false -> List.filter Report.is_embed tr' = []).
Proof.
  induction todo as [| path todo IH]; intros tr.
  - exists [], []. cbn. rewrite app_nil_r. repeat split; auto.
  - cbn [Cli.process_all]. unfold Eff.bind.
    destruct (process_summary g args path tr) as (tr1 & -> & Hrep & Hpos & Hemb).
    destruct (IH (tr ++ tr1)%list) as (tr2 & chunks & -> & Hlines & Hall & Hpos' & Hemb').
    exists (tr1 ++ tr2)%list, (Report.lines tr1 :: chunks).
    rewrite app_assoc. split; [reflexivity |].
    unfold Report.lines in *. rewrite !List.filter_app.
    split; [cbn [concat]; rewrite Hlines; reflexivity |].
    split; [constructor; assumption |].
    split; intros H.
    + rewrite (Hpos H), (Hpos' H). reflexivity.
    + rewrite (Hemb H), (Hemb' H). reflexivity.
Qed.

End Runs.



(** X25. Once the call of the constructor has given a generator, of
    whatever class: with [--no-gps], [main] neither reads EXIF data nor
    calls the geocoding service; without [--embed] it never calls the
    embedder. *)
Theorem switches_are_obeyed {float} (w : Cli.World float) args g tr :
  Cli.make_generator w (Cli.provider args) = inr g ->
  exists tr',
    snd (Cli.main w args tr) = (tr ++ tr')%list
    /\ (Cli.no_gps args = true -> List.filter Report.of_position tr' = [])
    /\ (Cli.embed args = false -> List.filter Report.is_embed tr' = []).
Proof.
  intros Hinit. unfold Cli.main, Eff.bind, Eff.lift. rewrite Hinit.
  destruct (process_all_summary w g args (Cli.images args) tr)
    as (tr' & chunks & -> & _ & _ & Hpos & Hemb).
  exists tr'. auto.
Qed.

Example desk_lines :
  Report.lines (snd (Cli.main Desk.desk Desk.args []))
  = [Cli.EvPrintDone "a.jpg" "A harbour at dusk, by gpt-4o-mini.";
     Cli.EvPrintNotFound "gone.jpg";
     Cli.EvPrintDone "e.jpg" "A harbour at dusk, by gpt-4o-mini.";
     Cli.EvPrintFailed "e.jpg" (LibraryError "PermissionError")].
Proof. vm_compute. reflexivity. Qed.



Lemma switches_are_obeyed_witness :
  Cli.make_generator Desk.desk (Cli.provider Desk.quiet)
  = inr Desk.openai
  /\ exists tr',
      snd (Cli.main Desk.desk Desk.quiet []) = tr'
      /\ List.filter Report.of_position tr' = []
      /\ List.filter Report.is_embed tr' = [].
Proof.
  split; [reflexivity |].
  destruct (switches_are_obeyed Desk.desk Desk.quiet Desk.openai [] eq_refl)
    as (tr' & E & Hpos & Hemb).
  exists tr'. split; [exact E |]. split; [apply Hpos | apply Hemb]; reflexivity.
Defined.

Section OneImage.
Context {float : Type} (w : Cli.World float).

Lemma geo_of_exif evs : omap Cli.geo_of (map Cli.Exf evs) = [].
Proof. induction evs; [reflexivity | exact IHevs]. Qed.

Lemma filter_all {A} (f : A -> bool) l :
  Forall (fun x => f x = true) l -> List.filter f l = l.
Proof.
  intros Hl. induction Hl as [| x l Hx _ IH]; [reflexivity |].
  cbn. rewrite Hx, IH. reflexivity.
Qed.

Lemma no_generator_in_position l :
  Forall (fun ev => Report.of_position ev = true) l ->
  List.filter Report.of_generator l = [].
Proof. apply filter_none. intros [] H; (discriminate H || reflexivity). Qed.

(** X26. In the body of the loop of [main], for a generator of whatever
    class: the embedder is called only with [--embed], only for the
    image at hand, right after the line of the caption has been printed,
    and with the very caption that the generator's [generate]
    returned. *)
Theorem embedder_gets_the_caption g args path tr :
  exists tr',
    Cli.process w g args path tr = (inr tt, (tr ++ tr')%list)
    /\ forall p c,
        In (Cli.EvEmbed p c) tr' ->
        p = path /\ Cli.embed args = true
        /\ (exists loc,
              fst (g path (Cli.style args) (Cli.model args) loc [])
              = inr c)
        /\ exists pre post,
            tr' = (pre ++ [Cli.EvPrintDone (Cli.path_name w path)
                             (Cli.prefix 50 c);
                           Cli.EvEmbed path c] ++ post)%list.
Proof.
  destruct (process_shape w g args path tr)
    as (tr0 & evs & tail & E & Hall & _ & Hcases).
  exists (tr0 ++ map Cli.Cap evs ++ tail)%list. split; [exact E |].
  intros p c Hin.
  apply in_app_or in Hin. destruct Hin as [Hin | Hin].
  { rewrite List.Forall_forall in Hall. specialize (Hall _ Hin). discriminate. }
  apply in_app_or in Hin. destruct Hin as [Hin | Hin].
  { apply in_map_iff in Hin. destruct Hin as (x & Hx & _). discriminate. }
  destruct Hcases as [(_ & _ & _ & ->) | (_ & Hcases)].
  { destruct Hin as [Hin | []]. discriminate. }
  destruct Hcases as [(e & _ & _ & ->) | (loc & _ & _ & Hcases)].
  { destruct Hin as [Hin | []]. discriminate. }
  destruct Hcases as [(e & _ & ->) | (caption & Hgen & Hcases)].
  { destruct Hin as [Hin | []]. discriminate. }
  destruct Hcases as [(_ & ->) | [(Hemb & _ & ->) | (Hemb & e & _ & ->)]].
  - destruct Hin as [Hin | []]. discriminate.
  - destruct Hin as [Hin | [Hin | []]]; [discriminate |].
    injection Hin as <- <-. repeat split; eauto.
    exists (tr0 ++ map Cli.Cap evs)%list, [].
    rewrite <- !app_assoc. reflexivity.
  - destruct Hin as [Hin | [Hin | [Hin | []]]]; try discriminate.
    injection Hin as <- <-. repeat split; eauto.
    exists (tr0 ++ map Cli.Cap evs)%list,
      [Cli.EvPrintFailed (Cli.path_name w path) e].
    rewrite <- !app_assoc. reflexivity.
Qed.

(** X27. In the body of the loop of [main], for a generator of whatever
    class: an exception that [reverse_geocode] lets through, at whatever
    attempt, fails the image: [generate] is not called for it, the line
    of the failure carries that exception, and the body itself raises
    nothing, so the next image is taken up. *)
Theorem geocoder_error_fails_the_image g args path d evs e h tr :
  Cli.path_exists w path = true ->
  Cli.no_gps args = false ->
  Exif.extract_gps (Cli.exif_world w) path [] = (Some d, evs) ->
  GPS.reverse_geocode (Cli.gps_world w) (Exif.latitude d) (Exif.longitude d) 2
    (omap Cli.geo_of tr)
  = (inl e, h) ->
  Cli.process w g args path tr
  = (inr tt,
     (tr ++ map Cli.Exf evs
         ++ map Cli.Geo (drop (length (omap Cli.geo_of tr)) h)
         ++ [Cli.EvPrintFailed (Cli.path_name w path) e])%list)
  /\ List.filter Report.of_generator
       (map Cli.Exf evs
          ++ map Cli.Geo (drop (length (omap Cli.geo_of tr)) h)
          ++ [Cli.EvPrintFailed (Cli.path_name w path) e])
     = [].
Proof.
  intros Hex Hgps Hd Hgeo. split.
  - rewrite process_run, Hex. cbn [negb].
    rewrite locate_run, Hgps, Hd. cbv zeta.
    rewrite omap_app, geo_of_exif, app_nil_r, Hgeo.
    rewrite <- !app_assoc. reflexivity.
  - rewrite !List.filter_app.
    rewrite (no_generator_in_position _ (all_of_position_exif evs)).
    rewrite (no_generator_in_position _ (all_of_position_geo _)).
    reflexivity.
Qed.

(** X28. In the body of the loop of [main], for a generator of whatever
    class: the location sentence given to its [generate] is
    ["Location: "] followed by the formatted name that [reverse_geocode]
    returned for the position read from the file; with [--no-gps], or
    when the file has no position, [generate] is called without a
    location. *)
Theorem position_becomes_location_context g args path tr :
  Cli.path_exists w path = true ->
  exists tr',
    Cli.process w g args path tr = (inr tt, (tr ++ tr')%list)
    /\ (forall d evs l h,
          Cli.no_gps args = false ->
          Exif.extract_gps (Cli.exif_world w) path [] = (Some d, evs) ->
          GPS.reverse_geocode (Cli.gps_world w)
            (Exif.latitude d) (Exif.longitude d) 2 (omap Cli.geo_of tr)
          = (inr (Some l), h) ->
          List.filter Report.of_generator tr'
          = map Cli.Cap
              (snd (g path (Cli.style args) (Cli.model args) (Some ("Location: " +:+ GPS.formatted l)) [])))
    /\ (Cli.no_gps args = true
        \/ fst (Exif.extract_gps (Cli.exif_world w) path []) = None ->
        List.filter Report.of_generator tr'
        = map Cli.Cap
            (snd (g path (Cli.style args) (Cli.model args) None []))).
Proof.
  intros Hex.
  destruct (process_shape w g args path tr)
    as (tr0 & evs0 & tail & E & Hall & _ & Hcases).
  exists (tr0 ++ map Cli.Cap evs0 ++ tail)%list. split; [exact E |].
  assert (List.filter Report.of_generator tail = []) as Htail.
  { destruct Hcases as [(_ & _ & _ & ->) | (_ & Hcases)]; [reflexivity |].
    destruct Hcases as [(e & _ & _ & ->) | (loc & _ & _ & Hcases)];
      [reflexivity |].
    destruct Hcases as [(e & _ & ->) | (caption & _ & Hcases)]; [reflexivity |].
    destruct Hcases as [(_ & ->) | [(_ & _ & ->) | (_ & e & _ & ->)]];
      reflexivity. }
  assert (List.filter Report.of_generator (tr0 ++ map Cli.Cap evs0 ++ tail)
          = map Cli.Cap evs0) as Hfilter.
  { rewrite !List.filter_app, Htail, (no_generator_in_position tr0 Hall).
    rewrite (filter_all _ _ (all_of_generator evs0)). apply app_nil_r. }
  rewrite Hfilter.
  assert (forall loc, fst (Cli.locate w args path tr) = inr loc ->
                      evs0 = snd (g path (Cli.style args) (Cli.model args) loc []))
    as Hloc.
  { intros loc Hl. destruct Hcases as [(Hex' & _) | (_ & Hcases)];
      [congruence |].
    destruct Hcases as [(e & _ & He & _) | (loc' & Hl' & -> & _)]; congruence. }
  split.
  - intros d evs l h Hgps Hd Hgeo. f_equal. apply Hloc.
    rewrite locate_run, Hgps, Hd. cbv zeta.
    rewrite omap_app, geo_of_exif, app_nil_r, Hgeo. reflexivity.
  - intros Hnone. f_equal. apply Hloc. rewrite locate_run.
    destruct (Cli.no_gps args); [reflexivity |].
    destruct Hnone as [Hn | Hn]; [discriminate |].
    destruct (Exif.extract_gps (Cli.exif_world w) path []) as [[d |] evs];
      [discriminate | reflexivity].
Qed.

End OneImage.

Lemma geocoder_error_fails_the_image_witness :
  exists d evs,
    Exif.extract_gps Runs.files "a.jpg" [] = (Some d, evs)
    /\ Cli.process (Desk.desk_with Desk.late) Desk.openai Desk.args "a.jpg" []
       = (inr tt,
          (map Cli.Exf evs
             ++ [Cli.Geo (GPS.EvReverse
                            (Obs.query Desk.late
                               (Exif.latitude d) (Exif.longitude d)) 5 "en");
                 Cli.Geo (GPS.EvSleep 1);
                 Cli.Geo (GPS.EvReverse
                            (Obs.query Desk.late
                               (Exif.latitude d) (Exif.longitude d)) 5 "en");
                 Cli.EvPrintFailed "a.jpg"
                   (ValueError "Must be a coordinate pair or Point")])%list).
Proof.
  eexists _, _. split; [vm_compute; reflexivity |].
  apply (proj1 (geocoder_error_fails_the_image (Desk.desk_with Desk.late)
                  Desk.openai Desk.args "a.jpg" _ _
                  (ValueError "Must be a coordinate pair or Point") _ []
                  eq_refl eq_refl eq_refl eq_refl)).
Defined.

Lemma position_becomes_location_context_witness :
  Cli.path_exists Desk.desk "e.jpg" = true
  /\ exists tr',
      Cli.process Desk.desk Desk.openai Desk.args "e.jpg" [] = (inr tt, tr')
      /\ List.filter Report.of_generator tr'
         = map Cli.Cap
             (snd (Desk.openai "e.jpg" "travel" None None [])).
Proof.
  split; [reflexivity |].
  destruct (position_becomes_location_context Desk.desk Desk.openai Desk.args
              "e.jpg" [] eq_refl)
    as (tr' & E & _ & Hnone).
  exists tr'. split; [exact E |]. apply Hnone. right. reflexivity.
Defined.

Example desk_location :
  Obs.requests
    (omap (fun ev => match ev with Cli.Cap e => Some e | _ => None end)
       (snd (Cli.process Desk.desk Desk.openai Desk.args "a.jpg" [])))
  = [mkRequest "gpt-4o-mini" 300
       [mkMessage "user"
          [ImageUrlBlock "data:image/jpeg;base64,L2o=";
           TextBlock
             ("Write a travel photography caption emphasizing the location."
              +:+ nl +:+ nl +:+ "Location: Lisbon, Portugal")]]].
Proof. vm_compute. reflexivity. Qed.

(** ** The generator does not read the trace *)

Section Appending.
Context {E : Type}.

Lemma appends_ret {A} (a : A) : Traces.appends (E:=E) (Eff.ret a).
Proof. intros tr. cbn. rewrite app_nil_r. reflexivity. Qed.

Lemma appends_raise {A} e : Traces.appends (@Eff.raise E A e).
Proof. intros tr. cbn. rewrite app_nil_r. reflexivity. Qed.

Lemma appends_lift {A} (r : Py.exn + A) :
  Traces.appends (E:=E) (Eff.lift r).
Proof. intros tr. cbn. rewrite app_nil_r. reflexivity. Qed.

Lemma appends_call {A} (ev : E) (r : Py.exn + A) :
  Traces.appends (Eff.call ev r).
Proof. intros tr. reflexivity. Qed.

Lemma appends_bind {A B} (m : @Eff.M E A) (k : A -> @Eff.M E B) :
  Traces.appends m -> (forall a, Traces.appends (k a)) ->
  Traces.appends (Eff.bind m k).
Proof.
  intros Hm Hk tr. unfold Eff.bind. rewrite (Hm tr).
  destruct (m []) as [[e | a] evs]; cbn [fst snd].
  - reflexivity.
  - rewrite (Hk a (tr ++ evs)%list), (Hk a evs). cbn [fst snd].
    rewrite app_assoc. reflexivity.
Qed.

End Appending.

Lemma generate_appends w g path style m loc :
  Traces.appends (generate w g path style m loc).
Proof.
  unfold generate, _generate_claude, _generate_openai.
  destruct (decide (provider g = "claude")).
  - destruct (negb _); [apply appends_raise |].
    apply appends_bind.
    { unfold _prepare_image. apply appends_bind; [apply appends_call |].
      intros img. apply appends_call. }
    intros b64. apply appends_bind.
    { unfold model_name. destruct (dict_get _ _);
        [apply appends_ret | apply appends_raise]. }
    intros remote. apply appends_bind; [| intros r; apply appends_lift].
    unfold client_messages_create. destruct (client g);
      [apply appends_call | apply appends_raise].
  - destruct (negb _); [apply appends_raise |].
    apply appends_bind.
    { unfold _prepare_image. apply appends_bind; [apply appends_call |].
      intros img. apply appends_call. }
    intros b64. apply appends_bind.
    { unfold model_name. destruct (dict_get _ _);
        [apply appends_ret | apply appends_raise]. }
    intros remote. apply appends_bind; [| intros r; apply appends_lift].
    unfold client_chat_completions_create. destruct (client g);
      [apply appends_raise | apply appends_call].
Qed.

(** * The default model, and the exceptions of the geocoder *)

(** C1. With no explicit model key, a call is the call with the key
    ['opus'] (claude) or ['gpt-4o'] (openai) when the style is ['social'],
    and with the key ['haiku'] (claude) or ['gpt-4o-mini'] (openai) for
    every other style; each of these keys is in the catalog of its
    provider, and when the image decodes the one request that is sent
    names the remote model of the catalog entry of that key. *)
Theorem default_model_by_style w key prov g path style loc tr :
  __init__ w key prov = inr g ->
  (provider g = "claude" \/ provider g = "openai")
  /\ (provider g = "claude" -> style = "social" ->
      generate w g path style None loc tr
      = generate w g path style (Some "opus") loc tr
      /\ dict_in "opus" (models g) = true)
  /\ (provider g = "claude" -> style <> "social" ->
      generate w g path style None loc tr
      = generate w g path style (Some "haiku") loc tr
      /\ dict_in "haiku" (models g) = true)
  /\ (provider g = "openai" -> style = "social" ->
      generate w g path style None loc tr
      = generate w g path style (Some "gpt-4o") loc tr
      /\ dict_in "gpt-4o" (models g) = true)
  /\ (provider g = "openai" -> style <> "social" ->
      generate w g path style None loc tr
      = generate w g path style (Some "gpt-4o-mini") loc tr
      /\ dict_in "gpt-4o-mini" (models g) = true)
  /\ (forall img, Image_open w path = inr img ->
      exists req info,
        Obs.requests (snd (generate w g path style None loc tr))
        = (Obs.requests tr ++ [req])%list
        /\ model req = name info
        /\ (provider g = "claude" -> style = "social" ->
            dict_get (models g) "opus" = Some info
            /\ model req = "claude-opus-4-5-20251101")
        /\ (provider g = "claude" -> style <> "social" ->
            dict_get (models g) "haiku" = Some info
            /\ model req = "claude-3-haiku-20240307")
        /\ (provider g = "openai" -> style = "social" ->
            dict_get (models g) "gpt-4o" = Some info
            /\ model req = "gpt-4o")
        /\ (provider g = "openai" -> style <> "social" ->
            dict_get (models g) "gpt-4o-mini" = Some info
            /\ model req = "gpt-4o-mini")).
Proof.
  intros Hinit.
  assert (provider g = "claude" -> models g = CLAUDE_MODELS) as Hcm.
  { destruct (init_bound _ _ _ _ Hinit) as [(_ & H & _) | (Hp & _)];
      [auto | rewrite Hp; discriminate]. }
  assert (provider g = "openai" -> models g = OPENAI_MODELS) as Hom.
  { destruct (init_bound _ _ _ _ Hinit) as [(Hp & _) | (_ & H & _)];
      [rewrite Hp; discriminate | auto]. }
  split.
  { destruct (init_bound _ _ _ _ Hinit) as [(H & _) | (H & _)]; auto. }
  split; [| split; [| split; [| split]]].
  - intros Hp Hs. split; [| rewrite (Hcm Hp); reflexivity].
    rewrite !generate_claude by assumption. unfold _generate_claude.
    destruct (decide (style = "social")); [reflexivity | contradiction].
  - intros Hp Hs. split; [| rewrite (Hcm Hp); reflexivity].
    rewrite !generate_claude by assumption. unfold _generate_claude.
    destruct (decide (style = "social")); [contradiction | reflexivity].
  - intros Hp Hs. split; [| rewrite (Hom Hp); reflexivity].
    rewrite !generate_openai by assumption. unfold _generate_openai.
    destruct (decide (style = "social")); [reflexivity | contradiction].
  - intros Hp Hs. split; [| rewrite (Hom Hp); reflexivity].
    rewrite !generate_openai by assumption. unfold _generate_openai.
    destruct (decide (style = "social")); [contradiction | reflexivity].
  - intros img Himg.
    destruct (generate_sends w key prov g path style None loc img tr Hinit I Himg)
      as (k & info & Hk & Hor & Hrun).
    destruct Hor as [Hsome | [_ Hdefault]]; [discriminate |].
    destruct Hrun as [(Hp & E) | (Hp & E)].
    + exists (Obs.claude_request w (name info) img style loc), info.
      rewrite E. cbn [snd]. split; [apply requests_after_run; reflexivity |].
      split; [reflexivity |].
      destruct Hdefault as [(_ & ->) | (Hp' & _)];
        [| rewrite Hp in Hp'; discriminate].
      pose proof Hk as Hk'. rewrite (Hcm Hp) in Hk'.
      cbn [Obs.claude_request model].
      destruct (decide (style = "social")) as [Hs | Hs];
        vm_compute in Hk'; injection Hk' as Hinfo;
        assert (name info = name info) as Hn by reflexivity;
        rewrite <- Hinfo in Hn at 2; vm_compute in Hn;
        repeat split; intros; try contradiction; try assumption;
        try exact Hn; congruence.
    + exists (Obs.openai_request w (name info) img style loc), info.
      rewrite E. cbn [snd]. split; [apply requests_after_run; reflexivity |].
      split; [reflexivity |].
      destruct Hdefault as [(Hp' & _) | (_ & ->)];
        [rewrite Hp in Hp'; discriminate |].
      pose proof Hk as Hk'. rewrite (Hom Hp) in Hk'.
      cbn [Obs.openai_request model].
      destruct (decide (style = "social")) as [Hs | Hs];
        vm_compute in Hk'; injection Hk' as Hinfo;
        assert (name info = name info) as Hn by reflexivity;
        rewrite <- Hinfo in Hn at 2; vm_compute in Hn;
        repeat split; intros; try contradiction; try assumption;
        try exact Hn; congruence.
Qed.

Lemma default_model_by_style_witness :
  __init__ Sample.world (Some "sk-ant") "Claude" = inr Sample.claude
  /\ generate Sample.world Sample.claude "photo.jpg" "social" None None []
     = generate Sample.world Sample.claude "photo.jpg" "social" (Some "opus") None []
  /\ exists req,
      Obs.requests
        (snd (generate Sample.world Sample.claude "photo.jpg" "social" None
                None []))
      = [req]
      /\ model req = "claude-opus-4-5-20251101".
Proof.
  split; [reflexivity |].
  destruct (default_model_by_style Sample.world (Some "sk-ant") "Claude"
              Sample.claude "photo.jpg" "social" None [] eq_refl)
    as (_ & Hsocial & _ & _ & _ & Hsent).
  split; [apply Hsocial; reflexivity |].
  destruct (Hsent Sample.photo eq_refl) as (req & info & Hr & _ & Hopus & _).
  exists req. split; [exact Hr |]. apply Hopus; reflexivity.
Defined.

Section Raising.
Context {float : Type} (w : GPS.World float) (latitude longitude : float).

Local Abbreviation q := (Obs.query w latitude longitude).

(** [k] attempts that are absorbed (a caught exception, or no location
    found), then an exception that is not caught, with attempts to
    spare. *)
Lemma attempts_raise retries e k :
  forall n a tr,
    a + Z.of_nat n = retries -> (k < n)%nat ->
    (forall i, (i < k)%nat ->
       (exists e', GPS.reverse w (GPS.calls tr + i) q 5 "en" = inl e'
                   /\ GPS.caught e' = true)
       \/ GPS.reverse w (GPS.calls tr + i) q 5 "en" = inr None) ->
    GPS.reverse w (GPS.calls tr + k) q 5 "en" = inl e ->
    GPS.caught e = false ->
    exists tr',
      GPS.attempts w latitude longitude retries (seqZ a (Z.of_nat n)) tr
      = (inl e, (tr ++ tr' ++ [GPS.EvReverse q 5 "en"])%list)
      /\ GPS.calls tr' = k.
Proof.
  induction k as [| k IH]; intros n a tr Ha Hk Habs He Hc.
  - rewrite seqZ_cons by lia. rewrite attempts_step.
    rewrite Nat.add_0_r in He. rewrite He, Hc. exists []. auto.
  - rewrite seqZ_cons by lia. rewrite attempts_step.
    destruct n as [| n]; [lia |].
    replace (Z.pred (Z.of_nat (S n))) with (Z.of_nat n) by lia.
    destruct (Habs O ltac:(lia)) as [(e' & He' & Hc') | Hnone].
    + rewrite Nat.add_0_r in He'. rewrite He', Hc'.
      assert ((a <? retries - 1) = true) as -> by (apply Z.ltb_lt; lia).
      destruct (IH n (Z.succ a)
                  ((tr ++ [GPS.EvReverse q 5 "en"]) ++ [GPS.EvSleep 1])%list)
        as (tr' & E & Hcalls).
      * lia.
      * lia.
      * intros i Hi. rewrite calls_after_sleep, calls_after_reverse.
        replace (S (GPS.calls tr) + i)%nat with (GPS.calls tr + S i)%nat by lia.
        apply Habs. lia.
      * rewrite calls_after_sleep, calls_after_reverse.
        replace (S (GPS.calls tr) + k)%nat with (GPS.calls tr + S k)%nat by lia.
        exact He.
      * exact Hc.
      * exists (GPS.EvReverse q 5 "en" :: GPS.EvSleep 1 :: tr'). split.
        -- rewrite E, <- !app_assoc. reflexivity.
        -- rewrite calls_cons_reverse. cbn. f_equal. exact Hcalls.
    + rewrite Nat.add_0_r in Hnone. rewrite Hnone.
      destruct (IH n (Z.succ a) (tr ++ [GPS.EvReverse q 5 "en"])%list)
        as (tr' & E & Hcalls).
      * lia.
      * lia.
      * intros i Hi. rewrite calls_after_reverse.
        replace (S (GPS.calls tr) + i)%nat with (GPS.calls tr + S i)%nat by lia.
        apply Habs. lia.
      * rewrite calls_after_reverse.
        replace (S (GPS.calls tr) + k)%nat with (GPS.calls tr + S k)%nat by lia.
        exact He.
      * exact Hc.
      * exists (GPS.EvReverse q 5 "en" :: tr'). split.
        -- rewrite E, <- !app_assoc. reflexivity.
        -- rewrite calls_cons_reverse. f_equal. exact Hcalls.
Qed.

(** What the loop raises was raised by the service and is not one of
    the two caught exceptions. *)
Lemma attempts_raise_only retries todo :
  forall tr e tr1,
    GPS.attempts w latitude longitude retries todo tr = (inl e, tr1) ->
    GPS.caught e = false /\ exists i, GPS.reverse w i q 5 "en" = inl e.
Proof.
  induction todo as [| attempt todo IH]; intros tr e tr1 H.
  - discriminate H.
  - rewrite attempts_step in H.
    destruct (GPS.reverse w (GPS.calls tr) q 5 "en") as [e' | [location |]] eqn:E.
    + destruct (GPS.caught e') eqn:Hc.
      * apply (IH _ _ _ H).
      * injection H as <- _. eauto.
    + discriminate H.
    + apply (IH _ _ _ H).
Qed.

End Raising.

(** C7, amended. [reverse_geocode] absorbs the two exceptions it names,
    timeouts and service errors: when the service fails with nothing
    else the call returns without raising, and when every attempt fails
    with one of them it makes [retries] attempts, a sleep of one second
    between two attempts, and returns [None]. An exception of any other
    kind raised by the service reaches the caller at the attempt that
    raised it, be it the first or a later one reached after absorbed
    attempts, and no further attempt is made; and whatever
    [reverse_geocode] raises is such an exception of the service. *)
Theorem service_errors_absorbed_others_raised
    {float} (w : GPS.World float) latitude longitude retries tr :
  ((forall i e, GPS.reverse w i (Obs.query w latitude longitude) 5 "en" = inl e ->
      GPS.caught e = true) ->
   exists r tr',
     GPS.reverse_geocode w latitude longitude retries tr = (inr r, tr'))
  /\ ((forall i, exists e,
         GPS.reverse w i (Obs.query w latitude longitude) 5 "en" = inl e
         /\ GPS.caught e = true) ->
      GPS.reverse_geocode w latitude longitude retries tr
      = (inr None,
         (tr ++ Obs.retry_trace (Obs.query w latitude longitude)
                  (Z.to_nat retries))%list))
  /\ (forall k e,
        Z.of_nat k < retries ->
        (forall i, (i < k)%nat ->
           (exists e',
              GPS.reverse w (GPS.calls tr + i)
                (Obs.query w latitude longitude) 5 "en" = inl e'
              /\ GPS.caught e' = true)
           \/ GPS.reverse w (GPS.calls tr + i)
                (Obs.query w latitude longitude) 5 "en" = inr None) ->
        GPS.reverse w (GPS.calls tr + k) (Obs.query w latitude longitude) 5 "en"
        = inl e ->
        GPS.caught e = false ->
        exists tr',
          GPS.reverse_geocode w latitude longitude retries tr
          = (inl e,
             (tr ++ tr'
                 ++ [GPS.EvReverse (Obs.query w latitude longitude) 5 "en"])%list)
          /\ GPS.calls tr' = k)
  /\ (forall e tr1,
        GPS.reverse_geocode w latitude longitude retries tr = (inl e, tr1) ->
        GPS.caught e = false
        /\ exists i, GPS.reverse w i (Obs.query w latitude longitude) 5 "en"
                     = inl e).
Proof.
  unfold GPS.reverse_geocode. split; [| split; [| split]].
  - intros Hw. apply attempts_absorb, Hw.
  - intros Hfail. unfold range. destruct (Z.le_gt_cases 0 retries) as [Hr | Hr].
    + rewrite <- (Z2Nat.id retries Hr) at 2.
      apply attempts_persistent; [lia | intros i _; apply Hfail].
    + replace (Z.to_nat retries) with O by lia.
      replace (seqZ 0 retries) with (@nil Z)
        by (unfold seqZ; replace (Z.to_nat retries) with O by lia; reflexivity).
      cbn. rewrite app_nil_r. reflexivity.
  - intros k e Hk Habs He Hc. rewrite range_of_nat.
    apply (attempts_raise w latitude longitude retries e k
             (Z.to_nat retries) 0 tr); try assumption; lia.
  - intros e tr1 H.
    apply (attempts_raise_only w latitude longitude retries _ _ _ _ H).
Qed.

Lemma service_errors_absorbed_others_raised_witness :
  (forall i, exists e,
      GPS.reverse Sample.down i (Obs.query Sample.down "38.72" "-9.14") 5 "en"
      = inl e /\ GPS.caught e = true)
  /\ GPS.reverse_geocode Sample.down "38.72" "-9.14" 3 []
     = (inr None,
        [GPS.EvReverse "38.72, -9.14" 5 "en"; GPS.EvSleep 1;
         GPS.EvReverse "38.72, -9.14" 5 "en"; GPS.EvSleep 1;
         GPS.EvReverse "38.72, -9.14" 5 "en"])
  /\ GPS.reverse Edge.late 1 (Obs.query Edge.late "38.72" "-9.14") 5 "en"
     = inl (ValueError "Must be a coordinate pair or Point")
  /\ exists tr',
      GPS.reverse_geocode Edge.late "38.72" "-9.14" 2 []
      = (inl (ValueError "Must be a coordinate pair or Point"),
         (tr' ++ [GPS.EvReverse "38.72, -9.14" 5 "en"])%list)
      /\ GPS.calls tr' = 1%nat.
Proof.
  assert (forall i, exists e,
      GPS.reverse Sample.down i (Obs.query Sample.down "38.72" "-9.14") 5 "en"
      = inl e /\ GPS.caught e = true) as Hdown.
  { intros [| i]; eexists; split; reflexivity. }
  split; [exact Hdown |]. split.
  { exact (proj1 (proj2 (service_errors_absorbed_others_raised
                           Sample.down "38.72" "-9.14" 3 [])) Hdown). }
  split; [reflexivity |].
  apply (proj1 (proj2 (proj2 (service_errors_absorbed_others_raised
                                Edge.late "38.72" "-9.14" 2 [])))
           1%nat (ValueError "Must be a coordinate pair or Point")).
  - lia.
  - intros [| i] Hi; [| lia]. left. exists GeocoderTimedOut. split; reflexivity.
  - reflexivity.
  - reflexivity.
Defined.

Example late_refusal :
  GPS.reverse_geocode Edge.late "38.72" "-9.14" 2 []
  = (inl (ValueError "Must be a coordinate pair or Point"),
     [GPS.EvReverse "38.72, -9.14" 5 "en"; GPS.EvSleep 1;
      GPS.EvReverse "38.72, -9.14" 5 "en"])
  /\ GPS.reverse_geocode Edge.lost "38.72" "-9.14" 2 []
     = (inl (ValueError "Must be a coordinate pair or Point"),
        [GPS.EvReverse "38.72, -9.14" 5 "en";
         GPS.EvReverse "38.72, -9.14" 5 "en"]).
Proof. split; vm_compute; reflexivity. Qed.

(** * Zero denominators in the GPS tags *)

Section Denominators.
Context {float : Type} (w : @Exif.World float).

(** A zero denominator in the degrees, the minutes or the seconds makes
    the conversion raise, whatever the reference. *)
Lemma convert_zero d1 d2 m1 m2 s1 s2 ref :
  d2 = 0 \/ m2 = 0 \/ s2 = 0 ->
  Exif._convert_to_degrees w (Position.rationals d1 d2 m1 m2 s1 s2) ref
  = inl Exif.ZeroDivisionError.
Proof.
  intros Hz. unfold Exif._convert_to_degrees, Exif.ratio, Position.rationals.
  cbn [Exif.getitem lookup list_lookup Exif.bind Exif.truediv].
  destruct Hz as [-> | [-> | ->]].
  - reflexivity.
  - destruct (d2 =? 0); cbn [Exif.bind]; reflexivity.
  - destruct (d2 =? 0); cbn [Exif.bind]; [reflexivity |].
    destruct (m2 =? 0); cbn [Exif.bind]; reflexivity.
Qed.

(** X19. A rational with a zero denominator makes the whole result
    [None], wherever it stands: in the degrees, the minutes or the
    seconds of the latitude or of the longitude, or in the altitude, in
    which case the coordinates read before it are dropped. *)
Theorem zero_denominator_gives_none path data d gps tr :
  Exif.open_info w path = inr (Some data) ->
  Exif.piexif_load w data = inr d ->
  d !! "GPS" = Some gps ->
  (exists n, gps !! Exif.GPSAltitude
             = Some (Exif.PTuple [Exif.PInt n; Exif.PInt 0]))
  \/ (exists d1 d2 m1 m2 s1 s2,
        gps !! Exif.GPSLatitude
        = Some (Position.rationals d1 d2 m1 m2 s1 s2)
        /\ (d2 = 0 \/ m2 = 0 \/ s2 = 0))
  \/ (exists d1 d2 m1 m2 s1 s2,
        gps !! Exif.GPSLongitude
        = Some (Position.rationals d1 d2 m1 m2 s1 s2)
        /\ (d2 = 0 \/ m2 = 0 \/ s2 = 0)) ->
  fst (Exif.extract_gps w path tr) = None.
Proof.
  intros Ho Hl Hgps Hzero. rewrite (extract_of_loaded w path data d tr Ho Hl).
  cbn [fst]. unfold Exif.gps_of_exif. rewrite Hgps.
  change (default ∅ (Some gps)) with gps.
  destruct Hzero as [(n & Halt)
                    | [(d1 & d2 & m1 & m2 & s1 & s2 & Hlat & Hz)
                      | (d1 & d2 & m1 & m2 & s1 & s2 & Hlon & Hz)]].
  - destruct (gps !! Exif.GPSLatitude); [| reflexivity].
    rewrite Halt. unfold Exif.tag at 5. rewrite Halt.
    repeat match goal with
           | |- context [Exif.bind ?m _] =>
               destruct m eqn:?; cbn [Exif.bind]; try reflexivity
           end.
  - rewrite Hlat. unfold Exif.tag at 1. rewrite Hlat. cbn [Exif.bind].
    destruct (Exif.tag gps Exif.GPSLatitudeRef); cbn [Exif.bind]; [reflexivity |].
    destruct (Exif.decode w p); cbn [Exif.bind]; [reflexivity |].
    rewrite (convert_zero d1 d2 m1 m2 s1 s2 s Hz). reflexivity.
  - destruct (gps !! Exif.GPSLatitude) as [lat |] eqn:Hlat; [| reflexivity].
    unfold Exif.tag at 3. rewrite Hlon.
    destruct (Exif.tag gps Exif.GPSLatitude); cbn [Exif.bind]; [reflexivity |].
    destruct (Exif.tag gps Exif.GPSLatitudeRef); cbn [Exif.bind]; [reflexivity |].
    destruct (Exif.decode w p0); cbn [Exif.bind]; [reflexivity |].
    destruct (Exif._convert_to_degrees w p s); cbn [Exif.bind]; [reflexivity |].
    destruct (Exif.tag gps Exif.GPSLongitudeRef); cbn [Exif.bind]; [reflexivity |].
    destruct (Exif.decode w p1); cbn [Exif.bind]; [reflexivity |].
    rewrite (convert_zero d1 d2 m1 m2 s1 s2 s0 Hz). reflexivity.
Qed.

End Denominators.

Lemma zero_denominator_gives_none_witness :
  Exif.open_info Edge.files "g.jpg" = inr (Some "G")
  /\ Exif.piexif_load Edge.files "G"
     = inr {[ "GPS" := <[ 4 := Position.rationals 9 1 8 1 0 0 ]>
                        Runs.lisbon_tags ]}
  /\ (<[ 4 := Position.rationals 9 1 8 1 0 0 ]> Runs.lisbon_tags)
       !! Exif.GPSLongitude
     = Some (Position.rationals 9 1 8 1 0 0)
  /\ fst (Exif.extract_gps Edge.files "g.jpg" []) = None.
Proof.
  split; [reflexivity |]. split; [reflexivity |].
  split; [vm_compute; reflexivity |].
  apply (zero_denominator_gives_none Edge.files "g.jpg" "G"
           {[ "GPS" := <[ 4 := Position.rationals 9 1 8 1 0 0 ]>
                         Runs.lisbon_tags ]}
           (<[ 4 := Position.rationals 9 1 8 1 0 0 ]> Runs.lisbon_tags) []).
  - reflexivity.
  - reflexivity.
  - vm_compute; reflexivity.
  - right. right. exists 9, 1, 8, 1, 0, 0. split.
    + vm_compute; reflexivity.
    + right. right. reflexivity.
Defined.
